(** * industrial_reconstruction: frame admission and integration controller

    A shallow embedding of [industrial_reconstruction.py]: the node's fields
    become one [State] record, every callback becomes a function on that
    record, and the libraries the node calls (cv_bridge, tf2, numpy,
    pyquaternion, Open3D) are gathered in the [Collaborators] class.

    Python floats are IEEE binary64 numbers, so scalars are Rocq's primitive
    floats; Python ints are unbounded, so counters are [Z].

    Between two service calls the callbacks of the other threads are taken
    whole.  [stopReconstructionCallback] is the one callback that waits for
    the others, and the node takes no lock: beside Stop the camera callback
    and the timer tick are split where they read and write the queue, so a
    callback that is already past its guard when Stop begins, or when Stop's
    wait loop ends, delivers its frame afterwards.  An exception that leaves
    a callback leaves [executor.spin] too, so a run ends there.  Logging and
    topic publication do not change the node's fields and are left out. *)

From Stdlib Require Import List Bool ZArith Ascii String Lia.
From Stdlib Require Import Floats Uint63.
From Stdlib Require Import DecimalString DecimalNat Permutation.
Import ListNotations.

Set Warnings "-inexact-float".
Local Open Scope Z_scope.

(** ** Numeric data *)

Definition Vec3 : Type := float * float * float.
Definition Vec4 : Type := float * float * float * float.

(** A 4x4 numpy array, row by row. *)
Definition Mat4 : Type := Vec4 * Vec4 * Vec4 * Vec4.

(** Python's [a >= b] on floats. *)
Definition geb (a b : float) : bool := (b <=? a)%float.

(** numpy's elementwise [a - b] on arrays of three floats. *)
Definition vsub (a b : Vec3) : Vec3 :=
  let '(a0, a1, a2) := a in
  let '(b0, b1, b2) := b in
  ((a0 - b0)%float, (a1 - b1)%float, (a2 - b2)%float).

(** [row[3] = v]. *)
Definition set_col3 (row : Vec4) (v : float) : Vec4 :=
  let '(a, b, c, _) := row in (a, b, c, v).

(** [m[0, 3] = t[0]; m[1, 3] = t[1]; m[2, 3] = t[2]]. *)
Definition set_translation (m : Mat4) (t : Vec3) : Mat4 :=
  let '(r0, r1, r2, r3) := m in
  let '(t0, t1, t2) := t in
  (set_col3 r0 t0, set_col3 r1 t1, set_col3 r2 t2, r3).

(** ** Messages and engine data *)

Record ImageMsg : Type := mkImageMsg {
  encoding : string;
  stamp : Z;
  msg_data : list Z
}.

(** A decoded image: the length of its shape, whether its dtype is uint8, and
    its buffer. *)
Record Image : Type := mkImage {
  shape_len : nat;
  is_uint8 : bool;
  pixels : list Z
}.

(** The transform of a [TransformStamped]: translation x, y, z and rotation
    x, y, z, w. *)
Record TransformStamped : Type := mkTransformStamped {
  tf_translation : Vec3;
  tf_rotation : Vec4
}.

Record CameraInfo : Type := mkCameraInfo {
  ci_width : Z;
  ci_height : Z;
  ci_k : list float
}.

Record Intrinsics : Type := mkIntrinsics {
  in_width : Z;
  in_height : Z;
  in_fx : float;
  in_fy : float;
  in_cx : float;
  in_cy : float
}.

Record CropBox : Type := mkCropBox {
  min_bound : Vec3;
  max_bound : Vec3
}.

(** [RGBDImage.create_from_color_and_depth(color, depth, depth_scale,
    depth_trunc, convert_rgb_to_intensity)]. *)
Record RGBDImage : Type := create_from_color_and_depth {
  rgbd_color : Image;
  rgbd_depth : Image;
  rgbd_depth_scale : float;
  rgbd_depth_trunc : float;
  rgbd_intensity : bool
}.

(** One accepted call [tsdf_volume.integrate(rgbd, intrinsics, extrinsic)]. *)
Record IntegrateCall : Type := mkIntegrateCall {
  ic_rgbd : RGBDImage;
  ic_intrinsics : option Intrinsics;
  ic_extrinsic : Mat4
}.

(** The reconstruction engine's volume: its two construction parameters and
    the integrate calls it has accepted, oldest first. *)
Record Volume : Type := ScalableTSDFVolume {
  voxel_length : float;
  sdf_trunc : float;
  integrated : list IntegrateCall
}.

Record TriangleMesh : Type := mkMesh {
  vertices : list Vec3;
  triangles : list (nat * nat * nat)
}.

(** An entry of [sensor_data]: [[depth, rgb, gm_tf_stamped]]. *)
Definition SensorDatum : Type := Image * Image * TransformStamped.

(** An entry of [tsdf_integration_data]: [[depth_img, rgb_img, rgb_pose]]. *)
Definition IntegrationDatum : Type := Image * Image * Mat4.

(** ** Python exceptions and results *)

Inductive PyExn : Type :=
| TypeError
| IndexError
| RuntimeError
| AttributeError
| LinAlgError.

Inductive Result (A : Type) : Type :=
| Ok (a : A)
| Err (e : PyExn).
Arguments Ok {A} a.
Arguments Err {A} e.

Definition bind {A B : Type} (r : Result A) (k : A -> Result B) : Result B :=
  match r with
  | Ok a => k a
  | Err e => Err e
  end.

Notation "x <- r ;; k" := (bind r (fun x => k))
  (at level 61, r at next level, right associativity).

(** ** The libraries the node calls *)

Class Collaborators : Type := {
  (** [CvBridge.imgmsg_to_cv2]; [None] is a [CvBridgeError]. *)
  imgmsg_to_cv2 : ImageMsg -> string -> option Image;
  (** [cv2.cvtColor(img, cv2.COLOR_GRAY2RGB)]. *)
  cvtColor_GRAY2RGB : Image -> Image;
  (** [Buffer.lookup_transform(target, source, stamp, timeout)]; [None] is
      any exception it raises. *)
  lookup_transform : string -> string -> Z -> option TransformStamped;
  (** [utility.ros.transformStampedToVectors]: the translation vector and the
      rotation quaternion of a transform. *)
  transformStampedToVectors : TransformStamped -> Vec3 * Vec4;
  (** [utility.ros.getIntrinsicsFromMsg]. *)
  getIntrinsicsFromMsg : CameraInfo -> Intrinsics;
  (** [np.linalg.norm] on a vector of three floats. *)
  linalg_norm : Vec3 -> float;
  (** [Quaternion.absolute_distance(Quaternion(q0), Quaternion(q1))]. *)
  absolute_distance : Vec4 -> Vec4 -> float;
  (** [Quaternion(q).transformation_matrix]. *)
  transformation_matrix : Vec4 -> Mat4;
  (** [np.linalg.inv]; an [Err] is the exception it raises. *)
  linalg_inv : Mat4 -> Result Mat4;
  (** Whether the engine raises on an integrate call instead of taking it. *)
  integrate_raises : Volume -> IntegrateCall -> option PyExn;
  (** One entry of [tri_normals @ direction]: the product of a row of the
      normals with the 3x1 direction. *)
  matmul_row : Vec3 -> Vec3 -> float;
  (** [np.radians] and [np.cos]. *)
  np_radians : float -> float;
  np_cos : float -> float;
  (** [TriangleMesh.extract_triangle_mesh] of the volume. *)
  extract_triangle_mesh : Volume -> TriangleMesh;
  (** [TriangleMesh.crop(box)], a new mesh. *)
  crop : TriangleMesh -> CropBox -> TriangleMesh;
  (** The unit normal Open3D computes for one triangle from the vertex array
      ([compute_vertex_normals] recomputes every triangle normal this way). *)
  triangle_normal : list Vec3 -> nat * nat * nat -> Vec3;
  (** [TriangleMesh.cluster_connected_triangles]: the cluster index of each
      triangle, the number of triangles of each cluster, the area of each
      cluster. *)
  cluster_connected_triangles :
    TriangleMesh -> list nat * list Z * list float
}.
Record State : Type := mkState {
  tsdf_volume : option Volume;
  intrinsics : option Intrinsics;
  crop_box : option CropBox;
  crop_mesh : bool;
  tracking_frame : string;
  relative_frame : string;
  translation_distance : float;
  rotational_distance : float;
  depth_scale : float;
  depth_trunc : float;
  convert_rgb_to_intensity : bool;
  sensor_data : list SensorDatum;
  color_images : list Image;
  depth_images : list Image;
  rgb_poses : list Mat4;
  prev_pose_rot : Vec4;
  prev_pose_tran : Vec3;
  tsdf_integration_data : list IntegrationDatum;
  integration_done : bool;
  live_integration : bool;
  record : bool;
  paused : bool;
  frame_count : Z;
  processed_frame_count : Z;
  reconstructed_frame_count : Z
}.

Definition set_tsdf_volume (v : option Volume) (s : State) : State :=
  mkState v (intrinsics s) (crop_box s) (crop_mesh s) (tracking_frame s)
    (relative_frame s) (translation_distance s) (rotational_distance s)
    (depth_scale s) (depth_trunc s) (convert_rgb_to_intensity s)
    (sensor_data s) (color_images s) (depth_images s) (rgb_poses s)
    (prev_pose_rot s) (prev_pose_tran s) (tsdf_integration_data s)
    (integration_done s) (live_integration s) (record s) (paused s)
    (frame_count s) (processed_frame_count s) (reconstructed_frame_count s).

Definition set_intrinsics (v : option Intrinsics) (s : State) : State :=
  mkState (tsdf_volume s) v (crop_box s) (crop_mesh s) (tracking_frame s)
    (relative_frame s) (translation_distance s) (rotational_distance s)
    (depth_scale s) (depth_trunc s) (convert_rgb_to_intensity s)
    (sensor_data s) (color_images s) (depth_images s) (rgb_poses s)
    (prev_pose_rot s) (prev_pose_tran s) (tsdf_integration_data s)
    (integration_done s) (live_integration s) (record s) (paused s)
    (frame_count s) (processed_frame_count s) (reconstructed_frame_count s).

Definition set_sensor_data (v : list SensorDatum) (s : State) : State :=
  mkState (tsdf_volume s) (intrinsics s) (crop_box s) (crop_mesh s)
    (tracking_frame s) (relative_frame s) (translation_distance s)
    (rotational_distance s) (depth_scale s) (depth_trunc s)
    (convert_rgb_to_intensity s) v (color_images s) (depth_images s)
    (rgb_poses s) (prev_pose_rot s) (prev_pose_tran s)
    (tsdf_integration_data s) (integration_done s) (live_integration s)
    (record s) (paused s) (frame_count s) (processed_frame_count s)
    (reconstructed_frame_count s).

Definition set_color_images (v : list Image) (s : State) : State :=
  mkState (tsdf_volume s) (intrinsics s) (crop_box s) (crop_mesh s)
    (tracking_frame s) (relative_frame s) (translation_distance s)
    (rotational_distance s) (depth_scale s) (depth_trunc s)
    (convert_rgb_to_intensity s) (sensor_data s) v (depth_images s)
    (rgb_poses s) (prev_pose_rot s) (prev_pose_tran s)
    (tsdf_integration_data s) (integration_done s) (live_integration s)
    (record s) (paused s) (frame_count s) (processed_frame_count s)
    (reconstructed_frame_count s).

Definition set_depth_images (v : list Image) (s : State) : State :=
  mkState (tsdf_volume s) (intrinsics s) (crop_box s) (crop_mesh s)
    (tracking_frame s) (relative_frame s) (translation_distance s)
    (rotational_distance s) (depth_scale s) (depth_trunc s)
    (convert_rgb_to_intensity s) (sensor_data s) (color_images s) v
    (rgb_poses s) (prev_pose_rot s) (prev_pose_tran s)
    (tsdf_integration_data s) (integration_done s) (live_integration s)
    (record s) (paused s) (frame_count s) (processed_frame_count s)
    (reconstructed_frame_count s).

Definition set_rgb_poses (v : list Mat4) (s : State) : State :=
  mkState (tsdf_volume s) (intrinsics s) (crop_box s) (crop_mesh s)
    (tracking_frame s) (relative_frame s) (translation_distance s)
    (rotational_distance s) (depth_scale s) (depth_trunc s)
    (convert_rgb_to_intensity s) (sensor_data s) (color_images s)
    (depth_images s) v (prev_pose_rot s) (prev_pose_tran s)
    (tsdf_integration_data s) (integration_done s) (live_integration s)
    (record s) (paused s) (frame_count s) (processed_frame_count s)
    (reconstructed_frame_count s).

Definition set_prev_pose_rot (v : Vec4) (s : State) : State :=
  mkState (tsdf_volume s) (intrinsics s) (crop_box s) (crop_mesh s)
    (tracking_frame s) (relative_frame s) (translation_distance s)
    (rotational_distance s) (depth_scale s) (depth_trunc s)
    (convert_rgb_to_intensity s) (sensor_data s) (color_images s)
    (depth_images s) (rgb_poses s) v (prev_pose_tran s)
    (tsdf_integration_data s) (integration_done s) (live_integration s)
    (record s) (paused s) (frame_count s) (processed_frame_count s)
    (reconstructed_frame_count s).

Definition set_prev_pose_tran (v : Vec3) (s : State) : State :=
  mkState (tsdf_volume s) (intrinsics s) (crop_box s) (crop_mesh s)
    (tracking_frame s) (relative_frame s) (translation_distance s)
    (rotational_distance s) (depth_scale s) (depth_trunc s)
    (convert_rgb_to_intensity s) (sensor_data s) (color_images s)
    (depth_images s) (rgb_poses s) (prev_pose_rot s) v
    (tsdf_integration_data s) (integration_done s) (live_integration s)
    (record s) (paused s) (frame_count s) (processed_frame_count s)
    (reconstructed_frame_count s).

Definition set_tsdf_integration_data (v : list IntegrationDatum) (s : State) : State :=
  mkState (tsdf_volume s) (intrinsics s) (crop_box s) (crop_mesh s)
    (tracking_frame s) (relative_frame s) (translation_distance s)
    (rotational_distance s) (depth_scale s) (depth_trunc s)
    (convert_rgb_to_intensity s) (sensor_data s) (color_images s)
    (depth_images s) (rgb_poses s) (prev_pose_rot s) (prev_pose_tran s) v
    (integration_done s) (live_integration s) (record s) (paused s)
    (frame_count s) (processed_frame_count s) (reconstructed_frame_count s).

Definition set_integration_done (v : bool) (s : State) : State :=
  mkState (tsdf_volume s) (intrinsics s) (crop_box s) (crop_mesh s)
    (tracking_frame s) (relative_frame s) (translation_distance s)
    (rotational_distance s) (depth_scale s) (depth_trunc s)
    (convert_rgb_to_intensity s) (sensor_data s) (color_images s)
    (depth_images s) (rgb_poses s) (prev_pose_rot s) (prev_pose_tran s)
    (tsdf_integration_data s) v (live_integration s) (record s) (paused s)
    (frame_count s) (processed_frame_count s) (reconstructed_frame_count s).

Definition set_record (v : bool) (s : State) : State :=
  mkState (tsdf_volume s) (intrinsics s) (crop_box s) (crop_mesh s)
    (tracking_frame s) (relative_frame s) (translation_distance s)
    (rotational_distance s) (depth_scale s) (depth_trunc s)
    (convert_rgb_to_intensity s) (sensor_data s) (color_images s)
    (depth_images s) (rgb_poses s) (prev_pose_rot s) (prev_pose_tran s)
    (tsdf_integration_data s) (integration_done s) (live_integration s) v
    (paused s) (frame_count s) (processed_frame_count s)
    (reconstructed_frame_count s).

Definition set_paused (v : bool) (s : State) : State :=
  mkState (tsdf_volume s) (intrinsics s) (crop_box s) (crop_mesh s)
    (tracking_frame s) (relative_frame s) (translation_distance s)
    (rotational_distance s) (depth_scale s) (depth_trunc s)
    (convert_rgb_to_intensity s) (sensor_data s) (color_images s)
    (depth_images s) (rgb_poses s) (prev_pose_rot s) (prev_pose_tran s)
    (tsdf_integration_data s) (integration_done s) (live_integration s)
    (record s) v (frame_count s) (processed_frame_count s)
    (reconstructed_frame_count s).

Definition set_frame_count (v : Z) (s : State) : State :=
  mkState (tsdf_volume s) (intrinsics s) (crop_box s) (crop_mesh s)
    (tracking_frame s) (relative_frame s) (translation_distance s)
    (rotational_distance s) (depth_scale s) (depth_trunc s)
    (convert_rgb_to_intensity s) (sensor_data s) (color_images s)
    (depth_images s) (rgb_poses s) (prev_pose_rot s) (prev_pose_tran s)
    (tsdf_integration_data s) (integration_done s) (live_integration s)
    (record s) (paused s) v (processed_frame_count s)
    (reconstructed_frame_count s).

Definition set_processed_frame_count (v : Z) (s : State) : State :=
  mkState (tsdf_volume s) (intrinsics s) (crop_box s) (crop_mesh s)
    (tracking_frame s) (relative_frame s) (translation_distance s)
    (rotational_distance s) (depth_scale s) (depth_trunc s)
    (convert_rgb_to_intensity s) (sensor_data s) (color_images s)
    (depth_images s) (rgb_poses s) (prev_pose_rot s) (prev_pose_tran s)
    (tsdf_integration_data s) (integration_done s) (live_integration s)
    (record s) (paused s) (frame_count s) v (reconstructed_frame_count s).

(** ** Requests and responses *)

Record StartRequest : Type := mkStartRequest {
  req_tracking_frame : string;
  req_relative_frame : string;
  req_voxel_length : float;
  req_sdf_trunc : float;
  req_min_box_values : Vec3;
  req_max_box_values : Vec3;
  req_depth_scale : float;
  req_depth_trunc : float;
  req_convert_rgb_to_intensity : bool;
  req_translation_distance : float;
  req_rotational_distance : float;
  req_live : bool
}.

Record NormalFilter : Type := mkNormalFilter {
  normal_direction : Vec3;
  angle : float
}.

Record StopRequest : Type := mkStopRequest {
  mesh_filepath : string;
  normal_filters : list NormalFilter;
  min_num_faces : Z;
  archive_directory : string
}.

(** The [success] and [message] fields of a service response. *)
Record Response : Type := mkResponse {
  success : bool;
  message : string
}.

(** The response object rclpy hands to a service callback. *)
Definition fresh_response : Response := mkResponse false "".

Definition set_success (b : bool) (res : Response) : Response :=
  mkResponse b (message res).

Definition set_message (m : string) (res : Response) : Response :=
  mkResponse (success res) m.

(** What [stopReconstructionCallback] writes to disk. *)
Inductive Output : Type :=
| WriteTriangleMesh (path : string) (mesh : TriangleMesh)
| ArchiveData (dir : string) (depth color : list Image) (poses : list Mat4)
    (intr : option Intrinsics)
| WritePointCloud (path : string) (vol : Volume).

(** How a service callback ends: it returns its response, or an exception
    leaves it; either way the node's fields are as the callback left them. *)
Inductive Outcome : Type :=
| Returned (res : Response) (out : list Output) (s : State)
| Raised (e : PyExn) (s : State).

Definition state_of (o : Outcome) : State :=
  match o with
  | Returned _ _ s => s
  | Raised _ s => s
  end.

(** ** Mesh operations *)

Fixpoint remove_by_mask {A : Type} (l : list A) (mask : list bool) : list A :=
  match l, mask with
  | x :: l', b :: mask' =>
      if b then remove_by_mask l' mask' else x :: remove_by_mask l' mask'
  | _, _ => []
  end.

(** [TriangleMesh.remove_triangles_by_mask]: Open3D raises when the mask and
    the triangle array differ in length. *)
Definition remove_triangles_by_mask (mesh : TriangleMesh) (mask : list bool)
  : Result TriangleMesh :=
  if (List.length mask =? List.length (triangles mesh))%nat
  then Ok (mkMesh (vertices mesh) (remove_by_mask (triangles mesh) mask))
  else Err RuntimeError.

Definition references (i : nat) (t : nat * nat * nat) : bool :=
  let '(a, b, c) := t in ((a =? i) || (b =? i) || (c =? i))%nat.

Definition referenced (ts : list (nat * nat * nat)) (i : nat) : bool :=
  existsb (references i) ts.

(** The index vertex [i] has once the unreferenced vertices before it are
    gone. *)
Definition new_index (ts : list (nat * nat * nat)) (i : nat) : nat :=
  List.length (filter (referenced ts) (seq 0 i)).

(** [TriangleMesh.remove_unreferenced_vertices]: keeps, in order, the vertices
    some triangle refers to and renumbers the triangles. *)
Definition remove_unreferenced_vertices (mesh : TriangleMesh) : TriangleMesh :=
  let ts := triangles mesh in
  let vs := vertices mesh in
  mkMesh
    (map snd (filter (fun iv => referenced ts (fst iv))
                     (combine (seq 0 (List.length vs)) vs)))
    (map (fun t => let '(a, b, c) := t in
                   (new_index ts a, new_index ts b, new_index ts c)) ts).

(** [a[idx]] for an integer array [idx]: an index out of range is an
    [IndexError]. *)
Fixpoint take_indices (a : list Z) (idx : list nat) : Result (list Z) :=
  match idx with
  | [] => Ok []
  | i :: idx' =>
      match nth_error a i with
      | Some v => vs <- take_indices a idx' ;; Ok (v :: vs)
      | None => Err IndexError
      end
  end.

(** ** Paths *)

Local Open Scope string_scope.

Fixpoint before_last_slash (p : string) : option string :=
  match p with
  | EmptyString => None
  | String c rest =>
      match before_last_slash rest with
      | Some pre => Some (String c pre)
      | None => if Ascii.eqb c "/"%char then Some "" else None
      end
  end.

(** ["/".join(p.split("/")[:-1])]. *)
Definition parent_by_split (p : string) : string :=
  match before_last_slash p with
  | Some d => d
  | None => ""
  end.

Fixpoint ends_with_slash (p : string) : bool :=
  match p with
  | EmptyString => false
  | String c EmptyString => Ascii.eqb c "/"%char
  | String _ rest => ends_with_slash rest
  end.

(** [os.path.join(a, b)] for a relative [b]. *)
Definition join (a b : string) : string :=
  if String.eqb a "" then b
  else if ends_with_slash a then a ++ b
  else a ++ "/" ++ b.

Local Close Scope string_scope.

(** ** The node *)

(** The fields [__init__] sets. *)
Definition init_state : State :=
  mkState None None None false ""%string ""%string 0.05%float 0.01%float
    1000.0%float 3.0%float false [] [] [] []
    (1.0, 0.0, 0.0, 0.0)%float (0.0, 0.0, 0.0)%float [] true false
    false false 0 0 0.

(** Python's [>] between a deque and an int: neither operand implements the
    comparison, so it raises [TypeError]. *)
Definition deque_gt_int (d : list SensorDatum) (n : Z) : Result bool :=
  Err TypeError.

Section Node.

Context {C : Collaborators}.

(** [tsdf_volume.integrate(rgbd, intrinsics, extrinsic)]. *)
Definition integrate (vol : Volume) (rgbd : RGBDImage)
    (intr : option Intrinsics) (extrinsic : Mat4) : Result Volume :=
  let call := mkIntegrateCall rgbd intr extrinsic in
  match integrate_raises vol call with
  | Some e => Err e
  | None =>
      Ok (ScalableTSDFVolume (voxel_length vol) (sdf_trunc vol)
            (integrated vol ++ [call]))
  end.

(** The two statements both integration sites share: build the RGBD image
    from the colour and depth images, then integrate it with the inverse of
    the pose. *)
Definition integrate_frame (s : State) (vol : Volume)
    (depth_img rgb_img : Image) (rgb_pose : Mat4) : Result Volume :=
  let rgbd :=
    create_from_color_and_depth rgb_img depth_img (depth_scale s)
      (depth_trunc s) false in
  extrinsic <- linalg_inv rgb_pose ;;
  integrate vol rgbd (intrinsics s) extrinsic.

Definition startReconstructionCallback (req : StartRequest) (res : Response)
    (s : State) : Outcome :=
  let no_box :=
    let '(min_x, min_y, min_z) := req_min_box_values req in
    let '(max_x, max_y, max_z) := req_max_box_values req in
    ((min_x =? max_x) && (min_y =? max_y) && (min_z =? max_z))%float in
  let s' :=
    mkState
      (Some (ScalableTSDFVolume (req_voxel_length req) (req_sdf_trunc req) []))
      (intrinsics s)
      (if no_box then crop_box s
       else Some (mkCropBox (req_min_box_values req) (req_max_box_values req)))
      (negb no_box)
      (req_tracking_frame req) (req_relative_frame req)
      (req_translation_distance req) (req_rotational_distance req)
      (req_depth_scale req) (req_depth_trunc req)
      (req_convert_rgb_to_intensity req)
      [] [] [] []
      (1.0, 0.0, 0.0, 0.0)%float (0.0, 0.0, 0.0)%float
      [] (integration_done s) (req_live req) true false 0 0 0 in
  Returned (set_success true res) [] s'.

Definition pauseReconstructionCallback (res : Response) (s : State)
  : Outcome :=
  if negb (record s) then
    let res := set_message
      "Cannot pause reconstruction that was never started. Doing nothing"
      res in
    let res := set_success false res in
    Returned res [] s
  else
    let s := set_paused true s in
    let res := set_message "Pausing Reconstruction. " res in
    match deque_gt_int (sensor_data s) 0 with
    | Err e => Raised e s
    | Ok _ => Raised TypeError s  (* [len] of a bool *)
    end.

Definition resumeReconstructionCallback (res : Response) (s : State)
  : Outcome :=
  if negb (paused s) then
    let res := set_message
      "Cannot resume reconstruction that was not initially paused. Doing nothing"
      res in
    let res := set_success false res in
    Returned res [] s
  else
    let s := set_paused false s in
    let res := set_success true res in
    let res := set_message "Resuming reconstruction" res in
    Returned res [] s.

Definition cameraCallback (depth_image_msg rgb_image_msg : ImageMsg)
    (s : State) : State :=
  if paused s || negb (record s) then s
  else
    match imgmsg_to_cv2 depth_image_msg "16UC1" with
    | None => s
    | Some cv2_depth_img =>
        match imgmsg_to_cv2 rgb_image_msg (encoding rgb_image_msg) with
        | None => s
        | Some cv2_rgb_img =>
            let cv2_rgb_img :=
              if (shape_len cv2_rgb_img =? 2)%nat && is_uint8 cv2_rgb_img
              then cvtColor_GRAY2RGB cv2_rgb_img
              else cv2_rgb_img in
            match lookup_transform (relative_frame s) (tracking_frame s)
                    (stamp rgb_image_msg) with
            | None => s
            | Some gm_tf_stamped =>
                let s := set_sensor_data
                  (sensor_data s ++
                   [(cv2_depth_img, cv2_rgb_img, gm_tf_stamped)]) s in
                set_frame_count (frame_count s + 1) s
            end
        end
    end.

Definition reconstructCallback (s : State) : State :=
  if (frame_count s <=? 30) || (List.length (sensor_data s) =? 0)%nat then s
  else
    match sensor_data s with
    | [] => s
    | (depth_img, rgb_img, gm_tf_stamped) :: rest =>
        let s := set_sensor_data rest s in
        let '(rgb_t, rgb_r) := transformStampedToVectors gm_tf_stamped in
        let tran_dist := linalg_norm (vsub rgb_t (prev_pose_tran s)) in
        let rot_dist := absolute_distance (prev_pose_rot s) rgb_r in
        if geb tran_dist (translation_distance s)
           || geb rot_dist (rotational_distance s)
        then
          let s := set_prev_pose_tran rgb_t s in
          let s := set_prev_pose_rot rgb_r s in
          let rgb_pose := set_translation (transformation_matrix rgb_r) rgb_t in
          let s := set_depth_images (depth_images s ++ [depth_img]) s in
          let s := set_color_images (color_images s ++ [rgb_img]) s in
          let s := set_rgb_poses (rgb_poses s ++ [rgb_pose]) s in
          match live_integration s, tsdf_volume s with
          | true, Some vol =>
              let s := set_integration_done false s in
              match integrate_frame s vol depth_img rgb_img rgb_pose with
              | Ok vol' =>
                  let s := set_tsdf_volume (Some vol') s in
                  let s := set_integration_done true s in
                  set_processed_frame_count (processed_frame_count s + 1) s
              | Err _ => set_integration_done true s
              end
          | _, _ =>
              let s := set_tsdf_integration_data
                (tsdf_integration_data s ++ [(depth_img, rgb_img, rgb_pose)])
                s in
              set_processed_frame_count (processed_frame_count s + 1) s
          end
        else s
    end.

Definition cameraInfoCallback (camera_info : CameraInfo) (s : State)
  : State :=
  set_intrinsics (Some (getIntrinsicsFromMsg camera_info)) s.

(** [filterNormals(mesh, direction, angle)]: the mask marks the triangles
    whose normal's product with [direction] is below [cos(angle)]. *)
Definition filterNormals (mesh : TriangleMesh) (direction : Vec3)
    (angle : float) : Result TriangleMesh :=
  let tri_normals := map (triangle_normal (vertices mesh)) (triangles mesh) in
  let dot_prods := map (fun n => matmul_row n direction) tri_normals in
  remove_triangles_by_mask mesh
    (map (fun d => (d <? np_cos angle)%float) dot_prods).

(** The loop over [req.normal_filters]. *)
Fixpoint apply_normal_filters (filters : list NormalFilter)
    (cropped_mesh : TriangleMesh) : Result TriangleMesh :=
  match filters with
  | [] => Ok cropped_mesh
  | norm_filt :: filters' =>
      cropped_mesh <- filterNormals cropped_mesh (normal_direction norm_filt)
                        (np_radians (angle norm_filt)) ;;
      apply_normal_filters filters' cropped_mesh
  end.

(** The connected-component step: cluster, mask the triangles of clusters
    with fewer than [min_num_faces] triangles, remove them, then remove the
    unreferenced vertices. *)
Definition remove_small_clusters (cropped_mesh : TriangleMesh)
    (min_num_faces : Z) : Result TriangleMesh :=
  let '(triangle_clusters, cluster_n_triangles, cluster_area) :=
    cluster_connected_triangles cropped_mesh in
  counts <- take_indices cluster_n_triangles triangle_clusters ;;
  let triangles_to_remove := map (fun n => n <? min_num_faces) counts in
  cropped_mesh <- remove_triangles_by_mask cropped_mesh triangles_to_remove ;;
  Ok (remove_unreferenced_vertices cropped_mesh).

(** The loop [while len(self.tsdf_integration_data) > 0]: pop the oldest
    entry, integrate it; an exception leaves the loop with that entry already
    popped. *)
Fixpoint drain_integration_data (pending : list IntegrationDatum)
    (vol : Volume) (s : State) : Outcome + State :=
  match pending with
  | [] => inr s
  | data :: rest =>
      let s := set_tsdf_integration_data rest s in
      let '(depth_img, rgb_img, rgb_pose) := data in
      match integrate_frame s vol depth_img rgb_img rgb_pose with
      | Ok vol' =>
          drain_integration_data rest vol' (set_tsdf_volume (Some vol') s)
      | Err e => inl (Raised e s)
      end
  end.

(** The drain barrier [integration_done and len(sensor_data) == 0]. *)
Definition drain_barrier (s : State) : bool :=
  integration_done s && (List.length (sensor_data s) =? 0)%nat.

(** The mesh filtering of [stopReconstructionCallback]: crop, the normal
    filters in request order, the connected-component step. *)
Definition post_process (req : StopRequest) (s : State) (mesh : TriangleMesh)
  : Result TriangleMesh :=
  cropped_mesh <-
    (if crop_mesh s then
       match crop_box s with
       | Some box => Ok (crop mesh box)
       | None => Err TypeError
       end
     else Ok mesh) ;;
  cropped_mesh <- apply_normal_filters (normal_filters req) cropped_mesh ;;
  remove_small_clusters cropped_mesh (min_num_faces req).

(** [stopReconstructionCallback] from ["Generating mesh"] on. *)
Definition stop_export (req : StopRequest) (res : Response) (s : State)
  : Outcome :=
  match tsdf_volume s with
  | None =>
      let res := set_success false res in
      let res := set_message "Start reconstruction hasn't been called yet"
                   res in
      Returned res [] s
  | Some vol =>
      let drained :=
        if negb (live_integration s)
        then drain_integration_data (tsdf_integration_data s) vol s
        else inr s in
      match drained with
      | inl raised => raised
      | inr s =>
          match tsdf_volume s with
          | None => Raised AttributeError s
          | Some vol =>
              let mesh := extract_triangle_mesh vol in
              match post_process req s mesh with
              | Err e => Raised e s
              | Ok cropped_mesh =>
                  (* without a crop, [mesh] and [cropped_mesh] are one
                     object, which the filters changed in place *)
                  let mesh := if crop_mesh s then mesh else cropped_mesh in
                  let archive :=
                    if negb (String.eqb (archive_directory req) "") then
                      [ArchiveData (archive_directory req) (depth_images s)
                         (color_images s) (rgb_poses s) (intrinsics s);
                       WriteTriangleMesh
                         (join (archive_directory req) "integrated.ply") mesh]
                    else [] in
                  let point_cloud_filepath :=
                    join (parent_by_split (mesh_filepath req))
                      "integrated_point_cloud.ply" in
                  let res := set_success true res in
                  let res := set_message
                    ("Mesh Saved to " ++ mesh_filepath req ++
                     " and point cloud saved to " ++ point_cloud_filepath)%string
                    res in
                  Returned res
                    (WriteTriangleMesh (mesh_filepath req) cropped_mesh
                       :: archive ++ [WritePointCloud point_cloud_filepath vol])
                    s
              end
          end
      end
  end.

(** ** Interleaving *)

(** The callbacks of the other threads, each run whole between two service
    calls. *)
Inductive Background : Type :=
| BgCamera (depth_image_msg rgb_image_msg : ImageMsg)
| BgTick
| BgCameraInfo (camera_info : CameraInfo).

Definition background (b : Background) (s : State) : State :=
  match b with
  | BgCamera depth_image_msg rgb_image_msg =>
      cameraCallback depth_image_msg rgb_image_msg s
  | BgTick => reconstructCallback s
  | BgCameraInfo camera_info => cameraInfoCallback camera_info s
  end.

Definition run_background (bs : list Background) (s : State) : State :=
  fold_left (fun s b => background b s) bs s.

(** *** The other threads while Stop runs

    [main] spins the node in a [MultiThreadedExecutor] of three threads, and
    the node takes no lock.  The four services share one mutually exclusive
    callback group, the timer has a group of its own, and the image and
    camera-info subscriptions share the node's default group, which is
    mutually exclusive as well.  So beside Stop at most one camera or
    camera-info callback and at most one tick are running, and Stop's
    statements fall anywhere between theirs: a [cameraCallback] that has
    passed its guard (line 391) still waits in [lookup_transform] (line 407)
    and appends later (line 415), and a tick that has taken a frame off the
    queue (line 421) appends it to the lists and the buffer later (lines
    437-466).  [integration_done] is [False] only from line 442 to line 449,
    so the barrier cannot tell a tick that is between its [popleft] and
    there. *)

(** [cameraCallback] past its guard: lines 393 to 416. *)
Definition cameraCallback_after_guard (depth_image_msg rgb_image_msg : ImageMsg)
    (s : State) : State :=
  match imgmsg_to_cv2 depth_image_msg "16UC1" with
  | None => s
  | Some cv2_depth_img =>
      match imgmsg_to_cv2 rgb_image_msg (encoding rgb_image_msg) with
      | None => s
      | Some cv2_rgb_img =>
          let cv2_rgb_img :=
            if (shape_len cv2_rgb_img =? 2)%nat && is_uint8 cv2_rgb_img
            then cvtColor_GRAY2RGB cv2_rgb_img
            else cv2_rgb_img in
          match lookup_transform (relative_frame s) (tracking_frame s)
                  (stamp rgb_image_msg) with
          | None => s
          | Some gm_tf_stamped =>
              let s := set_sensor_data
                (sensor_data s ++
                 [(cv2_depth_img, cv2_rgb_img, gm_tf_stamped)]) s in
              set_frame_count (frame_count s + 1) s
          end
      end
  end.

(** [reconstructCallback] past its [popleft]: lines 422 to 466, for the frame
    the tick holds. *)
Definition reconstructCallback_after_popleft (popped : SensorDatum)
    (s : State) : State :=
  let '(depth_img, rgb_img, gm_tf_stamped) := popped in
  let '(rgb_t, rgb_r) := transformStampedToVectors gm_tf_stamped in
  let tran_dist := linalg_norm (vsub rgb_t (prev_pose_tran s)) in
  let rot_dist := absolute_distance (prev_pose_rot s) rgb_r in
  if geb tran_dist (translation_distance s)
     || geb rot_dist (rotational_distance s)
  then
    let s := set_prev_pose_tran rgb_t s in
    let s := set_prev_pose_rot rgb_r s in
    let rgb_pose := set_translation (transformation_matrix rgb_r) rgb_t in
    let s := set_depth_images (depth_images s ++ [depth_img]) s in
    let s := set_color_images (color_images s ++ [rgb_img]) s in
    let s := set_rgb_poses (rgb_poses s ++ [rgb_pose]) s in
    match live_integration s, tsdf_volume s with
    | true, Some vol =>
        let s := set_integration_done false s in
        match integrate_frame s vol depth_img rgb_img rgb_pose with
        | Ok vol' =>
            let s := set_tsdf_volume (Some vol') s in
            let s := set_integration_done true s in
            set_processed_frame_count (processed_frame_count s + 1) s
        | Err _ => set_integration_done true s
        end
    | _, _ =>
        let s := set_tsdf_integration_data
          (tsdf_integration_data s ++ [(depth_img, rgb_img, rgb_pose)])
          s in
        set_processed_frame_count (processed_frame_count s + 1) s
    end
  else s.

(** The node's fields together with what the two other threads hold in
    their local variables: the image pair of a [cameraCallback] that is past
    its guard, and the frame of a tick that is past its [popleft]. *)
Record Threads : Type := mkThreads {
  fields : State;
  camera_thread : option (ImageMsg * ImageMsg);
  timer_thread : option SensorDatum
}.

Definition idle (s : State) : Threads := mkThreads s None None.

Definition with_fields (s : State) (t : Threads) : Threads :=
  mkThreads s (camera_thread t) (timer_thread t).

(** What another thread does between two statements of Stop. *)
Inductive Overlap : Type :=
| CameraBegins (depth_image_msg rgb_image_msg : ImageMsg)
| CameraEnds
| TickBegins
| TickEnds
| CameraInfoArrives (camera_info : CameraInfo).

(** A callback begins only when its callback group is free.  [CameraBegins]
    is line 391, [CameraEnds] lines 393-416, [TickBegins] lines 419-421,
    [TickEnds] lines 422-466, [CameraInfoArrives] line 469. *)
Definition overlap (o : Overlap) (t : Threads) : Threads :=
  let s := fields t in
  match o with
  | CameraBegins depth_image_msg rgb_image_msg =>
      match camera_thread t with
      | Some _ => t
      | None =>
          if paused s || negb (record s) then t
          else mkThreads s (Some (depth_image_msg, rgb_image_msg))
                 (timer_thread t)
      end
  | CameraEnds =>
      match camera_thread t with
      | Some (depth_image_msg, rgb_image_msg) =>
          mkThreads
            (cameraCallback_after_guard depth_image_msg rgb_image_msg s)
            None (timer_thread t)
      | None => t
      end
  | TickBegins =>
      match timer_thread t with
      | Some _ => t
      | None =>
          if (frame_count s <=? 30) || (List.length (sensor_data s) =? 0)%nat
          then t
          else
            match sensor_data s with
            | [] => t
            | popped :: rest =>
                mkThreads (set_sensor_data rest s) (camera_thread t)
                  (Some popped)
            end
      end
  | TickEnds =>
      match timer_thread t with
      | Some popped =>
          mkThreads (reconstructCallback_after_popleft popped s)
            (camera_thread t) None
      | None => t
      end
  | CameraInfoArrives camera_info =>
      match camera_thread t with
      | Some _ => t
      | None => with_fields (cameraInfoCallback camera_info s) t
      end
  end.

Definition run_overlaps (os : list Overlap) (t : Threads) : Threads :=
  fold_left (fun t o => overlap o t) os t.

(** A callback that begins and ends between two statements of Stop. *)
Definition whole (b : Background) : list Overlap :=
  match b with
  | BgCamera depth_image_msg rgb_image_msg =>
      [CameraBegins depth_image_msg rgb_image_msg; CameraEnds]
  | BgTick => [TickBegins; TickEnds]
  | BgCameraInfo camera_info => [CameraInfoArrives camera_info]
  end.

(** How the other threads run beside one call of Stop: the camera callback
    and the tick that are already running when Stop is called (their guards
    read the fields Stop finds), what happens during each sleep of the wait
    loop, and whether a callback that is still running when the loop ends
    finishes before Stop extracts the mesh or only after Stop has
    returned. *)
Record Schedule : Type := mkSchedule {
  camera_running : option (ImageMsg * ImageMsg);
  tick_running : bool;
  during_sleeps : list (list Overlap);
  camera_ends_before_export : bool;
  tick_ends_before_export : bool
}.

(** Stop's first statement, [self.record = False], with the callbacks that
    run beside it. *)
Definition stop_begins (sched : Schedule) (s : State) : Threads :=
  let t := idle s in
  let t :=
    match camera_running sched with
    | Some (depth_image_msg, rgb_image_msg) =>
        overlap (CameraBegins depth_image_msg rgb_image_msg) t
    | None => t
    end in
  let t := if tick_running sched then overlap TickBegins t else t in
  with_fields (set_record false (fields t)) t.

(** The loop [while not (integration_done and len(sensor_data) == 0): sleep].
    [None]: the loop is still waiting when the schedule ends. *)
Fixpoint stop_wait (sleeps : list (list Overlap)) (t : Threads)
  : option Threads :=
  if drain_barrier (fields t) then Some t
  else
    match sleeps with
    | [] => None
    | during_sleep :: sleeps' =>
        stop_wait sleeps' (run_overlaps during_sleep t)
    end.

(** The node and the other threads at the moment the wait loop ends. *)
Definition stop_barrier (sched : Schedule) (s : State) : option Threads :=
  stop_wait (during_sleeps sched) (stop_begins sched s).

(** The callbacks still running after the barrier that end before the
    export. *)
Definition before_export (sched : Schedule) (t : Threads) : Threads :=
  let t := if camera_ends_before_export sched then overlap CameraEnds t
           else t in
  if tick_ends_before_export sched then overlap TickEnds t else t.

(** Stop from its call to its return: the outcome, and the other threads as
    they are when Stop returns or raises. *)
Definition stop_run (req : StopRequest) (res : Response) (sched : Schedule)
    (s : State) : option (Outcome * Threads) :=
  match stop_barrier sched s with
  | None => None
  | Some t =>
      let t := before_export sched t in
      let o := stop_export req res (fields t) in
      Some (o, with_fields (state_of o) t)
  end.

Definition stopReconstructionCallback (req : StopRequest) (res : Response)
    (sched : Schedule) (s : State) : option Outcome :=
  match stop_run req res sched s with
  | None => None
  | Some (o, _) => Some o
  end.

(** The node's fields once the callbacks that were still running when Stop
    returned have ended. *)
Definition settle (t : Threads) : State :=
  fields (overlap TickEnds (overlap CameraEnds t)).

(** What the executor runs: the four services, which exclude one another, and
    the callbacks of the other threads.  A callback that overlaps Stop has
    ended when the next call begins. *)
Inductive Call : Type :=
| Start (req : StartRequest)
| Pause
| Resume
| Stop (req : StopRequest) (sched : Schedule)
| Bg (b : Background).

Definition serve (c : Call) (s : State) : option Outcome :=
  match c with
  | Start req => Some (startReconstructionCallback req fresh_response s)
  | Pause => Some (pauseReconstructionCallback fresh_response s)
  | Resume => Some (resumeReconstructionCallback fresh_response s)
  | Stop req sched => stopReconstructionCallback req fresh_response sched s
  | Bg b => Some (Returned fresh_response [] (background b s))
  end.

(** The node's fields after a call that returned; [None] when the call
    raised or never returned. *)
Definition step (c : Call) (s : State) : option State :=
  match c with
  | Stop req sched =>
      match stop_run req fresh_response sched s with
      | Some (Returned _ _ _, t) => Some (settle t)
      | _ => None
      end
  | _ =>
      match serve c s with
      | Some (Returned _ _ s') => Some s'
      | _ => None
      end
  end.

Fixpoint run (calls : list Call) (s : State) : option State :=
  match calls with
  | [] => Some s
  | c :: calls' =>
      match step c s with
      | Some s' => run calls' s'
      | None => None
      end
  end.

End Node.

(** ** Quantities the statements name *)

Section Gate.

Context {C : Collaborators}.

(** The translation and rotation [reconstructCallback] reads off a queued
    frame. *)
Definition frame_pose (f : SensorDatum) : Vec3 * Vec4 :=
  let '(_, _, gm_tf_stamped) := f in transformStampedToVectors gm_tf_stamped.

(** The pose matrix an admitted frame is stored with. *)
Definition frame_matrix (f : SensorDatum) : Mat4 :=
  set_translation (transformation_matrix (snd (frame_pose f)))
                  (fst (frame_pose f)).

Definition tran_dist (s : State) (f : SensorDatum) : float :=
  linalg_norm (vsub (fst (frame_pose f)) (prev_pose_tran s)).

Definition rot_dist (s : State) (f : SensorDatum) : float :=
  absolute_distance (prev_pose_rot s) (snd (frame_pose f)).

(** The frame was appended to the three lists of accepted keyframes. *)
Definition admitted (s s' : State) (f : SensorDatum) : Prop :=
  let '(depth_img, rgb_img, _) := f in
  depth_images s' = depth_images s ++ [depth_img] /\
  color_images s' = color_images s ++ [rgb_img] /\
  rgb_poses s' = rgb_poses s ++ [frame_matrix f].

(** The integrate call Stop makes for one entry of the deferred buffer. *)
Definition deferred_call (s : State) (d : IntegrationDatum)
  : Result IntegrateCall :=
  let '(depth_img, rgb_img, rgb_pose) := d in
  extrinsic <- linalg_inv rgb_pose ;;
  Ok (mkIntegrateCall
        (create_from_color_and_depth rgb_img depth_img (depth_scale s)
           (depth_trunc s) false)
        (intrinsics s) extrinsic).

(** The integrate calls Stop makes for a deferred buffer, oldest entry first;
    an [Err] when a pose has no inverse. *)
Fixpoint deferred_calls (s : State) (pending : list IntegrationDatum)
  : Result (list IntegrateCall) :=
  match pending with
  | [] => Ok []
  | d :: rest =>
      call <- deferred_call s d ;;
      calls <- deferred_calls s rest ;;
      Ok (call :: calls)
  end.

(** Whether a normal filter's mask leaves triangle [t] of [mesh] in place. *)
Definition filter_keeps (mesh : TriangleMesh) (direction : Vec3)
    (angle : float) (t : nat * nat * nat) : bool :=
  negb (matmul_row (triangle_normal (vertices mesh) t) direction
          <? np_cos angle)%float.

End Gate.

Definition add_calls (vol : Volume) (calls : list IntegrateCall) : Volume :=
  ScalableTSDFVolume (voxel_length vol) (sdf_trunc vol)
    (integrated vol ++ calls).

Definition started (calls : list Call) : Prop :=
  exists req, In (Start req) calls.

(** Between callbacks no integration is in flight, nothing has ever counted
    a reconstructed frame, and once a volume exists every admitted frame is
    either in the volume or in the deferred buffer, which a live session
    keeps empty. *)
Definition accounted (s : State) : Prop :=
  integration_done s = true /\
  reconstructed_frame_count s = 0 /\
  forall vol, tsdf_volume s = Some vol ->
    Z.of_nat (List.length (integrated vol))
    + Z.of_nat (List.length (tsdf_integration_data s))
    = processed_frame_count s /\
    (live_integration s = true -> tsdf_integration_data s = []).

(** The frames that can still join the queue beside a Stop: the one of a
    camera callback that is already running when Stop is called. *)
Definition frames_in_flight (sched : Schedule) : Z :=
  match camera_running sched with
  | Some _ => 1
  | None => 0
  end.

(** Beside a Stop that found a non-empty queue and, counting the frame of a
    camera callback still running, at most 30 frames seen: the queue stays
    non-empty and the counter stays at 30 or below. *)
Definition stuck (t : Threads) : Prop :=
  record (fields t) = false /\ sensor_data (fields t) <> [] /\
  timer_thread t = None /\
  frame_count (fields t)
  + (match camera_thread t with Some _ => 1 | None => 0 end) <= 30.




(** ** A reference instance of the libraries

    Plain implementations of the library calls, used to run the node on
    concrete inputs. *)

Definition float_of_nat (n : nat) : float :=
  PrimFloat.of_uint63 (Uint63.of_Z (Z.of_nat n)).

Definition ref_dot3 (n d : Vec3) : float :=
  let '(n0, n1, n2) := n in
  let '(d0, d1, d2) := d in
  (n0 * d0 + n1 * d1 + n2 * d2)%float.

Definition ref_norm3 (v : Vec3) : float :=
  let '(x, y, z) := v in PrimFloat.sqrt (x * x + y * y + z * z)%float.

Definition ref_norm4 (q : Vec4) : float :=
  let '(w, x, y, z) := q in
  PrimFloat.sqrt (w * w + x * x + y * y + z * z)%float.

Definition ref_absolute_distance (q0 q1 : Vec4) : float :=
  let '(w0, x0, y0, z0) := q0 in
  let '(w1, x1, y1, z1) := q1 in
  let d_minus := ref_norm4 (w0 - w1, x0 - x1, y0 - y1, z0 - z1)%float in
  let d_plus := ref_norm4 (w0 + w1, x0 + x1, y0 + y1, z0 + z1)%float in
  if (d_minus <? d_plus)%float then d_minus else d_plus.

Definition ref_transformation_matrix (q : Vec4) : Mat4 :=
  let '(w, x, y, z) := q in
  ((1 - 2 * (y * y + z * z), 2 * (x * y - z * w), 2 * (x * z + y * w), 0),
   (2 * (x * y + z * w), 1 - 2 * (x * x + z * z), 2 * (y * z - x * w), 0),
   (2 * (x * z - y * w), 2 * (y * z + x * w), 1 - 2 * (x * x + y * y), 0),
   (0, 0, 0, 1))%float.

(** The inverse of a rigid transform: the transposed rotation and the
    translation it carries back. *)
Definition ref_inv (m : Mat4) : Result Mat4 :=
  let '((a, b, c, t0), (d, e, f, t1), (g, h, i, t2), _) := m in
  Ok ((a, d, g, - (a * t0 + d * t1 + g * t2)),
      (b, e, h, - (b * t0 + e * t1 + h * t2)),
      (c, f, i, - (c * t0 + f * t1 + i * t2)),
      (0, 0, 0, 1))%float.

Definition ref_imgmsg_to_cv2 (msg : ImageMsg) (desired : string)
  : option Image :=
  if String.eqb desired "16UC1"
  then Some (mkImage 2 false (msg_data msg))
  else Some (mkImage 3 true (msg_data msg)).

(** The camera moves one unit along x per time step and does not turn. *)
Definition ref_lookup_transform (target source : string) (time : Z)
  : option TransformStamped :=
  Some (mkTransformStamped
          (float_of_nat (Z.to_nat time), 0, 0)%float (0, 0, 0, 1)%float).

Definition ref_transformStampedToVectors (tf : TransformStamped)
  : Vec3 * Vec4 :=
  let '(x, y, z, w) := tf_rotation tf in (tf_translation tf, (w, x, y, z)).

Definition ref_getIntrinsicsFromMsg (ci : CameraInfo) : Intrinsics :=
  mkIntrinsics (ci_width ci) (ci_height ci)
    (nth 0 (ci_k ci) 0%float) (nth 4 (ci_k ci) 0%float)
    (nth 2 (ci_k ci) 0%float) (nth 5 (ci_k ci) 0%float).

Definition ref_radians (x : float) : float :=
  (x * 0.017453292519943295)%float.

(** The cosine's series up to the eighth power. *)
Definition ref_cos (x : float) : float :=
  let x2 := (x * x)%float in
  (1 - x2 / 2 + x2 * x2 / 24 - x2 * x2 * x2 / 720
   + x2 * x2 * x2 * x2 / 40320)%float.

Definition ref_triangle_normal (vs : list Vec3) (t : nat * nat * nat)
  : Vec3 :=
  let '(a, b, c) := t in
  let o := (0, 0, 0)%float in
  let '(ux, uy, uz) := vsub (nth b vs o) (nth a vs o) in
  let '(vx, vy, vz) := vsub (nth c vs o) (nth a vs o) in
  let n := (uy * vz - uz * vy, uz * vx - ux * vz, ux * vy - uy * vx)%float in
  let len := ref_norm3 n in
  let '(nx, ny, nz) := n in
  if (0 <? len)%float then (nx / len, ny / len, nz / len)%float
  else (0, 0, 1)%float.

Definition inside (box : CropBox) (v : Vec3) : bool :=
  let '(x, y, z) := v in
  let '(x0, y0, z0) := min_bound box in
  let '(x1, y1, z1) := max_bound box in
  ((x0 <=? x) && (x <=? x1) && (y0 <=? y) && (y <=? y1)
   && (z0 <=? z) && (z <=? z1))%float.

Definition ref_crop (mesh : TriangleMesh) (box : CropBox) : TriangleMesh :=
  let o := (0, 0, 0)%float in
  let vs := vertices mesh in
  remove_unreferenced_vertices
    (mkMesh vs
       (filter (fun t => let '(a, b, c) := t in
                         inside box (nth a vs o) && inside box (nth b vs o)
                         && inside box (nth c vs o))
               (triangles mesh))).

(** A strip of [n] triangles over the vertices [base .. base + n + 1]. *)
Definition strip (base n : nat) : list (nat * nat * nat) :=
  map (fun i => (base + i, base + i + 1, base + i + 2)%nat) (seq 0 n).

Definition strip_vertices (n : nat) : list Vec3 :=
  map (fun i => (float_of_nat i, float_of_nat (i mod 2), 0%float)) (seq 0 n).

(** One triangle of the strip per integrated frame. *)
Definition ref_extract_triangle_mesh (vol : Volume) : TriangleMesh :=
  let n := List.length (integrated vol) in
  mkMesh (strip_vertices (n + 2)) (strip 0 n).

Definition shares_edge (t u : nat * nat * nat) : bool :=
  let '(a, b, c) := t in
  (2 <=? (if references a u then 1 else 0) + (if references b u then 1 else 0)
         + (if references c u then 1 else 0))%nat.

(** One round of label propagation: each triangle takes the least label among
    the triangles it shares an edge with. *)
Definition relax (ts : list (nat * nat * nat)) (labels : list nat)
  : list nat :=
  map (fun tl =>
         fold_left Nat.min
           (map snd (filter (fun ul => shares_edge (fst tl) (fst ul))
                            (combine ts labels)))
           (snd tl))
      (combine ts labels).

Fixpoint first_seen (seen : list nat) (l : list nat) : list nat :=
  match l with
  | [] => rev seen
  | x :: l' =>
      if existsb (Nat.eqb x) seen then first_seen seen l'
      else first_seen (x :: seen) l'
  end.

Fixpoint position (x : nat) (l : list nat) : nat :=
  match l with
  | [] => 0
  | y :: l' => if (x =? y)%nat then 0 else S (position x l')
  end.

(** Connected components by edge adjacency, numbered in order of their first
    triangle. *)
Definition ref_cluster_connected_triangles (mesh : TriangleMesh)
  : list nat * list Z * list float :=
  let ts := triangles mesh in
  let n := List.length ts in
  let lowest := fold_left (fun ls _ => relax ts ls) (seq 0 n) (seq 0 n) in
  let ids := first_seen [] lowest in
  (map (fun l => position l ids) lowest,
   map (fun c => Z.of_nat (count_occ Nat.eq_dec lowest c)) ids,
   map (fun _ => 0%float) ids).

#[export] Instance reference : Collaborators := {
  imgmsg_to_cv2 := ref_imgmsg_to_cv2;
  cvtColor_GRAY2RGB := fun img => mkImage 3 true (pixels img);
  lookup_transform := ref_lookup_transform;
  transformStampedToVectors := ref_transformStampedToVectors;
  getIntrinsicsFromMsg := ref_getIntrinsicsFromMsg;
  linalg_norm := ref_norm3;
  absolute_distance := ref_absolute_distance;
  transformation_matrix := ref_transformation_matrix;
  linalg_inv := ref_inv;
  integrate_raises := fun _ _ => None;
  matmul_row := ref_dot3;
  np_radians := ref_radians;
  np_cos := ref_cos;
  extract_triangle_mesh := ref_extract_triangle_mesh;
  crop := ref_crop;
  triangle_normal := ref_triangle_normal;
  cluster_connected_triangles := ref_cluster_connected_triangles
}.

(** ** Concrete sessions on the reference instance *)

Definition start_request (live : bool) : StartRequest :=
  mkStartRequest "camera" "world" 0.01%float 0.04%float
    (0, 0, 0)%float (0, 0, 0)%float 1000.0%float 3.0%float false
    0.05%float 0.01%float live.

Definition stop_request : StopRequest :=
  mkStopRequest "/tmp/scan/mesh.ply" [] 0 "".

(** The synchronized image pair stamped [t]. *)
Definition frame_at (t : nat) : Background :=
  BgCamera (mkImageMsg "16UC1" (Z.of_nat t) [Z.of_nat t])
           (mkImageMsg "rgb8" (Z.of_nat t) [Z.of_nat t]).

(** The frames stamped [1 .. n], in order. *)
Definition frames (n : nat) : list Call :=
  map (fun t => Bg (frame_at t)) (seq 1 n).

(** Stop called while no other callback is running, then [n] sleeps of the
    wait loop with one whole timer tick during each. *)
Definition ticking (n : nat) : Schedule :=
  mkSchedule None false (repeat (whole BgTick) n) false false.

(** The node's fields after [calls] from a fresh node ([init_state] when a
    call did not return). *)
Definition state_after (calls : list Call) : State :=
  match run calls init_state with
  | Some s => s
  | None => init_state
  end.

(** A deferred session with 30 frames seen, and one with 31. *)
Definition cold_state : State :=
  state_after (Start (start_request false) :: frames 30).

Definition warm_state : State :=
  state_after (Start (start_request false) :: frames 31).

(** The oldest queued frame and the rest of the queue. *)
Definition oldest (s : State) : SensorDatum :=
  hd (mkImage 0 false [], mkImage 0 false [],
      mkTransformStamped (0, 0, 0)%float (0, 0, 0, 1)%float)
     (sensor_data s).

Definition queued_behind (s : State) : list SensorDatum :=
  tl (sensor_data s).

Definition response_of (o : Outcome) : Response :=
  match o with
  | Returned res _ _ => res
  | Raised _ _ => fresh_response
  end.

Definition outputs_of (o : Outcome) : list Output :=
  match o with
  | Returned _ out _ => out
  | Raised _ _ => []
  end.

(** Stop on the 31-frame deferred session, the timer ticking 31 times while
    Stop waits. *)
Definition stop_outcome : Outcome :=
  match stopReconstructionCallback stop_request fresh_response (ticking 31)
          warm_state with
  | Some o => o
  | None => Raised RuntimeError init_state
  end.

(** The same session when Stop's wait loop ends: the 31 frames have moved
    from the queue to the deferred buffer. *)
Definition buffered_state : State :=
  run_background (repeat BgTick 31) (set_record false warm_state).

(** *** Sessions with a calibrated camera *)

(** The camera-info message of a camera whose images are one pixel wide and
    one pixel high, as the frames above are. *)
Definition camera_info : CameraInfo :=
  mkCameraInfo 1 1 [1; 0; 0; 0; 1; 0; 0; 0; 1]%float.

(** Camera info, Start, then the frames stamped [1 .. n]. *)
Definition calibrated (live : bool) (n : nat) : list Call :=
  Bg (BgCameraInfo camera_info) :: Start (start_request live) :: frames n.

Definition calibrated_cold_state : State :=
  state_after (calibrated false 30).

Definition calibrated_warm_state : State :=
  state_after (calibrated false 31).

(** Stop on the calibrated 31-frame deferred session, the timer ticking once
    in each of 31 sleeps and no other callback running beside Stop: the
    threads when the wait loop ends, and the outcome. *)
Definition calibrated_barrier : Threads :=
  match stop_barrier (ticking 31) calibrated_warm_state with
  | Some t => t
  | None => idle init_state
  end.

Definition calibrated_stop_outcome : Outcome :=
  match stopReconstructionCallback stop_request fresh_response (ticking 31)
          calibrated_warm_state with
  | Some o => o
  | None => Raised RuntimeError init_state
  end.

(** The image pair stamped [t]. *)
Definition pair_at (t : nat) : ImageMsg * ImageMsg :=
  (mkImageMsg "16UC1" (Z.of_nat t) [Z.of_nat t],
   mkImageMsg "rgb8" (Z.of_nat t) [Z.of_nat t]).

(** Stop called on the 30-frame session while the camera callback of frame
    31 waits for its transform: the callback ends during the first sleep,
    and the timer ticks once in every sleep. *)
Definition frame_31_in_flight : Schedule :=
  mkSchedule (Some (pair_at 31)) false
    ((CameraEnds :: whole BgTick) :: repeat (whole BgTick) 30) false false.

(** Stop called on the 31-frame session while the camera callback of frame
    32 waits for its transform; the callback ends after the wait loop has
    ended and before Stop returns. *)
Definition frame_32_after_barrier : Schedule :=
  mkSchedule (Some (pair_at 32)) false (repeat (whole BgTick) 31) true false.


(** The tick of the 31st sleep has popped the last frame when the wait loop
    ends, and handles it after Stop has returned. *)
Definition last_tick_after_return : Schedule :=
  mkSchedule None false (repeat (whole BgTick) 30 ++ [[TickBegins]])
    false false.

(** A mesh of two strips that share no vertex: 5 triangles over the vertices
    0 .. 6 and 50 triangles over the vertices 7 .. 58. *)
Definition two_cluster_mesh : TriangleMesh :=
  mkMesh (strip_vertices 59) (strip 0 5 ++ strip 7 50).

(** One triangle and a filter direction whose first component is NaN. *)
Definition one_triangle : TriangleMesh :=
  mkMesh (strip_vertices 3) (strip 0 1).

Definition nan_direction : Vec3 := (nan, 0, 0)%float.

(** ** The keyframes a queue yields *)

Section Keyframes.

Context {C : Collaborators}.

(** The frames of a queue that pass the gate when the queue is consumed
    front to back, each frame measured against the last one that passed. *)
Fixpoint accepted_keyframes (translation_distance rotational_distance : float)
    (prev_tran : Vec3) (prev_rot : Vec4) (queue : list SensorDatum)
  : list SensorDatum :=
  match queue with
  | [] => []
  | f :: queue' =>
      let '(rgb_t, rgb_r) := frame_pose f in
      if geb (linalg_norm (vsub rgb_t prev_tran)) translation_distance
         || geb (absolute_distance prev_rot rgb_r) rotational_distance
      then
        f :: accepted_keyframes translation_distance rotational_distance
               rgb_t rgb_r queue'
      else
        accepted_keyframes translation_distance rotational_distance
          prev_tran prev_rot queue'
  end.

(** The deferred-buffer entry of an admitted frame. *)
Definition buffer_entry (f : SensorDatum) : IntegrationDatum :=
  let '(depth_img, rgb_img, _) := f in (depth_img, rgb_img, frame_matrix f).

End Keyframes.

Definition depth_of (f : SensorDatum) : Image := fst (fst f).
Definition color_of (f : SensorDatum) : Image := snd (fst f).

(** The pose the gate compares the next frame with once [kept] frames have
    been accepted. *)
Definition last_pose {C : Collaborators} (prev : Vec3 * Vec4)
    (kept : list SensorDatum) : Vec3 * Vec4 :=
  match rev kept with
  | [] => prev
  | f :: _ => frame_pose f
  end.

(** ** Counting frames *)

(** The frames admitted and the frames still queued never exceed the frames
    seen; the three keyframe lists grow together; every processed frame is
    in them, and in deferred mode nothing else is. *)
Definition counted (s : State) : Prop :=
  0 <= processed_frame_count s /\
  processed_frame_count s + Z.of_nat (List.length (sensor_data s))
  <= frame_count s /\
  List.length (depth_images s) = List.length (rgb_poses s) /\
  List.length (color_images s) = List.length (rgb_poses s) /\
  processed_frame_count s <= Z.of_nat (List.length (rgb_poses s)) /\
  (live_integration s = false ->
   processed_frame_count s = Z.of_nat (List.length (rgb_poses s))).

(** The same beside Stop, where a frame can be in the hands of a tick that
    has popped it and not yet counted it. *)
Definition counted_beside (t : Threads) : Prop :=
  let s := fields t in
  0 <= processed_frame_count s /\
  processed_frame_count s + Z.of_nat (List.length (sensor_data s))
  + (match timer_thread t with Some _ => 1 | None => 0 end)
  <= frame_count s /\
  List.length (depth_images s) = List.length (rgb_poses s) /\
  List.length (color_images s) = List.length (rgb_poses s) /\
  processed_frame_count s <= Z.of_nat (List.length (rgb_poses s)) /\
  (live_integration s = false ->
   processed_frame_count s = Z.of_nat (List.length (rgb_poses s))).

(** ** Archiving *)

(** What [archiveData] does to the file system, through the helpers of
    [utility.file] and Open3D's writers. *)
Inductive FileOp : Type :=
| MakeFolderKeepContents (path : string)
| MakeCleanFolder (path : string)
| WriteImage (path : string) (img : Image)
| WritePose (path : string) (pose : Mat4)
| SaveIntrinsicAsJson (path : string) (intr : option Intrinsics).

(** Python's ["%d" % n] for a natural number. *)
Definition decimal (n : nat) : string :=
  NilEmpty.string_of_uint (Nat.to_uint n).

(** Python's ["%06d" % n]: the decimal digits, zeros in front up to six
    characters. *)
Definition format_06d (n : nat) : string :=
  (string_of_list_ascii (repeat "0"%char (6 - String.length (decimal n)))
   ++ decimal n)%string.

(** ["%s/%06d" % (dir, n)] followed by an extension. *)
Definition frame_file (dir : string) (n : nat) (ext : string) : string :=
  (dir ++ "/" ++ format_06d n ++ ext)%string.

(** The body of the loop [for s in range(len(self.color_images))], for the
    indices still to come. *)
Fixpoint archive_frames (path_output path_depth path_color path_pose : string)
    (s : State) (indices : list nat) : Result (list FileOp) :=
  match indices with
  | [] => Ok []
  | i :: indices' =>
      match nth_error (depth_images s) i with
      | None => Err IndexError
      | Some depth_img =>
          match nth_error (color_images s) i with
          | None => Err IndexError
          | Some rgb_img =>
              match nth_error (rgb_poses s) i with
              | None => Err IndexError
              | Some rgb_pose =>
                  ops <- archive_frames path_output path_depth path_color
                           path_pose s indices' ;;
                  Ok (WriteImage (frame_file path_depth i ".png") depth_img
                      :: WriteImage (frame_file path_color i ".jpg") rgb_img
                      :: WritePose (frame_file path_pose i ".pose") rgb_pose
                      :: SaveIntrinsicAsJson
                           (join path_output "camera_intrinsic.json")
                           (intrinsics s)
                      :: ops)
              end
          end
      end
  end.

Definition archiveData (path_output : string) (s : State)
  : Result (list FileOp) :=
  let path_depth := join path_output "depth" in
  let path_color := join path_output "color" in
  let path_pose := join path_output "pose" in
  ops <- archive_frames path_output path_depth path_color path_pose s
           (seq 0 (List.length (color_images s))) ;;
  Ok (MakeFolderKeepContents path_output
      :: MakeCleanFolder path_depth
      :: MakeCleanFolder path_color
      :: MakeCleanFolder path_pose
      :: ops).

(** The four files [archiveData] writes for keyframe [i]. *)
Definition keyframe_files (path_output : string) (s : State) (i : nat)
  : list FileOp :=
  let blank := mkImage 0 false [] in
  let zero := (0, 0, 0, 0)%float in
  [WriteImage (frame_file (join path_output "depth") i ".png")
     (nth i (depth_images s) blank);
   WriteImage (frame_file (join path_output "color") i ".jpg")
     (nth i (color_images s) blank);
   WritePose (frame_file (join path_output "pose") i ".pose")
     (nth i (rgb_poses s) (zero, zero, zero, zero));
   SaveIntrinsicAsJson (join path_output "camera_intrinsic.json")
     (intrinsics s)].

(** Reading the frame index back from the digits of a file name. *)
Definition parse_index (digits : string) : option nat :=
  option_map Nat.of_uint (NilEmpty.uint_of_string digits).

(** ** Before the first Start, and paths *)

(** The node as [__init__] leaves it, up to the intrinsics the camera-info
    callback may have stored. *)
Definition untouched (s : State) : Prop :=
  s = set_intrinsics (intrinsics s) init_state.

Fixpoint has_slash (p : string) : bool :=
  match p with
  | EmptyString => false
  | String c rest => Ascii.eqb c "/"%char || has_slash rest
  end.

(** ** Any number of normal filters *)

(** Whether every filter of the list leaves triangle [t] of [mesh] in
    place. *)
Definition filters_keep {C : Collaborators} (mesh : TriangleMesh)
    (filters : list NormalFilter) (t : nat * nat * nat) : bool :=
  forallb (fun F => filter_keeps mesh (normal_direction F)
                      (np_radians (angle F)) t)
          filters.

(** ** A live and a deferred session side by side *)

(** The request with its [live] flag replaced. *)
Definition with_live (live : bool) (req : StartRequest) : StartRequest :=
  mkStartRequest (req_tracking_frame req) (req_relative_frame req)
    (req_voxel_length req) (req_sdf_trunc req) (req_min_box_values req)
    (req_max_box_values req) (req_depth_scale req) (req_depth_trunc req)
    (req_convert_rgb_to_intensity req) (req_translation_distance req)
    (req_rotational_distance req) live.

(** The node after Start with the given [live] flag, followed by the
    background callbacks [bs]. *)
Definition session {C : Collaborators} (live : bool) (req : StartRequest)
    (s0 : State) (bs : list Background) : State :=
  run_background bs
    (state_of (startReconstructionCallback (with_live live req)
                 fresh_response s0)).

(** A state without the three fields in which a live and a deferred session
    differ: the volume, the deferred buffer and the live flag. *)
Definition common (s : State) : State :=
  mkState None (intrinsics s) (crop_box s) (crop_mesh s) (tracking_frame s)
    (relative_frame s) (translation_distance s) (rotational_distance s)
    (depth_scale s) (depth_trunc s) (convert_rgb_to_intensity s)
    (sensor_data s) (color_images s) (depth_images s) (rgb_poses s)
    (prev_pose_rot s) (prev_pose_tran s) [] (integration_done s) false
    (record s) (paused s) (frame_count s) (processed_frame_count s)
    (reconstructed_frame_count s).

(** The live session has already integrated what the deferred session still
    holds in its buffer; everything else is the same. *)
Definition mirrors {C : Collaborators} (sL sD : State) (vol0 : Volume)
    (calls : list IntegrateCall) : Prop :=
  live_integration sL = true /\ live_integration sD = false /\
  tsdf_volume sD = Some vol0 /\
  tsdf_volume sL = Some (add_calls vol0 calls) /\
  deferred_calls sD (tsdf_integration_data sD) = Ok calls /\
  tsdf_integration_data sL = [] /\
  integration_done sD = true /\
  common sL = common sD.

(** The engine takes each of [calls] in turn, the first one on [vol]. *)
Fixpoint takes_all {C : Collaborators} (vol : Volume)
    (calls : list IntegrateCall) : Prop :=
  match calls with
  | [] => True
  | call :: calls' =>
      integrate_raises vol call = None /\
      takes_all (add_calls vol [call]) calls'
  end.

(** ** The point-cloud message *)

Record PointField : Type := mkPointField {
  pf_name : string;
  pf_offset : Z;
  pf_datatype : Z;
  pf_count : Z
}.

(** [PointField.FLOAT32]. *)
Definition FLOAT32 : Z := 7.

Record PointCloud2 : Type := mkPointCloud2 {
  pc_frame_id : string;
  pc_height : Z;
  pc_width : Z;
  pc_fields : list PointField;
  pc_is_bigendian : bool;
  pc_point_step : Z;
  pc_row_step : Z;
  pc_data : list Z;
  pc_is_dense : bool
}.

(** An Open3D point cloud: its points, colours and normals, each an array
    with three columns. *)
Record PointCloud : Type := mkPointCloud {
  cloud_points : list Vec3;
  cloud_colors : list Vec3;
  cloud_normals : list Vec3
}.

(** The exceptions [to_cloud_msg] can raise. *)
Inductive CloudError : Type :=
| ValueError
| OverflowError
| StructError.

Inductive CloudResult (A : Type) : Type :=
| Built (a : A)
| Failed (e : CloudError).
Arguments Built {A} a.
Arguments Failed {A} e.

Definition cloud_bind {A B : Type} (r : CloudResult A)
    (k : A -> CloudResult B) : CloudResult B :=
  match r with
  | Built a => k a
  | Failed e => Failed e
  end.

(** What [to_cloud_msg] and its caller take from libraries. *)
Class CloudLibraries : Type := {
  (** [tsdf_volume.extract_point_cloud()]. *)
  extract_point_cloud : Volume -> PointCloud;
  (** [struct.unpack('@f', struct.pack('@I', c))[0]] for [0 <= c < 2^32]:
      the float whose 32 bits are [c]. *)
  float_of_bits : Z -> float;
  (** [data.astype(np.float32).tostring()] on the rows of [data]. *)
  tostring_float32 : list (list float) -> list Z
}.

(** Python's [int(x)] on a float: the integer part, [ValueError] on NaN and
    [OverflowError] on an infinity. *)
Definition py_int (x : float) : CloudResult Z :=
  match Prim2SF x with
  | S754_nan => Failed ValueError
  | S754_infinity _ => Failed OverflowError
  | S754_zero _ => Built 0
  | S754_finite negative m e =>
      let magnitude :=
        if 0 <=? e then Z.pos m * 2 ^ e else Z.pos m / 2 ^ (- e) in
      Built (if negative then - magnitude else magnitude)
  end.

(** [tuple_to_int_rgb]:
    [65536*int(c[0]*255) + 256*int(255*c[1]) + int(255*c[2])]. *)
Definition tuple_to_int_rgb (c : Vec3) : CloudResult Z :=
  let '(c0, c1, c2) := c in
  cloud_bind (py_int (c0 * 255)%float) (fun r =>
  cloud_bind (py_int (255 * c1)%float) (fun g =>
  cloud_bind (py_int (255 * c2)%float) (fun b =>
  Built (65536 * r + 256 * g + b)))).

Section CloudMessage.

Context {L : CloudLibraries}.

(** [int_to_float_rbg]: [struct.pack('@I', c)] raises unless
    [0 <= c < 2^32]. *)
Definition int_to_float_rbg (c : Z) : CloudResult float :=
  if (0 <=? c) && (c <? 2 ^ 32) then Built (float_of_bits c)
  else Failed StructError.

(** The list comprehension over the colours, first row first. *)
Fixpoint pack_colors (colors : list Vec3) : CloudResult (list float) :=
  match colors with
  | [] => Built []
  | c :: colors' =>
      cloud_bind (tuple_to_int_rgb c) (fun n =>
      cloud_bind (int_to_float_rbg n) (fun x =>
      cloud_bind (pack_colors colors') (fun xs => Built (x :: xs))))
  end.

(** [addField(name)]: the new field starts at the current point step, which
    then grows by four bytes. *)
Definition addField (name : string) (msg : PointCloud2) : PointCloud2 :=
  mkPointCloud2 (pc_frame_id msg) (pc_height msg) (pc_width msg)
    (pc_fields msg ++ [mkPointField name (pc_point_step msg) FLOAT32 1])
    (pc_is_bigendian msg) (pc_point_step msg + 4) (pc_row_step msg)
    (pc_data msg) (pc_is_dense msg).

(** [np.hstack([data, columns])] for a two-dimensional [data] and a
    two-dimensional [columns]: the rows side by side, [ValueError] unless
    both have as many rows. *)
Definition hstack (data columns : list (list float))
  : CloudResult (list (list float)) :=
  if (List.length data =? List.length columns)%nat
  then Built (map (fun rc => fst rc ++ snd rc) (combine data columns))
  else Failed ValueError.

Definition row3 (v : Vec3) : list float :=
  let '(x, y, z) := v in [x; y; z].

Definition to_cloud_msg (frame : string) (pointcloud : PointCloud)
  : CloudResult PointCloud2 :=
  let points := map row3 (cloud_points pointcloud) in
  let normals := map row3 (cloud_normals pointcloud) in
  let msg :=
    mkPointCloud2 frame 1 (Z.of_nat (List.length points)) [] false 0 0 []
      false in
  let msg := addField "x" msg in
  let msg := addField "y" msg in
  let msg := addField "z" msg in
  let msg := addField "rgb" msg in
  cloud_bind (pack_colors (cloud_colors pointcloud)) (fun colors =>
  cloud_bind
    (match colors with
     | [] => Failed ValueError  (* a one-dimensional empty array *)
     | _ => hstack points (map (fun x => [x]) colors)
     end) (fun data =>
  let msg := addField "normal_x" msg in
  let msg := addField "normal_y" msg in
  let msg := addField "normal_z" msg in
  cloud_bind (hstack data normals) (fun data =>
  Built
    (mkPointCloud2 (pc_frame_id msg) (pc_height msg) (pc_width msg)
       (pc_fields msg) (pc_is_bigendian msg) (pc_point_step msg)
       (pc_point_step msg * Z.of_nat (List.length data))
       (tostring_float32 data) (pc_is_dense msg))))).

(** The diagnostic of [reconstructCallback]: the result of [to_cloud_msg]
    when the tick reaches it, [None] when it does not.  A [Built] message is
    published on [tsdf_cloud]; a [Failed] one is logged as a warning. *)
Definition reconstructCallback_cloud {C : Collaborators} (s : State)
  : option (CloudResult PointCloud2) :=
  if (frame_count s <=? 30) || (List.length (sensor_data s) =? 0)%nat
  then None
  else
    match sensor_data s with
    | [] => None
    | (depth_img, rgb_img, gm_tf_stamped) :: rest =>
        let '(rgb_t, rgb_r) := transformStampedToVectors gm_tf_stamped in
        let tran_dist := linalg_norm (vsub rgb_t (prev_pose_tran s)) in
        let rot_dist := absolute_distance (prev_pose_rot s) rgb_r in
        if geb tran_dist (translation_distance s)
           || geb rot_dist (rotational_distance s)
        then
          let rgb_pose := set_translation (transformation_matrix rgb_r) rgb_t in
          match live_integration s, tsdf_volume s with
          | true, Some vol =>
              match integrate_frame s vol depth_img rgb_img rgb_pose with
              | Ok vol' =>
                  if ((processed_frame_count s + 1) mod 50 =? 0) && record s
                  then Some (to_cloud_msg (relative_frame s)
                               (extract_point_cloud vol'))
                  else None
              | Err _ => None
              end
          | _, _ => None
          end
        else None
    end.

End CloudMessage.

(** ** Session parameters *)

(** What Start installs from the request and no other callback writes. *)
Definition parameters (s : State)
  : string * string * float * float * float * float * bool * bool
    * option CropBox * bool :=
  (tracking_frame s, relative_frame s, translation_distance s,
   rotational_distance s, depth_scale s, depth_trunc s,
   convert_rgb_to_intensity s, crop_mesh s, crop_box s, live_integration s).

(** ** A reference instance for the point-cloud message *)

(** The float with the given 32 bits: sign, eight exponent bits, 23 mantissa
    bits. *)
Definition ref_float_of_bits (c : Z) : float :=
  let negative := Z.odd (c / 2 ^ 31) in
  let exponent := (c / 2 ^ 23) mod 256 in
  let mantissa := c mod 2 ^ 23 in
  if exponent =? 255 then
    if mantissa =? 0 then (if negative then neg_infinity else infinity)
    else nan
  else if exponent =? 0 then
    match mantissa with
    | Z.pos m => SF2Prim (S754_finite negative m (-149))
    | _ => SF2Prim (S754_zero negative)
    end
  else
    match (2 ^ 23 + mantissa)%Z with
    | Z.pos m => SF2Prim (S754_finite negative m (exponent - 150))
    | _ => nan
    end.

(** The 32 bits of the nearest single-precision float. *)
Definition ref_bits_of_float (x : float) : Z :=
  let bits (negative : bool) (rest : Z) :=
    (if negative then 2 ^ 31 else 0) + rest in
  let of_rounded f :=
    match f with
    | S754_nan => 2143289344
    | S754_infinity negative => bits negative 2139095040
    | S754_zero negative => bits negative 0
    | S754_finite negative m e =>
        if Z.pos m <? 2 ^ 23 then bits negative (Z.pos m)
        else bits negative ((e + 150) * 2 ^ 23 + (Z.pos m - 2 ^ 23))
    end in
  match Prim2SF x with
  | S754_finite negative m e => of_rounded (binary_round 24 128 negative m e)
  | f => of_rounded f
  end.

Definition little_endian_4 (n : Z) : list Z :=
  [n mod 256; (n / 256) mod 256; (n / 65536) mod 256; (n / 16777216) mod 256].

(** One coloured point with a normal per integrated frame. *)
Definition ref_extract_point_cloud (vol : Volume) : PointCloud :=
  let n := List.length (integrated vol) in
  mkPointCloud
    (map (fun i => (float_of_nat i, 0, 0)%float) (seq 0 n))
    (repeat (1, 0.5, 0)%float n)
    (repeat (0, 0, 1)%float n).

#[export] Instance reference_cloud : CloudLibraries := {
  extract_point_cloud := ref_extract_point_cloud;
  float_of_bits := ref_float_of_bits;
  tostring_float32 :=
    flat_map (flat_map (fun x => little_endian_4 (ref_bits_of_float x)))
}.

(** ** More concrete sessions *)

(** A live session with 80 frames seen and 49 of them integrated. *)
Definition live_state_49 : State :=
  run_background (repeat BgTick 49)
    (state_after (Start (start_request true) :: frames 80)).

(** A live session with 31 frames seen and none consumed yet. *)
Definition live_warm_state : State :=
  state_after (Start (start_request true) :: frames 31).

Definition archive_request : StopRequest :=
  mkStopRequest "/tmp/scan/mesh.ply" [] 0 "/tmp/scan/archive".

(** The queue entry an arriving image pair becomes; [None] when an image
    does not convert or the pose lookup fails. *)
Definition received {C : Collaborators} (s : State)
    (pair : ImageMsg * ImageMsg) : option SensorDatum :=
  let '(depth_image_msg, rgb_image_msg) := pair in
  match imgmsg_to_cv2 depth_image_msg "16UC1",
        imgmsg_to_cv2 rgb_image_msg (encoding rgb_image_msg),
        lookup_transform (relative_frame s) (tracking_frame s)
          (stamp rgb_image_msg) with
  | Some cv2_depth_img, Some cv2_rgb_img, Some gm_tf_stamped =>
      Some (cv2_depth_img,
            if (shape_len cv2_rgb_img =? 2)%nat && is_uint8 cv2_rgb_img
            then cvtColor_GRAY2RGB cv2_rgb_img else cv2_rgb_img,
            gm_tf_stamped)
  | _, _, _ => None
  end.

Definition arrivals (pairs : list (ImageMsg * ImageMsg)) : list Background :=
  map (fun pair => BgCamera (fst pair) (snd pair)) pairs.

Definition keep_some {A : Type} (l : list (option A)) : list A :=
  flat_map (fun o => match o with Some a => [a] | None => [] end) l.

(** The 31 frames of the concrete sessions, then 31 ticks. *)
Definition frames_then_ticks : list Background :=
  map frame_at (seq 1 31) ++ repeat BgTick 31.

(** A node that has received camera info and nothing else. *)
Definition calibrated_node : State :=
  state_after [Bg (BgCameraInfo camera_info)].

(** The same camera info again, the 31 frames, then 31 ticks. *)
Definition info_frames_then_ticks : list Background :=
  BgCameraInfo camera_info :: frames_then_ticks.

(** Stop's export at the end of the deferred session over them. *)
Definition deferred_outcome : Outcome :=
  stop_export stop_request fresh_response
    (session false (start_request false) calibrated_node
       info_frames_then_ticks).

Definition archive_outcome : Outcome :=
  stop_export archive_request fresh_response buffered_state.

Definition two_points : PointCloud :=
  mkPointCloud [(0, 0, 1); (1, 0, 1)]%float [(1, 0.5, 0); (0, 0, 1)]%float
    [(0, 0, 1); (0, 0, 1)]%float.

Definition built_or_blank (r : CloudResult PointCloud2) : PointCloud2 :=
  match r with
  | Built msg => msg
  | Failed _ => mkPointCloud2 "" 0 0 [] false 0 0 [] false
  end.

(** The 31-frame deferred session followed by 31 timer ticks. *)
Definition drained_session : list Call :=
  Start (start_request false) :: frames 31 ++ map Bg (repeat BgTick 31).

(** Calls that reach a node on which Start was never called. *)
Definition idle_calls : list Call :=
  [Pause; Resume; Bg (frame_at 1); Bg BgTick].

Definition frame_32 : ImageMsg * ImageMsg :=
  (mkImageMsg "16UC1" 32 [32], mkImageMsg "rgb8" 32 [32]).

(** * Properties *)

(** ** Floating-point comparisons *)

Lemma SFcompare_antisym (x y : spec_float) (c : comparison) :
  SFcompare x y = Some c -> SFcompare y x = Some (CompOpp c).
Proof.
  destruct x as [sx| sx | | sx mx ex], y as [sy | sy | | sy my ey];
    simpl; try congruence;
    try (destruct sx; intros [= <-]; reflexivity);
    try (destruct sy; intros [= <-]; reflexivity);
    try (intros [= <-]; reflexivity).
  - destruct sx, sy; intros [= <-]; reflexivity.
  - change (Pos.compare_cont Eq mx my) with (Pos.compare mx my).
    change (Pos.compare_cont Eq my mx) with (Pos.compare my mx).
    rewrite (Z.compare_antisym ex ey), (Pos.compare_antisym mx my).
    destruct sx, sy; intros [= <-]; try reflexivity;
      destruct (ex ?= ey)%Z; simpl; try reflexivity;
      destruct (mx ?= my)%positive; reflexivity.
Qed.

Lemma SFcompare_total (x y : spec_float) :
  x <> S754_nan -> y <> S754_nan -> exists c, SFcompare x y = Some c.
Proof.
  destruct x, y; simpl; intros; try congruence; eauto.
Qed.

(** A value exactly at the threshold passes [>=]. *)
Lemma eqb_geb (a b : float) : (a =? b)%float = true -> geb a b = true.
Proof.
  unfold geb. rewrite FloatAxioms.eqb_spec, FloatAxioms.leb_spec. unfold SFeqb, SFleb.
  destruct (SFcompare (Prim2SF a) (Prim2SF b)) as [[ | | ]|] eqn:E;
    try discriminate.
  intros _. now rewrite (SFcompare_antisym _ _ _ E).
Qed.

(** A value strictly below the threshold fails [>=]. *)
Lemma ltb_not_geb (a b : float) : (a <? b)%float = true -> geb a b = false.
Proof.
  unfold geb. rewrite FloatAxioms.ltb_spec, FloatAxioms.leb_spec. unfold SFltb, SFleb.
  destruct (SFcompare (Prim2SF a) (Prim2SF b)) as [[ | | ]|] eqn:E;
    try discriminate.
  intros _. now rewrite (SFcompare_antisym _ _ _ E).
Qed.

Lemma is_nan_spec (a : float) : is_nan a = false -> Prim2SF a <> S754_nan.
Proof.
  unfold is_nan. rewrite FloatAxioms.eqb_spec. unfold SFeqb. intros H E.
  rewrite E in H. discriminate.
Qed.

(** Away from NaN, "not below" and [>=] agree. *)
Lemma not_ltb_geb (a b : float) :
  is_nan a = false -> is_nan b = false -> negb (a <? b)%float = geb a b.
Proof.
  intros Ha Hb. unfold geb. rewrite FloatAxioms.ltb_spec, FloatAxioms.leb_spec. unfold SFltb, SFleb.
  destruct (SFcompare_total _ _ (is_nan_spec _ Ha) (is_nan_spec _ Hb))
    as [c E].
  rewrite E, (SFcompare_antisym _ _ _ E). now destruct c.
Qed.

(** ** The consumer tick *)

Section Tick.

Context {C : Collaborators}.

Lemma reconstructCallback_idle (s : State) :
  frame_count s <= 30 \/ sensor_data s = [] -> reconstructCallback s = s.
Proof.
  intros [H | H]; unfold reconstructCallback.
  - apply Z.leb_le in H. now rewrite H.
  - rewrite H. simpl. now rewrite orb_true_r.
Qed.

Lemma warm_guard (s : State) (f : SensorDatum) (rest : list SensorDatum) :
  30 < frame_count s -> sensor_data s = f :: rest ->
  (frame_count s <=? 30) || (List.length (sensor_data s) =? 0)%nat = false.
Proof.
  intros Hw Hq. rewrite Hq. simpl. rewrite orb_false_r.
  apply Z.leb_gt. exact Hw.
Qed.

(** A popped frame that fails the gate: only the queue changes. *)
Lemma reconstructCallback_reject (s : State) (f : SensorDatum)
    (rest : list SensorDatum) :
  30 < frame_count s -> sensor_data s = f :: rest ->
  geb (tran_dist s f) (translation_distance s)
  || geb (rot_dist s f) (rotational_distance s) = false ->
  reconstructCallback s = set_sensor_data rest s.
Proof.
  intros Hw Hq Hg. unfold reconstructCallback.
  rewrite (warm_guard s f rest Hw Hq), Hq.
  destruct f as [[depth_img rgb_img] tf].
  unfold tran_dist, rot_dist, frame_pose in Hg.
  destruct (transformStampedToVectors tf) as [rgb_t rgb_r].
  simpl in *. now rewrite Hg.
Qed.

(** A popped frame that passes the gate: it leaves the queue, becomes the
    previous pose and joins the lists of accepted keyframes. *)
Lemma reconstructCallback_accept (s : State) (f : SensorDatum)
    (rest : list SensorDatum) :
  30 < frame_count s -> sensor_data s = f :: rest ->
  geb (tran_dist s f) (translation_distance s)
  || geb (rot_dist s f) (rotational_distance s) = true ->
  let s' := reconstructCallback s in
  sensor_data s' = rest /\
  prev_pose_tran s' = fst (frame_pose f) /\
  prev_pose_rot s' = snd (frame_pose f) /\
  admitted s s' f.
Proof.
  intros Hw Hq Hg. unfold reconstructCallback.
  rewrite (warm_guard s f rest Hw Hq), Hq.
  destruct f as [[depth_img rgb_img] tf].
  unfold tran_dist, rot_dist, frame_pose, admitted, frame_matrix, frame_pose
    in *.
  destruct (transformStampedToVectors tf) as [rgb_t rgb_r].
  simpl in *. rewrite Hg.
  destruct (live_integration s); [destruct (tsdf_volume s) as [vol|] |];
    simpl; try (repeat split; reflexivity).
  destruct (integrate_frame _ vol depth_img rgb_img _);
    simpl; repeat split; reflexivity.
Qed.

Lemma reconstructCallback_cases (s : State) :
  reconstructCallback s = s \/
  exists f rest, 30 < frame_count s /\ sensor_data s = f :: rest.
Proof.
  destruct (Z.leb_spec (frame_count s) 30) as [H | H].
  - left. apply reconstructCallback_idle. now left.
  - destruct (sensor_data s) as [|f rest] eqn:Hq.
    + left. apply reconstructCallback_idle. now right.
    + right. now exists f, rest.
Qed.

(** The rest of a tick, for the frame it holds: a frame that fails the gate
    changes nothing more. *)
Lemma after_popleft_reject (f : SensorDatum) (s : State) :
  geb (tran_dist s f) (translation_distance s)
  || geb (rot_dist s f) (rotational_distance s) = false ->
  reconstructCallback_after_popleft f s = s.
Proof.
  intros Hg. unfold reconstructCallback_after_popleft.
  destruct f as [[depth_img rgb_img] tf].
  unfold tran_dist, rot_dist, frame_pose in Hg.
  destruct (transformStampedToVectors tf) as [rgb_t rgb_r].
  simpl in *. now rewrite Hg.
Qed.

(** A frame that passes the gate becomes the previous pose and joins the
    lists of accepted keyframes; the queue is not touched again. *)
Lemma after_popleft_accept (f : SensorDatum) (s : State) :
  geb (tran_dist s f) (translation_distance s)
  || geb (rot_dist s f) (rotational_distance s) = true ->
  let s' := reconstructCallback_after_popleft f s in
  sensor_data s' = sensor_data s /\
  prev_pose_tran s' = fst (frame_pose f) /\
  prev_pose_rot s' = snd (frame_pose f) /\
  admitted s s' f.
Proof.
  intros Hg. unfold reconstructCallback_after_popleft.
  destruct f as [[depth_img rgb_img] tf].
  unfold tran_dist, rot_dist, frame_pose, admitted, frame_matrix, frame_pose
    in *.
  destruct (transformStampedToVectors tf) as [rgb_t rgb_r].
  simpl in *. rewrite Hg.
  destruct (live_integration s); [destruct (tsdf_volume s) as [vol|] |];
    simpl; try (repeat split; reflexivity).
  destruct (integrate_frame _ vol depth_img rgb_img _);
    simpl; repeat split; reflexivity.
Qed.

(** The fields the rest of a tick does not write. *)
Lemma after_popleft_keeps (f : SensorDatum) (s : State) :
  let s' := reconstructCallback_after_popleft f s in
  sensor_data s' = sensor_data s /\ frame_count s' = frame_count s /\
  record s' = record s /\ paused s' = paused s /\
  intrinsics s' = intrinsics s /\
  live_integration s' = live_integration s /\
  reconstructed_frame_count s' = reconstructed_frame_count s /\
  (integration_done s = true -> integration_done s' = true) /\
  (tsdf_volume s <> None -> tsdf_volume s' <> None).
Proof.
  cbv zeta. unfold reconstructCallback_after_popleft.
  destruct f as [[depth_img rgb_img] tf].
  destruct (transformStampedToVectors tf) as [rgb_t rgb_r]. simpl.
  destruct (geb _ _ || geb _ _); [|repeat split; auto].
  destruct (live_integration s) eqn:Hl;
    [destruct (tsdf_volume s) eqn:Hv|]; simpl;
    try (rewrite ?Hl, ?Hv; repeat split; auto; fail).
  destruct (integrate_frame _ _ _ _ _); simpl; rewrite ?Hl, ?Hv;
    repeat split; auto; discriminate.
Qed.

End Tick.

(** ** Runs and invariants *)

Section Runs.

Context {C : Collaborators}.

Lemma cameraCallback_dropped (d c : ImageMsg) (s : State) :
  paused s = true \/ record s = false -> cameraCallback d c s = s.
Proof.
  intros [H | H]; unfold cameraCallback; rewrite H; simpl;
    [reflexivity | now rewrite orb_true_r].
Qed.

(** What a frame that is not dropped does: one entry more at the back of the
    queue, one frame more seen. *)
Lemma cameraCallback_cases (d c : ImageMsg) (s : State) :
  cameraCallback d c s = s \/
  (record s = true /\ paused s = false /\
   exists f, cameraCallback d c s =
             set_frame_count (frame_count s + 1)
               (set_sensor_data (sensor_data s ++ [f]) s)).
Proof.
  unfold cameraCallback.
  destruct (paused s) eqn:Hp; [now left|].
  destruct (record s) eqn:Hr; [|now left]. simpl.
  destruct (imgmsg_to_cv2 d "16UC1"); [|now left].
  destruct (imgmsg_to_cv2 c (encoding c)); [|now left].
  destruct (lookup_transform _ _ _); [|now left].
  right. repeat split. eexists. reflexivity.
Qed.

Lemma Some_inj {A : Type} (a b : A) : Some a = Some b -> a = b.
Proof. congruence. Qed.

(** A whole callback is its guard followed by the rest. *)
Lemma cameraCallback_parts (d c : ImageMsg) (s : State) :
  cameraCallback d c s
  = if paused s || negb (record s) then s
    else cameraCallback_after_guard d c s.
Proof. reflexivity. Qed.

Lemma reconstructCallback_parts (s : State) :
  reconstructCallback s
  = if (frame_count s <=? 30) || (List.length (sensor_data s) =? 0)%nat
    then s
    else
      match sensor_data s with
      | [] => s
      | popped :: rest =>
          reconstructCallback_after_popleft popped (set_sensor_data rest s)
      end.
Proof.
  unfold reconstructCallback, reconstructCallback_after_popleft.
  destruct ((frame_count s <=? 30) || _); [reflexivity|].
  destruct (sensor_data s) as [|[[depth_img rgb_img] tf] rest]; reflexivity.
Qed.

(** Beside Stop, a callback that begins and ends between two of Stop's
    statements does what it does between two service calls. *)
Lemma whole_background (b : Background) (s : State) :
  run_overlaps (whole b) (idle s) = idle (background b s).
Proof.
  destruct b as [d c | | ci]; unfold run_overlaps; simpl.
  - rewrite cameraCallback_parts.
    destruct (paused s || negb (record s)); reflexivity.
  - rewrite reconstructCallback_parts.
    destruct ((frame_count s <=? 30) || _); [reflexivity|].
    destruct (sensor_data s); reflexivity.
  - reflexivity.
Qed.

Lemma after_guard_cases (d c : ImageMsg) (s : State) :
  cameraCallback_after_guard d c s = s \/
  exists f, cameraCallback_after_guard d c s =
            set_frame_count (frame_count s + 1)
              (set_sensor_data (sensor_data s ++ [f]) s).
Proof.
  unfold cameraCallback_after_guard.
  destruct (imgmsg_to_cv2 d "16UC1"); [|now left].
  destruct (imgmsg_to_cv2 c (encoding c)); [|now left].
  destruct (lookup_transform _ _ _); [|now left].
  right. eexists. reflexivity.
Qed.

Lemma overlap_camera_ends (t : Threads) :
  camera_thread (overlap CameraEnds t) = None /\
  timer_thread (overlap CameraEnds t) = timer_thread t.
Proof.
  simpl. destruct (camera_thread t) as [[d c]|] eqn:E; simpl; auto.
Qed.

Lemma overlap_tick_ends (t : Threads) :
  timer_thread (overlap TickEnds t) = None /\
  camera_thread (overlap TickEnds t) = camera_thread t.
Proof.
  simpl. destruct (timer_thread t) as [f|] eqn:E; simpl; auto.
Qed.

Lemma overlap_ends_idle (t : Threads) :
  camera_thread t = None -> timer_thread t = None ->
  overlap CameraEnds t = t /\ overlap TickEnds t = t.
Proof. intros Hc Ht. simpl. now rewrite Hc, Ht. Qed.

Lemma run_overlaps_invariant (Q : Threads -> Prop) :
  (forall o t, Q t -> Q (overlap o t)) ->
  forall os t, Q t -> Q (run_overlaps os t).
Proof.
  intros Ho. unfold run_overlaps.
  induction os as [|o os IH]; intros t HQ; simpl; auto.
Qed.

Lemma stop_wait_invariant (Q : Threads -> Prop) :
  (forall o t, Q t -> Q (overlap o t)) ->
  forall sleeps t t', Q t -> stop_wait sleeps t = Some t' ->
  Q t' /\ drain_barrier (fields t') = true.
Proof.
  intros Ho. induction sleeps as [|os sleeps IH]; intros t t' HQ Hw;
    simpl in Hw.
  - destruct (drain_barrier (fields t)) eqn:Hb; [|discriminate].
    injection Hw as <-. now split.
  - destruct (drain_barrier (fields t)) eqn:Hb.
    + injection Hw as <-. now split.
    + eapply IH; [|exact Hw]. now apply run_overlaps_invariant.
Qed.

Lemma stop_begins_invariant (Q : Threads -> Prop) :
  (forall o t, Q t -> Q (overlap o t)) ->
  (forall t, Q t -> Q (with_fields (set_record false (fields t)) t)) ->
  forall sched s, Q (idle s) -> Q (stop_begins sched s).
Proof.
  intros Ho Hrec sched s HQ. unfold stop_begins. apply Hrec.
  destruct (tick_running sched); [apply Ho|];
    destruct (camera_running sched) as [[d c]|]; auto.
Qed.

Lemma before_export_invariant (Q : Threads -> Prop) :
  (forall o t, Q t -> Q (overlap o t)) ->
  forall sched t, Q t -> Q (before_export sched t).
Proof.
  intros Ho sched t HQ. unfold before_export.
  destruct (tick_ends_before_export sched); [apply Ho|];
    destruct (camera_ends_before_export sched); auto.
Qed.

(** A property of the node's fields that the parts of the split callbacks
    keep holds after every step beside Stop. *)
Lemma overlap_fields (P : State -> Prop) :
  (forall d c s, P s -> P (cameraCallback_after_guard d c s)) ->
  (forall s, P s -> P (set_sensor_data (tl (sensor_data s)) s)) ->
  (forall f s, P s -> P (reconstructCallback_after_popleft f s)) ->
  (forall ci s, P s -> P (cameraInfoCallback ci s)) ->
  forall o t, P (fields t) -> P (fields (overlap o t)).
Proof.
  intros Hcam Hpop Htick Hinfo o t HP.
  destruct o as [d c | | | | ci]; simpl.
  - destruct (camera_thread t); [exact HP|].
    destruct (paused _ || negb _); exact HP.
  - destruct (camera_thread t) as [[d c]|]; [|exact HP]. simpl. auto.
  - destruct (timer_thread t); [exact HP|].
    destruct ((frame_count _ <=? 30) || _); [exact HP|].
    destruct (sensor_data (fields t)) as [|f rest] eqn:Hq; [exact HP|].
    simpl. specialize (Hpop _ HP). now rewrite Hq in Hpop.
  - destruct (timer_thread t) as [f|]; [|exact HP]. simpl. auto.
  - destruct (camera_thread t); [exact HP|]. simpl. auto.
Qed.

(** With no callback running when the wait loop ends, nothing is left to
    end before the export or after Stop's return. *)
Lemma idle_before_export (sched : Schedule) (t : Threads) :
  camera_thread t = None -> timer_thread t = None ->
  before_export sched t = t.
Proof.
  intros Hc Ht. destruct (overlap_ends_idle t Hc Ht) as [E1 E2].
  unfold before_export.
  destruct (camera_ends_before_export sched),
    (tick_ends_before_export sched); rewrite ?E1, ?E2; reflexivity.
Qed.

Lemma idle_settle (s : State) (t : Threads) :
  camera_thread t = None -> timer_thread t = None ->
  settle (with_fields s t) = s.
Proof.
  intros Hc Ht. unfold settle. simpl. rewrite Hc. simpl. now rewrite Ht.
Qed.

(** Stop with no callback running when its wait loop ends: the export runs
    on the fields the barrier saw, and nothing lands afterwards. *)
Lemma stop_run_idle (req : StopRequest) (res : Response) (sched : Schedule)
    (s : State) (t : Threads) :
  stop_barrier sched s = Some t ->
  camera_thread t = None -> timer_thread t = None ->
  stop_run req res sched s
  = Some (stop_export req res (fields t),
          with_fields (state_of (stop_export req res (fields t))) t) /\
  settle (with_fields (state_of (stop_export req res (fields t))) t)
  = state_of (stop_export req res (fields t)).
Proof.
  intros Hb Hc Ht. unfold stop_run. rewrite Hb.
  rewrite (idle_before_export sched t Hc Ht).
  split; [reflexivity | now apply idle_settle].
Qed.

(** What holds of the node and the other threads when Stop returns, for a
    property that every step beside Stop and Stop's own writes keep. *)
Lemma stop_run_invariant (Q : Threads -> Prop) :
  (forall o t, Q t -> Q (overlap o t)) ->
  (forall t, Q t -> Q (with_fields (set_record false (fields t)) t)) ->
  (forall req res t r out s', Q t ->
     stop_export req res (fields t) = Returned r out s' ->
     Q (with_fields s' t)) ->
  forall req res sched s r out s' t,
  Q (idle s) -> stop_run req res sched s = Some (Returned r out s', t) ->
  Q t /\ fields t = s'.
Proof.
  intros Ho Hrec Hexp req res sched s r out s' t HQ H.
  unfold stop_run, stop_barrier in H.
  destruct (stop_wait _ _) as [t1|] eqn:Hw; [|discriminate].
  injection H as Ho1 Ht. subst t. rewrite Ho1. simpl. split; [|reflexivity].
  destruct (stop_wait_invariant Q Ho _ _ _
              (stop_begins_invariant Q Ho Hrec sched s HQ) Hw) as [HQ1 _].
  eapply Hexp; [|exact Ho1].
  now apply before_export_invariant.
Qed.

Lemma settle_invariant (Q : Threads -> Prop) (P : State -> Prop) :
  (forall o t, Q t -> Q (overlap o t)) ->
  (forall t, Q t -> camera_thread t = None -> timer_thread t = None ->
             P (fields t)) ->
  forall t, Q t -> P (settle t).
Proof.
  intros Ho Hidle t HQ. unfold settle. apply Hidle.
  - auto.
  - destruct (overlap_tick_ends (overlap CameraEnds t)) as [_ ->].
    apply overlap_camera_ends.
  - apply overlap_tick_ends.
Qed.

(** A property of the node's fields that every call of a run keeps, when the
    steps beside Stop keep a property [Q] of the fields and the threads that
    holds when the threads are idle and gives [P] back when they are idle
    again. *)
Lemma step_invariant_threads (P : State -> Prop) (Q : Threads -> Prop) :
  (forall req res s, P s ->
     P (state_of (startReconstructionCallback req res s))) ->
  (forall res s r out s', P s ->
     pauseReconstructionCallback res s = Returned r out s' -> P s') ->
  (forall res s, P s -> P (state_of (resumeReconstructionCallback res s))) ->
  (forall b s, P s -> P (background b s)) ->
  (forall s, P s -> Q (idle s)) ->
  (forall o t, Q t -> Q (overlap o t)) ->
  (forall t, Q t -> Q (with_fields (set_record false (fields t)) t)) ->
  (forall req res t r out s', Q t ->
     stop_export req res (fields t) = Returned r out s' ->
     Q (with_fields s' t)) ->
  (forall t, Q t -> camera_thread t = None -> timer_thread t = None ->
             P (fields t)) ->
  forall c s s', P s -> step c s = Some s' -> P s'.
Proof.
  intros Hstart Hpause Hresume Hbg Hin Ho Hrec Hexp Hout c s s' HP Hs.
  destruct c as [req | | | req sched | b]; cbn [step serve] in Hs.
  - apply Some_inj in Hs. specialize (Hstart req fresh_response s HP).
    now rewrite <- Hs.
  - destruct (pauseReconstructionCallback fresh_response s)
      as [r out s1 | e s1] eqn:E; [|discriminate].
    apply Some_inj in Hs. subst s1. eauto.
  - destruct (resumeReconstructionCallback fresh_response s)
      as [r out s1 | e s1] eqn:E; [|discriminate].
    apply Some_inj in Hs. subst s1.
    specialize (Hresume fresh_response s HP). now rewrite E in Hresume.
  - destruct (stop_run req fresh_response sched s)
      as [[[r out s1 | e s1] t]|] eqn:E; try discriminate.
    apply Some_inj in Hs. subst s'.
    destruct (stop_run_invariant Q Ho Hrec Hexp _ _ _ _ _ _ _ _ (Hin s HP) E)
      as [HQ _].
    now apply (settle_invariant Q P).
  - apply Some_inj in Hs. subst s'. auto.
Qed.

(** The same for a property that does not look at the threads: it is enough
    that the parts of the split callbacks keep it. *)
Lemma step_invariant (P : State -> Prop) :
  (forall req res s, P s ->
     P (state_of (startReconstructionCallback req res s))) ->
  (forall res s r out s', P s ->
     pauseReconstructionCallback res s = Returned r out s' -> P s') ->
  (forall res s, P s -> P (state_of (resumeReconstructionCallback res s))) ->
  (forall d c s, P s -> P (cameraCallback_after_guard d c s)) ->
  (forall s, P s -> P (set_sensor_data (tl (sensor_data s)) s)) ->
  (forall f s, P s -> P (reconstructCallback_after_popleft f s)) ->
  (forall ci s, P s -> P (cameraInfoCallback ci s)) ->
  (forall s, P s -> P (set_record false s)) ->
  (forall req res s r out s', P s ->
     stop_export req res s = Returned r out s' -> P s') ->
  forall c s s', P s -> step c s = Some s' -> P s'.
Proof.
  intros Hstart Hpause Hresume Hcam Hpop Htick Hinfo Hrec Hexp.
  apply (step_invariant_threads P (fun t => P (fields t)));
    [exact Hstart | exact Hpause | exact Hresume | | | | | |].
  - intros [d c | | ci] s HP; simpl.
    + rewrite cameraCallback_parts.
      destruct (paused s || negb (record s)); auto.
    + rewrite reconstructCallback_parts.
      destruct ((frame_count s <=? 30) || _); [exact HP|].
      destruct (sensor_data s) as [|f rest] eqn:Hq; [exact HP|].
      apply Htick. specialize (Hpop s HP). now rewrite Hq in Hpop.
    + auto.
  - intros s HP. exact HP.
  - now apply overlap_fields.
  - intros t HP. simpl. auto.
  - intros req res t r out s' HP H. simpl. eauto.
  - intros t HP _ _. exact HP.
Qed.

Lemma run_invariant (P : State -> Prop) :
  (forall c s s', P s -> step c s = Some s' -> P s') ->
  forall calls s s', P s -> run calls s = Some s' -> P s'.
Proof.
  intros Hstep. induction calls as [|c calls IH]; intros s s' HP Hr;
    simpl in Hr.
  - now injection Hr as <-.
  - destruct (step c s) as [s1|] eqn:Hs; [|discriminate].
    eapply IH; [|exact Hr]. eauto.
Qed.

End Runs.

(** ** Draining the deferred buffer *)

Section Drain.

Context {C : Collaborators}.

Lemma deferred_calls_ext (s1 s2 : State) (pending : list IntegrationDatum) :
  depth_scale s1 = depth_scale s2 -> depth_trunc s1 = depth_trunc s2 ->
  intrinsics s1 = intrinsics s2 ->
  deferred_calls s1 pending = deferred_calls s2 pending.
Proof.
  intros H1 H2 H3. induction pending as [|[[d c] p] rest IH]; simpl.
  - reflexivity.
  - rewrite IH, H1, H2, H3. reflexivity.
Qed.

Lemma add_calls_nil (vol : Volume) : add_calls vol [] = vol.
Proof. destruct vol. unfold add_calls. simpl. now rewrite app_nil_r. Qed.

Lemma add_calls_cons (vol : Volume) (call : IntegrateCall)
    (calls : list IntegrateCall) :
  add_calls (add_calls vol [call]) calls = add_calls vol (call :: calls).
Proof. unfold add_calls. simpl. now rewrite <- app_assoc. Qed.

(** When the drain loop ends normally, the buffer is empty and the volume has
    taken one call per entry, in the order of the buffer. *)
Lemma drain_returns (pending : list IntegrationDatum) :
  forall (vol : Volume) (s s' : State),
  tsdf_volume s = Some vol -> tsdf_integration_data s = pending ->
  drain_integration_data pending vol s = inr s' ->
  exists calls,
    deferred_calls s pending = Ok calls /\
    List.length calls = List.length pending /\
    s' = set_tsdf_volume (Some (add_calls vol calls))
           (set_tsdf_integration_data [] s).
Proof.
  induction pending as [|[[depth_img rgb_img] rgb_pose] rest IH];
    intros vol s s' Hv Hb Hd; simpl in Hd.
  - injection Hd as <-. exists []. repeat split.
    rewrite add_calls_nil. destruct s. simpl in *. now subst.
  - unfold integrate_frame, integrate in Hd. simpl in Hd.
    destruct (linalg_inv rgb_pose) as [ext|e] eqn:Hinv; simpl in Hd;
      [|discriminate].
    destruct (integrate_raises vol _) eqn:Hraise; [discriminate|].
    apply IH in Hd; [|reflexivity|reflexivity].
    destruct Hd as (calls & Hcalls & Hlen & Hs').
    eexists (_ :: calls). split; [|split].
    + simpl. rewrite Hinv. simpl.
      erewrite deferred_calls_ext in Hcalls; [rewrite Hcalls|..];
        reflexivity.
    + simpl. now rewrite Hlen.
    + rewrite Hs'. fold (add_calls vol [mkIntegrateCall
        (create_from_color_and_depth rgb_img depth_img (depth_scale s)
           (depth_trunc s) false) (intrinsics s) ext]).
      rewrite add_calls_cons. reflexivity.
Qed.

(** The drain loop ends normally when every pose has an inverse and the
    engine takes every call. *)
Lemma drain_total (pending : list IntegrationDatum) :
  forall (vol : Volume) (s : State) (calls : list IntegrateCall),
  (forall v c, integrate_raises v c = None) ->
  deferred_calls s pending = Ok calls ->
  exists s', drain_integration_data pending vol s = inr s'.
Proof.
  induction pending as [|[[depth_img rgb_img] rgb_pose] rest IH];
    intros vol s calls Hno Hcalls; simpl.
  - eauto.
  - simpl in Hcalls. unfold integrate_frame, integrate. simpl.
    destruct (linalg_inv rgb_pose) as [ext|e]; simpl in *; [|discriminate].
    rewrite Hno.
    destruct (deferred_calls s rest) as [calls'|e] eqn:Hrest; simpl in *;
      [|discriminate].
    eapply IH; [exact Hno|].
    erewrite deferred_calls_ext; [exact Hrest|..]; reflexivity.
Qed.

(** The drain loop leaves early only by an exception. *)
Lemma drain_leaves_by_exception (pending : list IntegrationDatum) :
  forall vol s o, drain_integration_data pending vol s = inl o ->
  exists e s1, o = Raised e s1.
Proof.
  induction pending as [|[[d c] p] rest IH]; intros vol s o Hd;
    simpl in Hd; [discriminate|].
  destruct (integrate_frame _ vol d c p); [eauto|].
  injection Hd as <-. eauto.
Qed.

(** What [stop_export] leaves of the node's fields when it returns: only the
    volume and the deferred buffer can differ. *)
Lemma stop_export_returns (req : StopRequest) (res r : Response)
    (out : list Output) (s s' : State) :
  stop_export req res s = Returned r out s' ->
  (tsdf_volume s = None /\ s' = s /\ success r = false) \/
  (exists vol, tsdf_volume s = Some vol /\ live_integration s = true /\
               s' = s /\ success r = true) \/
  (exists vol calls,
     tsdf_volume s = Some vol /\ live_integration s = false /\
     deferred_calls s (tsdf_integration_data s) = Ok calls /\
     List.length calls = List.length (tsdf_integration_data s) /\
     s' = set_tsdf_volume (Some (add_calls vol calls))
            (set_tsdf_integration_data [] s) /\
     success r = true).
Proof.
  unfold stop_export. intros H.
  destruct (tsdf_volume s) as [vol|] eqn:Hv.
  - destruct (live_integration s) eqn:Hl; simpl in H.
    + right. left. exists vol. rewrite Hv in H.
      destruct (post_process req s _); [|discriminate].
      injection H as <- _ <-. repeat split; reflexivity.
    + right. right.
      destruct (drain_integration_data _ vol s) as [o|s1] eqn:Hd.
      * apply drain_leaves_by_exception in Hd. destruct Hd as (e & s2 & ->).
        discriminate.
      * apply drain_returns in Hd; [|assumption|reflexivity].
        destruct Hd as (calls & Hc & Hlen & ->). simpl in H.
        destruct (post_process req _ _); [|discriminate].
        injection H as <- _ <-. exists vol, calls.
        repeat split; try assumption; reflexivity.
  - left. injection H as <- _ <-. repeat split; reflexivity.
Qed.

End Drain.

(** ** The keyframe gate *)

Section GateProperties.

Context {C : Collaborators}.

Lemma rejected_not_admitted (s : State) (f : SensorDatum)
    (rest : list SensorDatum) :
  ~ admitted s (set_sensor_data rest s) f.
Proof.
  destruct f as [[depth_img rgb_img] tf]. intros (_ & _ & H). simpl in H.
  apply (f_equal (@List.length _)) in H. rewrite length_app in H.
  simpl in H. lia.
Qed.

(** C3: a popped frame is admitted if and only if its translation distance
    to the previous accepted pose is [>=] the translation threshold or its
    quaternion distance is [>=] the rotation threshold; a translation
    distance equal to the threshold admits it, and a frame strictly below
    both thresholds is rejected, only leaving the queue. *)
Theorem keyframe_gate (s : State) (f : SensorDatum)
    (rest : list SensorDatum) :
  30 < frame_count s -> sensor_data s = f :: rest ->
  let s' := reconstructCallback s in
  (admitted s s' f <->
   geb (tran_dist s f) (translation_distance s) = true \/
   geb (rot_dist s f) (rotational_distance s) = true) /\
  ((tran_dist s f =? translation_distance s)%float = true ->
   admitted s s' f) /\
  ((tran_dist s f <? translation_distance s)%float = true ->
   (rot_dist s f <? rotational_distance s)%float = true ->
   s' = set_sensor_data rest s /\ ~ admitted s s' f).
Proof.
  intros Hw Hq s'. subst s'.
  destruct (geb (tran_dist s f) (translation_distance s)
            || geb (rot_dist s f) (rotational_distance s)) eqn:Hg.
  - pose proof (reconstructCallback_accept s f rest Hw Hq Hg)
      as (_ & _ & _ & Ha).
    split; [|split].
    + split; [intros _; now apply orb_true_iff | intros _; exact Ha].
    + intros _. exact Ha.
    + intros Ht Hr. apply ltb_not_geb in Ht. apply ltb_not_geb in Hr.
      rewrite Ht, Hr in Hg. discriminate.
  - rewrite (reconstructCallback_reject s f rest Hw Hq Hg).
    apply orb_false_iff in Hg. destruct Hg as [Ht Hr].
    split; [|split].
    + split.
      * intros Ha. now apply rejected_not_admitted in Ha.
      * intros [H | H]; congruence.
    + intros He. apply eqb_geb in He. congruence.
    + intros _ _. split; [reflexivity | apply rejected_not_admitted].
Qed.

(** C4: after every Start the previous pose is the identity; a tick that
    pops a frame makes the frame's pose the previous pose exactly when the
    gate admits it; no other callback writes the previous pose; and in every
    reachable state in which no frame has been accepted since the last Start
    the previous pose is still the identity. *)
Theorem prev_pose_tracks_accepted :
  (forall req res s,
     let s' := state_of (startReconstructionCallback req res s) in
     prev_pose_rot s' = (1.0, 0.0, 0.0, 0.0)%float /\
     prev_pose_tran s' = (0.0, 0.0, 0.0)%float) /\
  (forall s f rest,
     30 < frame_count s -> sensor_data s = f :: rest ->
     let s' := reconstructCallback s in
     (prev_pose_tran s', prev_pose_rot s') =
     if geb (tran_dist s f) (translation_distance s)
        || geb (rot_dist s f) (rotational_distance s)
     then frame_pose f
     else (prev_pose_tran s, prev_pose_rot s)) /\
  (forall s,
     frame_count s <= 30 \/ sensor_data s = [] ->
     prev_pose_tran (reconstructCallback s) = prev_pose_tran s /\
     prev_pose_rot (reconstructCallback s) = prev_pose_rot s) /\
  (forall d c ci res req s,
     let unchanged s' :=
       prev_pose_tran s' = prev_pose_tran s /\
       prev_pose_rot s' = prev_pose_rot s in
     unchanged (cameraCallback d c s) /\
     unchanged (cameraInfoCallback ci s) /\
     unchanged (state_of (pauseReconstructionCallback res s)) /\
     unchanged (state_of (resumeReconstructionCallback res s)) /\
     unchanged (set_record false s) /\
     (forall r out s', stop_export req res s = Returned r out s' ->
                       unchanged s')) /\
  (forall calls s,
     run calls init_state = Some s -> rgb_poses s = [] ->
     prev_pose_rot s = (1.0, 0.0, 0.0, 0.0)%float /\
     prev_pose_tran s = (0.0, 0.0, 0.0)%float).
Proof.
  split; [|split; [|split; [|split]]].
  - intros req res s. simpl. split; reflexivity.
  - intros s f rest Hw Hq s'. subst s'.
    destruct (geb (tran_dist s f) (translation_distance s)
              || geb (rot_dist s f) (rotational_distance s)) eqn:Hg.
    + destruct (reconstructCallback_accept s f rest Hw Hq Hg)
        as (_ & -> & -> & _).
      now destruct (frame_pose f).
    + now rewrite (reconstructCallback_reject s f rest Hw Hq Hg).
  - intros s H. now rewrite (reconstructCallback_idle s H).
  - intros d c ci res req s unchanged. subst unchanged. simpl.
    repeat split; try reflexivity.
    + destruct (cameraCallback_cases d c s) as [-> | (_ & _ & f & ->)];
        reflexivity.
    + destruct (cameraCallback_cases d c s) as [-> | (_ & _ & f & ->)];
        reflexivity.
    + unfold pauseReconstructionCallback. now destruct (record s).
    + unfold pauseReconstructionCallback. now destruct (record s).
    + unfold resumeReconstructionCallback. now destruct (paused s).
    + unfold resumeReconstructionCallback. now destruct (paused s).
    + apply stop_export_returns in H.
      destruct H as [(_ & -> & _) | [(vol & _ & _ & -> & _)
                                    | (vol & calls & _ & _ & _ & _ & -> & _)]];
        reflexivity.
    + apply stop_export_returns in H.
      destruct H as [(_ & -> & _) | [(vol & _ & _ & -> & _)
                                    | (vol & calls & _ & _ & _ & _ & -> & _)]];
        reflexivity.
  - intros calls s.
    set (P := fun s => rgb_poses s = [] ->
                       prev_pose_rot s = (1.0, 0.0, 0.0, 0.0)%float /\
                       prev_pose_tran s = (0.0, 0.0, 0.0)%float).
    apply (run_invariant P); [|intros _; split; reflexivity].
    apply (step_invariant P); subst P; cbv beta.
    + intros req res s0 _ _. split; reflexivity.
    + intros res s0 r out s' HP. unfold pauseReconstructionCallback.
      destruct (record s0); simpl; [discriminate|].
      intros [= _ _ <-]. exact HP.
    + intros res s0 HP. unfold resumeReconstructionCallback.
      now destruct (paused s0).
    + intros d c s0 HP.
      destruct (after_guard_cases d c s0) as [-> | (f & ->)]; exact HP.
    + intros s0 HP. exact HP.
    + intros f s0 HP.
      destruct (geb (tran_dist s0 f) (translation_distance s0)
                || geb (rot_dist s0 f) (rotational_distance s0)) eqn:Hg.
      * destruct (after_popleft_accept f s0 Hg) as (_ & _ & _ & Ha).
        destruct f as [[depth_img rgb_img] tf].
        destruct Ha as (_ & _ & Ha). intros E. rewrite E in Ha.
        now apply app_cons_not_nil in Ha.
      * rewrite (after_popleft_reject f s0 Hg). exact HP.
    + intros ci s0 HP. exact HP.
    + intros s0 HP. exact HP.
    + intros req res s0 r out s' HP H. apply stop_export_returns in H.
      destruct H as [(_ & -> & _) | [(vol & _ & _ & -> & _)
                                    | (vol & cs & _ & _ & _ & _ & -> & _)]];
        exact HP.
Qed.

End GateProperties.

(** ** Warm-up, pause and the drain barrier *)

Section Lifecycle.

Context {C : Collaborators}.

(** C5, as the code has it: the tick changes nothing while at most 30
    frames have been seen since Start or while the queue is empty; once
    more than 30 frames have been seen (the 31st has arrived) and the queue
    is not empty, it pops exactly the oldest frame. *)
Theorem warm_up_guard (s : State) :
  (frame_count s <= 30 \/ sensor_data s = [] -> reconstructCallback s = s) /\
  (30 < frame_count s -> sensor_data s <> [] ->
   exists f, sensor_data s = f :: sensor_data (reconstructCallback s)).
Proof.
  split.
  - apply reconstructCallback_idle.
  - intros Hw Hq. destruct (sensor_data s) as [|f rest] eqn:E;
      [congruence|].
    exists f. f_equal.
    destruct (geb (tran_dist s f) (translation_distance s)
              || geb (rot_dist s f) (rotational_distance s)) eqn:Hg.
    + now destruct (reconstructCallback_accept s f rest Hw E Hg) as (-> & _).
    + now rewrite (reconstructCallback_reject s f rest Hw E Hg).
Qed.

Lemma reconstructCallback_frame_count (s : State) :
  frame_count (reconstructCallback s) = frame_count s.
Proof.
  unfold reconstructCallback.
  destruct ((frame_count s <=? 30) || _); [reflexivity|].
  destruct (sensor_data s) as [|[[depth_img rgb_img] tf] rest];
    [reflexivity|].
  destruct (transformStampedToVectors tf) as [rgb_t rgb_r]. simpl.
  destruct (geb _ _ || geb _ _); [|reflexivity].
  destruct (live_integration s); [destruct (tsdf_volume s)|];
    try reflexivity.
  simpl. now destruct (integrate_frame _ _ _ _ _).
Qed.

Lemma reconstructCallback_set_paused (b : bool) (s : State) :
  reconstructCallback (set_paused b s) = set_paused b (reconstructCallback s).
Proof.
  unfold reconstructCallback. simpl.
  destruct ((frame_count s <=? 30) || _); [reflexivity|].
  destruct (sensor_data s) as [|[[depth_img rgb_img] tf] rest];
    [reflexivity|].
  destruct (transformStampedToVectors tf) as [rgb_t rgb_r]. simpl.
  destruct (geb _ _ || geb _ _); [|reflexivity].
  destruct (live_integration s); [destruct (tsdf_volume s)|];
    try reflexivity.
  unfold integrate_frame. simpl.
  destruct (linalg_inv _); simpl; [|reflexivity].
  now destruct (integrate _ _ _ _).
Qed.

Lemma reconstructCallback_set_record (b : bool) (s : State) :
  reconstructCallback (set_record b s) = set_record b (reconstructCallback s).
Proof.
  unfold reconstructCallback. simpl.
  destruct ((frame_count s <=? 30) || _); [reflexivity|].
  destruct (sensor_data s) as [|[[depth_img rgb_img] tf] rest];
    [reflexivity|].
  destruct (transformStampedToVectors tf) as [rgb_t rgb_r]. simpl.
  destruct (geb _ _ || geb _ _); [|reflexivity].
  destruct (live_integration s); [destruct (tsdf_volume s)|];
    try reflexivity.
  unfold integrate_frame. simpl.
  destruct (linalg_inv _); simpl; [|reflexivity].
  now destruct (integrate _ _ _ _).
Qed.

Lemma reconstructCallback_pops (s : State) :
  30 < frame_count s ->
  sensor_data (reconstructCallback s) = tl (sensor_data s).
Proof.
  intros Hw. destruct (sensor_data s) as [|f rest] eqn:Hq.
  - rewrite reconstructCallback_idle by now right. now rewrite Hq.
  - destruct (geb (tran_dist s f) (translation_distance s)
              || geb (rot_dist s f) (rotational_distance s)) eqn:Hg.
    + now destruct (reconstructCallback_accept s f rest Hw Hq Hg) as (-> & _).
    + now rewrite (reconstructCallback_reject s f rest Hw Hq Hg).
Qed.

Lemma ticks_empty_the_queue (n : nat) :
  forall s, 30 < frame_count s -> List.length (sensor_data s) = n ->
  sensor_data (run_background (repeat BgTick n) s) = [].
Proof.
  unfold run_background.
  induction n as [|n IH]; intros s Hw Hn; simpl.
  - now apply length_zero_iff_nil.
  - apply IH.
    + now rewrite reconstructCallback_frame_count.
    + rewrite (reconstructCallback_pops s Hw).
      destruct (sensor_data s); simpl in *; [discriminate | lia].
Qed.

Lemma admitted_by_gate (s : State) (f : SensorDatum)
    (rest : list SensorDatum) :
  30 < frame_count s -> sensor_data s = f :: rest ->
  admitted s (reconstructCallback s) f <->
  geb (tran_dist s f) (translation_distance s) = true \/
  geb (rot_dist s f) (rotational_distance s) = true.
Proof.
  intros Hw Hq.
  destruct (geb (tran_dist s f) (translation_distance s)
            || geb (rot_dist s f) (rotational_distance s)) eqn:Hg.
  - pose proof (reconstructCallback_accept s f rest Hw Hq Hg)
      as (_ & _ & _ & Ha).
    split; [intros _; now apply orb_true_iff | intros _; exact Ha].
  - rewrite (reconstructCallback_reject s f rest Hw Hq Hg).
    apply orb_false_iff in Hg. destruct Hg as [Ht Hr]. split.
    + intros Ha. now apply rejected_not_admitted in Ha.
    + intros [H | H]; congruence.
Qed.

(** Beside Stop the frames-seen counter grows only when a camera callback
    that is past its guard ends. *)
Lemma overlap_frame_count (o : Overlap) (t : Threads) :
  frame_count (fields (overlap o t)) <> frame_count (fields t) ->
  o = CameraEnds /\ camera_thread t <> None /\
  frame_count (fields (overlap o t)) = frame_count (fields t) + 1.
Proof.
  destruct o as [d c | | | | ci]; simpl.
  - destruct (camera_thread t); [congruence|].
    destruct (paused _ || negb _); simpl; congruence.
  - destruct (camera_thread t) as [[d c]|]; [|congruence].
    destruct (after_guard_cases d c (fields t)) as [E | (f & E)];
      simpl; rewrite E; simpl; [congruence|].
    intros _. repeat split. discriminate.
  - destruct (timer_thread t); [congruence|].
    destruct ((frame_count _ <=? 30) || _); [congruence|].
    destruct (sensor_data (fields t)); simpl; congruence.
  - destruct (timer_thread t) as [f|]; [|congruence]. simpl.
    pose proof (after_popleft_keeps f (fields t)) as (_ & E & _).
    congruence.
  - destruct (camera_thread t); simpl; congruence.
Qed.

(** C7, as the code has it: a camera callback that begins while the
    session is paused or not recording drops its frame at the guard and the
    node's fields stay as they were.  The tick reads neither flag: it does
    to a paused or stopped session exactly what it does to a recording one,
    so once more than 30 frames have been seen it keeps taking the oldest
    queued frame, puts it through the gate and leaves the flags alone, and
    as many ticks as there are queued frames empty the queue; with at most
    30 frames seen the tick pops nothing, paused or not.  The frames-seen
    counter grows only in [cameraCallback], by one, for a frame whose
    callback passed its guard while recording and not paused; beside Stop
    that is the callback which was already past its guard when Stop set
    [record] to false, and which still appends and counts its frame. *)
Theorem paused_frames_dropped :
  (forall d c s,
     paused s = true \/ record s = false -> cameraCallback d c s = s) /\
  (forall d c t,
     paused (fields t) = true \/ record (fields t) = false ->
     overlap (CameraBegins d c) t = t) /\
  (forall b s,
     reconstructCallback (set_paused b s)
     = set_paused b (reconstructCallback s) /\
     reconstructCallback (set_record b s)
     = set_record b (reconstructCallback s)) /\
  (forall s f rest,
     30 < frame_count s -> sensor_data s = f :: rest ->
     let s' := reconstructCallback s in
     sensor_data s' = rest /\
     (admitted s s' f <->
      geb (tran_dist s f) (translation_distance s) = true \/
      geb (rot_dist s f) (rotational_distance s) = true) /\
     paused s' = paused s /\ record s' = record s /\
     frame_count s' = frame_count s) /\
  (forall s,
     30 < frame_count s ->
     let s' :=
       run_background (repeat BgTick (List.length (sensor_data s))) s in
     sensor_data s' = [] /\ paused s' = paused s /\ record s' = record s) /\
  (forall s,
     frame_count s <= 30 -> reconstructCallback s = s) /\
  (forall d c s,
     frame_count (cameraCallback d c s) <> frame_count s ->
     record s = true /\ paused s = false /\
     frame_count (cameraCallback d c s) = frame_count s + 1) /\
  (forall o t,
     frame_count (fields (overlap o t)) <> frame_count (fields t) ->
     o = CameraEnds /\ camera_thread t <> None /\
     frame_count (fields (overlap o t)) = frame_count (fields t) + 1) /\
  (forall ci res req s,
     frame_count (reconstructCallback s) = frame_count s /\
     frame_count (cameraInfoCallback ci s) = frame_count s /\
     frame_count (state_of (pauseReconstructionCallback res s))
     = frame_count s /\
     frame_count (state_of (resumeReconstructionCallback res s))
     = frame_count s /\
     (forall r out s', stop_export req res s = Returned r out s' ->
                       frame_count s' = frame_count s)).
Proof.
  assert (Hflags : forall s,
            paused (reconstructCallback s) = paused s /\
            record (reconstructCallback s) = record s).
  { intros s. split.
    - pose proof (reconstructCallback_set_paused (paused s) s) as E.
      replace (set_paused (paused s) s) with s in E by now destruct s.
      rewrite E. reflexivity.
    - pose proof (reconstructCallback_set_record (record s) s) as E.
      replace (set_record (record s) s) with s in E by now destruct s.
      rewrite E. reflexivity. }
  split; [|split; [|split; [|split; [|split; [|split; [|split; [|split]]]]]]].
  - intros d c s. apply cameraCallback_dropped.
  - intros d c t H. simpl. destruct (camera_thread t); [reflexivity|].
    destruct H as [-> | ->]; simpl; [reflexivity|].
    now rewrite orb_true_r.
  - intros b s. split;
      [apply reconstructCallback_set_paused
      |apply reconstructCallback_set_record].
  - intros s f rest Hw Hq s'. subst s'.
    destruct (Hflags s) as [Hp Hr].
    split; [|split; [|split; [exact Hp|split; [exact Hr|]]]].
    + rewrite (reconstructCallback_pops s Hw). now rewrite Hq.
    + now apply (admitted_by_gate s f rest).
    + apply reconstructCallback_frame_count.
  - intros s Hw s'. subst s'. split.
    + now apply ticks_empty_the_queue.
    + unfold run_background.
      generalize (List.length (sensor_data s)). intros n. revert s Hw.
      induction n as [|n IH]; intros s Hw; simpl; [now split|].
      destruct (Hflags s) as [Hp Hr].
      destruct (IH (reconstructCallback s)) as [Hp' Hr'].
      * now rewrite reconstructCallback_frame_count.
      * split; congruence.
  - intros s H. apply reconstructCallback_idle. now left.
  - intros d c s H.
    destruct (cameraCallback_cases d c s) as [E | (Hr & Hp & f & E)];
      rewrite E in *; [congruence|]. now repeat split.
  - apply overlap_frame_count.
  - intros ci res req s. repeat split.
    + apply reconstructCallback_frame_count.
    + unfold pauseReconstructionCallback. now destruct (record s).
    + unfold resumeReconstructionCallback. now destruct (paused s).
    + intros r out s' H. apply stop_export_returns in H.
      destruct H as [(_ & -> & _) | [(vol & _ & _ & -> & _)
                                    | (vol & calls & _ & _ & _ & _ & -> & _)]];
        reflexivity.
Qed.

Lemma overlap_stuck (o : Overlap) (t : Threads) :
  stuck t -> stuck (overlap o t).
Proof.
  intros H. pose proof H as (Hr & Hq & Ht & Hf).
  destruct o as [d c | | | | ci]; simpl.
  - destruct (camera_thread t) eqn:Hc; [exact H|].
    rewrite Hr. simpl. rewrite orb_true_r. exact H.
  - destruct (camera_thread t) as [[d c]|] eqn:Hc; [|exact H].
    destruct (after_guard_cases d c (fields t)) as [-> | (f & ->)];
      unfold stuck; simpl.
    + repeat split; auto. lia.
    + repeat split; auto; [|lia].
      intros E. now apply app_eq_nil in E as [_ E].
  - rewrite Ht.
    assert (E : (frame_count (fields t) <=? 30) = true)
      by (apply Z.leb_le; destruct (camera_thread t); lia).
    rewrite E. simpl. exact H.
  - rewrite Ht. exact H.
  - destruct (camera_thread t) eqn:Hc; [exact H|].
    unfold stuck. simpl. rewrite Hc. now repeat split.
Qed.

Lemma stuck_barrier (t : Threads) :
  stuck t -> drain_barrier (fields t) = false.
Proof.
  intros (_ & Hq & _). unfold drain_barrier.
  destruct (sensor_data (fields t)); [congruence|].
  simpl. apply andb_false_r.
Qed.

Lemma stop_begins_stuck (sched : Schedule) (s : State) :
  sensor_data s <> [] -> frame_count s + frames_in_flight sched <= 30 ->
  stuck (stop_begins sched s).
Proof.
  intros Hq Hf. unfold stop_begins, frames_in_flight in *.
  assert (H1 : sensor_data s <> [] /\
               timer_thread
                 (match camera_running sched with
                  | Some (d, c) => overlap (CameraBegins d c) (idle s)
                  | None => idle s
                  end) = None /\
               fields
                 (match camera_running sched with
                  | Some (d, c) => overlap (CameraBegins d c) (idle s)
                  | None => idle s
                  end) = s /\
               frame_count s
               + (match camera_thread
                          (match camera_running sched with
                           | Some (d, c) => overlap (CameraBegins d c) (idle s)
                           | None => idle s
                           end) with
                  | Some _ => 1
                  | None => 0
                  end) <= 30).
  { destruct (camera_running sched) as [[d c]|]; simpl.
    - destruct (paused s || negb (record s)); simpl; repeat split; auto; lia.
    - repeat split; auto. }
  destruct H1 as (_ & Ht & Hs & Hc).
  set (t1 := match camera_running sched with
             | Some (d, c) => overlap (CameraBegins d c) (idle s)
             | None => idle s
             end) in *.
  assert (E : overlap TickBegins t1 = t1).
  { simpl. rewrite Ht, Hs.
    assert (E : (frame_count s <=? 30) = true)
      by (apply Z.leb_le; destruct (camera_thread t1); lia).
    now rewrite E. }
  assert (E2 : (if tick_running sched then overlap TickBegins t1 else t1)
               = t1) by (destruct (tick_running sched); auto).
  rewrite E2. unfold stuck. simpl. rewrite Hs. simpl.
  repeat split; auto.
Qed.

Lemma stop_wait_stuck (sleeps : list (list Overlap)) :
  forall t, stuck t -> stop_wait sleeps t = None.
Proof.
  induction sleeps as [|os sleeps IH]; intros t H; simpl;
    rewrite (stuck_barrier t H); [reflexivity|].
  apply IH. now apply (run_overlaps_invariant stuck overlap_stuck).
Qed.

(** C10, as the code has it: when Stop is called with a non-empty queue
    and, counting the frame of a camera callback that is already past its
    guard, at most 30 frames seen, then whatever the other threads do
    beside Stop the queue stays non-empty, the counter stays at 30 or below
    and [record] stays false, so the drain barrier stays false and the wait
    loop is still waiting at the end of every schedule. *)
Theorem stop_waits_forever (req : StopRequest) (res : Response)
    (sched : Schedule) (s : State) :
  sensor_data s <> [] -> frame_count s + frames_in_flight sched <= 30 ->
  (forall steps,
     let t := run_overlaps steps (stop_begins sched s) in
     sensor_data (fields t) <> [] /\ frame_count (fields t) <= 30 /\
     record (fields t) = false /\ drain_barrier (fields t) = false) /\
  stopReconstructionCallback req res sched s = None.
Proof.
  intros Hq Hf. pose proof (stop_begins_stuck sched s Hq Hf) as H0. split.
  - intros steps t. subst t.
    pose proof (run_overlaps_invariant stuck overlap_stuck steps _ H0) as H.
    pose proof (stuck_barrier _ H) as Hb.
    destruct H as (Hr & Hq1 & _ & Hf1).
    repeat split; auto.
    destruct (camera_thread (run_overlaps steps (stop_begins sched s))); lia.
  - unfold stopReconstructionCallback, stop_run, stop_barrier.
    now rewrite (stop_wait_stuck _ _ H0).
Qed.

End Lifecycle.

(** C2 fails on the code: called while a recording is active, Pause sets
    [paused] and then raises [TypeError] at [len(self.sensor_data > 0)], so
    it returns no response at all. *)
Theorem pause_while_recording_raises :
  let s := state_after [Start (start_request false)] in
  record s = true /\
  pauseReconstructionCallback fresh_response s
  = Raised TypeError (set_paused true s).
Proof. split; reflexivity. Qed.

(** Pause never answers [success = true]: it answers only when no recording
    is active, and then with [success = false] and the fields untouched. *)
Lemma pause_returns_only_failure (res r : Response) (out : list Output)
    (s s' : State) :
  pauseReconstructionCallback res s = Returned r out s' ->
  record s = false /\ success r = false /\ s' = s /\
  message r
  = "Cannot pause reconstruction that was never started. Doing nothing"%string.
Proof.
  unfold pauseReconstructionCallback.
  destruct (record s); simpl; [discriminate|].
  intros [= <- _ <-]. repeat split.
Qed.

(** ** What Stop leaves behind *)

Section Accounting.

Context {C : Collaborators}.

Lemma after_popleft_accounted (f : SensorDatum) (s : State) :
  accounted s -> accounted (reconstructCallback_after_popleft f s).
Proof.
  intros Hacc. pose proof Hacc as (Hd & Hr & Hv).
  unfold reconstructCallback_after_popleft.
  destruct f as [[depth_img rgb_img] tf].
  destruct (transformStampedToVectors tf) as [rgb_t rgb_r]. simpl.
  destruct (geb _ _ || geb _ _); [|exact Hacc].
  destruct (live_integration s) eqn:Hl;
    [destruct (tsdf_volume s) as [vol|] eqn:Hvol|]; simpl.
  - destruct (Hv vol eq_refl) as [Hn Hb]. specialize (Hb eq_refl).
    unfold integrate_frame, integrate. simpl.
    destruct (linalg_inv _) as [ext|e]; simpl;
      [destruct (integrate_raises vol _); simpl|].
    + split; [reflexivity|]. split; [exact Hr|]. simpl.
      intros vol' E. rewrite Hvol in E. injection E as <-. now split.
    + split; [reflexivity|]. split; [exact Hr|]. simpl.
      intros vol' E. injection E as <-. simpl. split; [|now intros _].
      rewrite Hb in *. rewrite length_app. simpl in *. lia.
    + split; [reflexivity|]. split; [exact Hr|]. simpl.
      intros vol' E. rewrite Hvol in E. injection E as <-. now split.
  - split; [exact Hd|]. split; [exact Hr|]. simpl.
    intros vol' E. rewrite Hvol in E. discriminate.
  - split; [exact Hd|]. split; [exact Hr|]. simpl.
    intros vol' E. destruct (Hv vol' E) as [Hn _].
    split; [|rewrite Hl; discriminate].
    rewrite length_app. simpl. lia.
Qed.

Lemma export_accounted (req : StopRequest) (res r : Response)
    (out : list Output) (s s' : State) :
  accounted s -> stop_export req res s = Returned r out s' -> accounted s'.
Proof.
  intros HP H. pose proof HP as (Hd & Hr & Hv).
  apply stop_export_returns in H.
  destruct H as [(_ & -> & _) | [(vol & _ & _ & -> & _)
    | (vol & calls & Hvol & Hl & _ & Hlen & -> & _)]];
    try exact HP.
  split; [exact Hd|]. split; [exact Hr|]. simpl.
  intros vol' E. injection E as <-. simpl.
  destruct (Hv vol Hvol) as [Hn _].
  split; [|reflexivity]. rewrite length_app. lia.
Qed.

Lemma step_accounted (c : Call) (s s' : State) :
  accounted s -> step c s = Some s' -> accounted s'.
Proof.
  revert c s s'. apply (step_invariant accounted).
  - intros req res s (Hd & _ & _). simpl.
    split; [exact Hd|]. split; [reflexivity|]. simpl.
    intros vol E. injection E as <-. now split.
  - intros res s r out s' HP H.
    unfold pauseReconstructionCallback in H.
    destruct (record s); simpl in H; [discriminate|].
    now injection H as _ _ <-.
  - intros res s HP. unfold resumeReconstructionCallback.
    now destruct (paused s).
  - intros d c s HP.
    destruct (after_guard_cases d c s) as [-> | (f & ->)]; exact HP.
  - intros s HP. exact HP.
  - intros f s. apply after_popleft_accounted.
  - intros ci s HP. exact HP.
  - intros s HP. exact HP.
  - intros req res s r out s'. apply export_accounted.
Qed.

Lemma run_accounted (calls : list Call) (s : State) :
  run calls init_state = Some s -> accounted s.
Proof.
  apply (run_invariant accounted).
  - apply step_accounted.
  - split; [reflexivity|]. split; [reflexivity|]. discriminate.
Qed.

Lemma export_keeps_volume (req : StopRequest) (res r : Response)
    (out : list Output) (s s' : State) :
  tsdf_volume s <> None -> stop_export req res s = Returned r out s' ->
  tsdf_volume s' <> None.
Proof.
  intros HP H. apply stop_export_returns in H.
  destruct H as [(_ & -> & _) | [(vol & _ & _ & -> & _)
    | (vol & calls & _ & _ & _ & _ & -> & _)]];
    try exact HP.
  simpl. discriminate.
Qed.

Lemma step_keeps_volume (c : Call) (s s' : State) :
  tsdf_volume s <> None -> step c s = Some s' -> tsdf_volume s' <> None.
Proof.
  revert c s s'.
  apply (step_invariant (fun s => tsdf_volume s <> None)).
  - intros req res s _. simpl. discriminate.
  - intros res s r out s' HP H.
    unfold pauseReconstructionCallback in H.
    destruct (record s); simpl in H; [discriminate|].
    now injection H as _ _ <-.
  - intros res s HP. unfold resumeReconstructionCallback.
    now destruct (paused s).
  - intros d c s HP.
    destruct (after_guard_cases d c s) as [-> | (f & ->)]; exact HP.
  - intros s HP. exact HP.
  - intros f s HP. now apply after_popleft_keeps.
  - intros ci s HP. exact HP.
  - intros s HP. exact HP.
  - intros req res s r out s'. apply export_keeps_volume.
Qed.

(** A run in which Start was called ends with a volume in place. *)
Lemma run_started (calls : list Call) :
  forall s0 s, started calls -> run calls s0 = Some s ->
  tsdf_volume s <> None.
Proof.
  induction calls as [|c calls IH]; intros s0 s [req Hin] Hrun.
  - destruct Hin.
  - simpl in Hrun. destruct (step c s0) as [s1|] eqn:Hstep; [|discriminate].
    destruct Hin as [-> | Hin].
    + cbn [step serve] in Hstep. apply Some_inj in Hstep. subst s1.
      revert Hrun. apply (run_invariant (fun s => tsdf_volume s <> None)).
      * apply step_keeps_volume.
      * simpl. discriminate.
    + eapply IH; [exists req; exact Hin | exact Hrun].
Qed.

(** What holds when Stop's wait loop ends in a session that was started. *)
Lemma barrier_accounted (sched : Schedule) (s : State) (t : Threads) :
  accounted s -> tsdf_volume s <> None ->
  stop_barrier sched s = Some t ->
  accounted (fields t) /\ tsdf_volume (fields t) <> None /\
  record (fields t) = false /\ sensor_data (fields t) = [].
Proof.
  intros Hacc Hvol Hb. unfold stop_barrier in Hb.
  set (P := fun s : State => accounted s /\ tsdf_volume s <> None).
  set (Q := fun t : Threads => P (fields t) /\ record (fields t) = false).
  assert (HoP : forall o t0, P (fields t0) -> P (fields (overlap o t0))).
  { apply (overlap_fields P); subst P; cbv beta.
    - intros d c s0 HP.
      destruct (after_guard_cases d c s0) as [-> | (f & ->)]; exact HP.
    - intros s0 HP. exact HP.
    - intros f s0 (H1 & H2).
      split; [now apply after_popleft_accounted
             |now apply after_popleft_keeps].
    - intros ci s0 HP. exact HP. }
  assert (Ho : forall o t0, Q t0 -> Q (overlap o t0)).
  { intros o t0 [HP Hr]. split; [now apply HoP|].
    apply (overlap_fields (fun s => record s = false)); [| | | |exact Hr].
    - intros d c s0 H.
      destruct (after_guard_cases d c s0) as [-> | (f & ->)]; exact H.
    - intros s0 H. exact H.
    - intros f s0 H.
      pose proof (after_popleft_keeps f s0) as (_ & _ & E & _). congruence.
    - intros ci s0 H. exact H. }
  assert (H0 : Q (stop_begins sched s)).
  { split; [|reflexivity].
    apply (stop_begins_invariant (fun t => P (fields t))); auto.
    split; assumption. }
  destruct (stop_wait_invariant Q Ho _ _ _ H0 Hb) as [[[H1 H2] H3] Hbar].
  split; [exact H1|]. split; [exact H2|]. split; [exact H3|].
  unfold drain_barrier in Hbar. apply andb_true_iff in Hbar.
  destruct Hbar as [_ Hbar]. apply Nat.eqb_eq in Hbar.
  now apply length_zero_iff_nil.
Qed.

(** C1, as the code has it: when Stop returns in a session that was
    started, and no camera callback or tick that began earlier is still
    running when Stop's wait loop ends, then the capture queue and the
    deferred buffer are empty, [reconstructed_frame_count] is 0 (nothing
    ever increments it), the number of frames the volume has integrated
    equals [processed_frame_count], and the fields stay as Stop returned
    them until the next call. *)
Theorem stop_leaves_nothing_pending (calls : list Call) (req : StopRequest)
    (sched : Schedule) (s s' : State) (t : Threads) (r : Response)
    (out : list Output) :
  started calls -> run calls init_state = Some s ->
  stop_barrier sched s = Some t ->
  camera_thread t = None -> timer_thread t = None ->
  stopReconstructionCallback req fresh_response sched s
  = Some (Returned r out s') ->
  sensor_data s' = [] /\
  tsdf_integration_data s' = [] /\
  reconstructed_frame_count s' = 0 /\
  (exists vol, tsdf_volume s' = Some vol /\
               Z.of_nat (List.length (integrated vol))
               = processed_frame_count s') /\
  step (Stop req sched) s = Some s'.
Proof.
  intros Hstarted Hrun Hbar Hcam Htick Hstop.
  pose proof (run_accounted calls s Hrun) as Hacc.
  pose proof (run_started calls _ s Hstarted Hrun) as Hvol.
  destruct (barrier_accounted sched s t Hacc Hvol Hbar)
    as (Hacc1 & Hvol1 & _ & Hq).
  destruct (stop_run_idle req fresh_response sched s t Hbar Hcam Htick)
    as [Hrun1 Hsettle].
  unfold stopReconstructionCallback in Hstop. rewrite Hrun1 in Hstop.
  apply Some_inj in Hstop.
  assert (Hstep : step (Stop req sched) s = Some s').
  { cbn [step]. rewrite Hrun1, Hstop. f_equal.
    rewrite Hstop in Hsettle. exact Hsettle. }
  destruct Hacc1 as (Hd & Hr & Hv).
  apply stop_export_returns in Hstop.
  destruct Hstop as [(Hnone & _) | [(vol & Hvol' & Hl & -> & _)
    | (vol & cs & Hvol' & Hl & _ & Hlen & -> & _)]].
  - contradiction.
  - destruct (Hv vol Hvol') as [Hn He]. rewrite (He Hl) in *.
    repeat split; try assumption. exists vol. split; [assumption|].
    simpl in Hn. lia.
  - destruct (Hv vol Hvol') as [Hn _].
    repeat split; try assumption. eexists. split; [reflexivity|].
    simpl. rewrite length_app. lia.
Qed.

End Accounting.

(** ** Deferred integration *)

Section Deferred.

Context {C : Collaborators}.

(** Each call for a buffer entry carries that entry's colour and depth
    images, the session's depth parameters and intrinsics, and the inverse of
    the entry's pose. *)
Lemma deferred_calls_pointwise (s : State) (pending : list IntegrationDatum) :
  forall calls, deferred_calls s pending = Ok calls ->
  Forall2 (fun d call =>
             let '(depth_img, rgb_img, rgb_pose) := d in
             linalg_inv rgb_pose = Ok (ic_extrinsic call) /\
             ic_rgbd call
             = create_from_color_and_depth rgb_img depth_img (depth_scale s)
                 (depth_trunc s) false /\
             ic_intrinsics call = intrinsics s)
          pending calls.
Proof.
  induction pending as [|[[depth_img rgb_img] rgb_pose] rest IH];
    intros calls H; simpl in H.
  - injection H as <-. constructor.
  - destruct (linalg_inv rgb_pose) as [ext|e] eqn:Hinv; simpl in H;
      [|discriminate].
    destruct (deferred_calls s rest) as [calls'|e]; simpl in H;
      [|discriminate].
    injection H as <-. constructor; [|now apply IH].
    simpl. now repeat split.
Qed.

(** C6: in deferred mode a tick that admits a frame appends its (depth,
    colour, pose) triple to the back of the deferred buffer and leaves the
    volume alone; neither background callbacks nor Pause and Resume touch the
    volume; and when Stop's export returns, the buffer is empty, the volume
    has taken one integrate call per buffered triple, in buffer order, each
    with the inverse of the triple's pose, and the mesh written is extracted
    from that volume.  The export does return when every pose has an
    inverse, the engine takes every call and the mesh filtering succeeds. *)
Theorem deferred_mode_integration :
  (forall s depth_img rgb_img tf rest,
     live_integration s = false ->
     30 < frame_count s -> sensor_data s = (depth_img, rgb_img, tf) :: rest ->
     geb (tran_dist s (depth_img, rgb_img, tf)) (translation_distance s)
     || geb (rot_dist s (depth_img, rgb_img, tf)) (rotational_distance s)
     = true ->
     let s' := reconstructCallback s in
     tsdf_integration_data s'
     = tsdf_integration_data s
       ++ [(depth_img, rgb_img, frame_matrix (depth_img, rgb_img, tf))] /\
     tsdf_volume s' = tsdf_volume s) /\
  (forall b res s,
     live_integration s = false ->
     tsdf_volume (background b s) = tsdf_volume s /\
     live_integration (background b s) = false /\
     tsdf_volume (state_of (pauseReconstructionCallback res s))
     = tsdf_volume s /\
     tsdf_volume (state_of (resumeReconstructionCallback res s))
     = tsdf_volume s) /\
  (forall req res s vol r out s',
     live_integration s = false -> tsdf_volume s = Some vol ->
     stop_export req res s = Returned r out s' ->
     exists calls mesh,
       Forall2 (fun d call =>
                  let '(depth_img, rgb_img, rgb_pose) := d in
                  linalg_inv rgb_pose = Ok (ic_extrinsic call) /\
                  ic_rgbd call
                  = create_from_color_and_depth rgb_img depth_img
                      (depth_scale s) (depth_trunc s) false /\
                  ic_intrinsics call = intrinsics s)
               (tsdf_integration_data s) calls /\
       tsdf_volume s' = Some (add_calls vol calls) /\
       tsdf_integration_data s' = [] /\
       post_process req s' (extract_triangle_mesh (add_calls vol calls))
       = Ok mesh /\
       In (WriteTriangleMesh (mesh_filepath req) mesh) out) /\
  (forall req res s vol calls mesh,
     live_integration s = false -> tsdf_volume s = Some vol ->
     (forall v c, integrate_raises v c = None) ->
     deferred_calls s (tsdf_integration_data s) = Ok calls ->
     post_process req s (extract_triangle_mesh (add_calls vol calls))
     = Ok mesh ->
     exists r out s', stop_export req res s = Returned r out s').
Proof.
  split; [|split; [|split]].
  - intros s depth_img rgb_img tf rest Hl Hw Hq Hg. unfold reconstructCallback.
    rewrite (warm_guard s _ rest Hw Hq), Hq.
    unfold tran_dist, rot_dist, frame_matrix, frame_pose in *.
    destruct (transformStampedToVectors tf) as [rgb_t rgb_r].
    simpl in *. rewrite Hg, Hl. simpl. split; reflexivity.
  - intros b res s Hl. repeat split.
    + destruct b as [d c | | ci]; simpl.
      * destruct (cameraCallback_cases d c s) as [-> | (_ & _ & f & ->)];
          reflexivity.
      * unfold reconstructCallback.
        destruct ((frame_count s <=? 30) || _); [reflexivity|].
        destruct (sensor_data s) as [|[[depth_img rgb_img] tf] rest];
          [reflexivity|].
        destruct (transformStampedToVectors tf) as [rgb_t rgb_r]. simpl.
        destruct (geb _ _ || geb _ _); [|reflexivity].
        rewrite Hl. reflexivity.
      * reflexivity.
    + destruct b as [d c | | ci]; simpl.
      * destruct (cameraCallback_cases d c s) as [-> | (_ & _ & f & ->)];
          exact Hl.
      * unfold reconstructCallback.
        destruct ((frame_count s <=? 30) || _); [exact Hl|].
        destruct (sensor_data s) as [|[[depth_img rgb_img] tf] rest];
          [exact Hl|].
        destruct (transformStampedToVectors tf) as [rgb_t rgb_r]. simpl.
        destruct (geb _ _ || geb _ _); [|exact Hl].
        rewrite Hl. exact Hl.
      * exact Hl.
    + unfold pauseReconstructionCallback. now destruct (record s).
    + unfold resumeReconstructionCallback. now destruct (paused s).
  - intros req res s vol r out s' Hl Hv H.
    unfold stop_export in H. rewrite Hv, Hl in H. simpl in H.
    destruct (drain_integration_data _ vol s) as [o|s1] eqn:Hd.
    + apply drain_leaves_by_exception in Hd. destruct Hd as (e & s2 & ->).
      discriminate.
    + apply drain_returns in Hd; [|assumption|reflexivity].
      destruct Hd as (calls & Hc & Hlen & ->). simpl in H.
      destruct (post_process req _ _) as [mesh|e] eqn:Hpp; [|discriminate].
      injection H as <- <- <-. exists calls, mesh.
      split; [now apply deferred_calls_pointwise|].
      split; [reflexivity|]. split; [reflexivity|].
      split; [exact Hpp | now left].
  - intros req res s vol calls mesh Hl Hv Hno Hc Hpp.
    unfold stop_export. rewrite Hv, Hl. simpl.
    destruct (drain_total _ vol s calls Hno Hc) as [s1 Hd].
    rewrite Hd.
    apply drain_returns in Hd; [|assumption|reflexivity].
    destruct Hd as (calls' & Hc' & _ & ->).
    assert (calls' = calls) by congruence. subst calls'. simpl.
    change (post_process req (set_tsdf_volume (Some (add_calls vol calls))
                                (set_tsdf_integration_data [] s)))
      with (post_process req s).
    rewrite Hpp. eauto.
Qed.

End Deferred.

(** ** Mesh filtering *)

Lemma remove_by_mask_map {A : Type} (f : A -> bool) (l : list A) :
  remove_by_mask l (map f l) = filter (fun x => negb (f x)) l.
Proof.
  induction l as [|x l IH]; simpl; [reflexivity|].
  rewrite IH. now destruct (f x).
Qed.

Lemma filter_both {A : Type} (f g : A -> bool) (l : list A) :
  filter g (filter f l) = filter (fun x => f x && g x) l.
Proof.
  induction l as [|x l IH]; simpl; [reflexivity|].
  destruct (f x); simpl; [destruct (g x)|]; now rewrite IH.
Qed.

Lemma remove_by_mask_combine {A B : Type} (f : B -> bool) (l : list A)
    (tags : list B) :
  List.length tags = List.length l ->
  remove_by_mask l (map f tags)
  = map fst (filter (fun xt => negb (f (snd xt))) (combine l tags)).
Proof.
  revert tags. induction l as [|x l IH]; intros [|t tags] H; simpl in *;
    try reflexivity; try discriminate.
  injection H as H. rewrite (IH tags H). now destruct (f t).
Qed.

Lemma take_indices_in_range (a : list Z) (idx : list nat) :
  Forall (fun i => (i < List.length a)%nat) idx ->
  take_indices a idx = Ok (map (fun i => nth i a 0) idx).
Proof.
  induction 1 as [|i idx Hi _ IH]; simpl; [reflexivity|].
  destruct (nth_error a i) as [v|] eqn:E.
  - rewrite IH. simpl. now rewrite (nth_error_nth a i 0 E).
  - apply nth_error_None in E. lia.
Qed.

(** The [j]-th number below [n] that satisfies [P] has exactly [j] such
    numbers before it. *)
Lemma filter_seq_rank (P : nat -> bool) (n j : nat) :
  (j < List.length (filter P (seq 0 n)))%nat ->
  let i := nth j (filter P (seq 0 n)) 0%nat in
  P i = true /\ List.length (filter P (seq 0 i)) = j.
Proof.
  induction n as [|n IH]; [simpl; lia|].
  rewrite seq_S, filter_app. simpl. intros Hj.
  destruct (Nat.lt_ge_cases j (List.length (filter P (seq 0 n))))
    as [Hlt | Hge].
  - rewrite app_nth1 by exact Hlt. now apply IH.
  - rewrite length_app in Hj. destruct (P n) eqn:HP; simpl in Hj; [|lia].
    assert (j = List.length (filter P (seq 0 n))) as -> by lia.
    rewrite nth_middle. now split.
Qed.

Lemma filter_combine_seq_length {A : Type} (P : nat -> bool) (vs : list A) :
  forall a,
  List.length (filter (fun iv => P (fst iv))
                 (combine (seq a (List.length vs)) vs))
  = List.length (filter P (seq a (List.length vs))).
Proof.
  induction vs as [|v vs IH]; intros a; simpl; [reflexivity|].
  destruct (P a); simpl; now rewrite IH.
Qed.

(** After [remove_unreferenced_vertices] some triangle refers to every
    vertex. *)
Lemma remove_unreferenced_vertices_referenced (mesh : TriangleMesh)
    (j : nat) :
  (j < List.length (vertices (remove_unreferenced_vertices mesh)))%nat ->
  referenced (triangles (remove_unreferenced_vertices mesh)) j = true.
Proof.
  unfold remove_unreferenced_vertices. simpl.
  rewrite length_map, filter_combine_seq_length. intros Hj.
  destruct (filter_seq_rank _ _ _ Hj) as [HP Hrank].
  set (i := nth j (filter (referenced (triangles mesh))
                     (seq 0 (List.length (vertices mesh)))) 0%nat) in *.
  unfold referenced in HP. apply existsb_exists in HP.
  destruct HP as ([[a b] c] & Hin & Href).
  unfold referenced. apply existsb_exists.
  exists (new_index (triangles mesh) a, new_index (triangles mesh) b,
          new_index (triangles mesh) c).
  split.
  - apply (in_map (fun t => let '(a, b, c) := t in
                            (new_index (triangles mesh) a,
                             new_index (triangles mesh) b,
                             new_index (triangles mesh) c)) _ _ Hin).
  - simpl in *. unfold new_index.
    apply orb_true_iff in Href. destruct Href as [Href | Href];
      [apply orb_true_iff in Href; destruct Href as [Href | Href]|];
      apply Nat.eqb_eq in Href; rewrite Href, Hrank, Nat.eqb_refl;
      rewrite ?orb_true_r; reflexivity.
Qed.

Section MeshFilters.

Context {C : Collaborators}.

Lemma filterNormals_filter (mesh : TriangleMesh) (direction : Vec3)
    (angle : float) :
  filterNormals mesh direction angle
  = Ok (mkMesh (vertices mesh)
          (filter (filter_keeps mesh direction angle) (triangles mesh))).
Proof.
  unfold filterNormals, remove_triangles_by_mask.
  rewrite !map_map, length_map, Nat.eqb_refl, remove_by_mask_map.
  reflexivity.
Qed.

(** C8, as the code has it: a normal filter keeps a triangle if and only if
    the product of its normal with the filter direction is not below the
    cosine of the filter angle, which is [>=] whenever neither number is NaN;
    two filters applied one after the other keep exactly the triangles both
    keep, so they remove the union of what each removes, in either order. *)
Theorem normal_filters_compose (mesh : TriangleMesh) (A B : NormalFilter) :
  (forall direction angle,
     filterNormals mesh direction angle
     = Ok (mkMesh (vertices mesh)
             (filter (filter_keeps mesh direction angle) (triangles mesh)))) /\
  (forall direction angle t,
     is_nan (matmul_row (triangle_normal (vertices mesh) t) direction) = false ->
     is_nan (np_cos angle) = false ->
     filter_keeps mesh direction angle t
     = geb (matmul_row (triangle_normal (vertices mesh) t) direction)
           (np_cos angle)) /\
  (let keeps F :=
     filter_keeps mesh (normal_direction F) (np_radians (angle F)) in
   let both :=
     mkMesh (vertices mesh)
       (filter (fun t => keeps A t && keeps B t) (triangles mesh)) in
   apply_normal_filters [A; B] mesh = Ok both /\
   apply_normal_filters [B; A] mesh = Ok both).
Proof.
  split; [|split].
  - intros direction angle. apply filterNormals_filter.
  - intros direction angle t Hd Hc. unfold filter_keeps.
    now apply not_ltb_geb.
  - intros keeps both. subst keeps both. simpl.
    rewrite !filterNormals_filter. simpl.
    rewrite !filterNormals_filter. simpl.
    unfold filter_keeps at 1 3. simpl.
    fold (filter_keeps mesh (normal_direction B) (np_radians (angle B))).
    fold (filter_keeps mesh (normal_direction A) (np_radians (angle A))).
    rewrite !filter_both. split; [reflexivity|].
    do 2 f_equal. apply filter_ext. intros t. apply andb_comm.
Qed.

(** C9: given the clusters the engine reports for the mesh (one label per
    triangle, each label within the list of cluster sizes), the
    connected-component step keeps exactly the triangles whose cluster has
    at least [min_num_faces] triangles, so a cluster of exactly that size
    stays and a smaller one goes, and then drops the vertices no kept
    triangle refers to, so that every vertex left is referenced; the sizes
    may be read off the labels when the engine reports them consistently;
    and with clusters of 5 and 50 triangles and [min_num_faces = 10] only
    the 50 triangles remain. *)
Theorem small_clusters_removed (mesh : TriangleMesh) (min_num_faces : Z)
    (triangle_clusters : list nat) (cluster_n_triangles : list Z)
    (cluster_area : list float) :
  cluster_connected_triangles mesh
  = (triangle_clusters, cluster_n_triangles, cluster_area) ->
  List.length triangle_clusters = List.length (triangles mesh) ->
  Forall (fun l => (l < List.length cluster_n_triangles)%nat)
         triangle_clusters ->
  let kept :=
    map fst
      (filter (fun tl => min_num_faces <=? nth (snd tl) cluster_n_triangles 0)
              (combine (triangles mesh) triangle_clusters)) in
  remove_small_clusters mesh min_num_faces
  = Ok (remove_unreferenced_vertices (mkMesh (vertices mesh) kept)) /\
  (forall j,
     let result := remove_unreferenced_vertices (mkMesh (vertices mesh) kept) in
     (j < List.length (vertices result))%nat ->
     referenced (triangles result) j = true) /\
  ((forall l, (l < List.length cluster_n_triangles)%nat ->
      nth l cluster_n_triangles 0
      = Z.of_nat (count_occ Nat.eq_dec triangle_clusters l)) ->
   kept
   = map fst
       (filter (fun tl =>
                  min_num_faces
                  <=? Z.of_nat (count_occ Nat.eq_dec triangle_clusters
                                  (snd tl)))
               (combine (triangles mesh) triangle_clusters))) /\
  (triangle_clusters = repeat 0%nat 5 ++ repeat 1%nat 50 ->
   cluster_n_triangles = [5; 50] -> min_num_faces = 10 ->
   kept = skipn 5 (triangles mesh)).
Proof.
  intros Hc Hlen Hrange kept. split; [|split; [|split]].
  - unfold remove_small_clusters. rewrite Hc.
    rewrite (take_indices_in_range _ _ Hrange). simpl.
    unfold remove_triangles_by_mask.
    rewrite !length_map, Hlen, Nat.eqb_refl. simpl.
    rewrite map_map.
    rewrite (remove_by_mask_combine
               (fun l => nth l cluster_n_triangles 0 <? min_num_faces)
               (triangles mesh) triangle_clusters Hlen).
    subst kept.
    rewrite (filter_ext
               (fun xt : nat * nat * nat * nat =>
                  negb (nth (snd xt) cluster_n_triangles 0 <? min_num_faces))
               (fun tl => min_num_faces <=? nth (snd tl) cluster_n_triangles 0));
      [reflexivity|].
    intros [t l]. simpl. now rewrite Z.leb_antisym.
  - intros j result. apply remove_unreferenced_vertices_referenced.
  - intros Hcount. subst kept. f_equal. apply filter_ext_in.
    intros [t l] Hin. simpl. apply in_combine_r in Hin.
    rewrite Forall_forall in Hrange. now rewrite (Hcount l (Hrange l Hin)).
  - intros -> -> ->. subst kept. simpl in Hlen.
    destruct mesh as [vs ts]. simpl in *.
    do 55 (destruct ts as [|? ts]; [discriminate|]).
    destruct ts; [reflexivity | discriminate].
Qed.

End MeshFilters.

(** ** The theorems on concrete sessions *)

(** In the calibrated 31-frame deferred session every frame passes the
    gate, so when Stop returns 31 frames have been admitted and integrated
    while [reconstructed_frame_count] is still 0. *)
Lemma deferred_session_counters :
  run (calibrated false 31) init_state = Some calibrated_warm_state
  /\ stopReconstructionCallback stop_request fresh_response (ticking 31)
       calibrated_warm_state
     = Some (Returned (response_of calibrated_stop_outcome)
               (outputs_of calibrated_stop_outcome)
               (state_of calibrated_stop_outcome))
  /\ success (response_of calibrated_stop_outcome) = true
  /\ processed_frame_count (state_of calibrated_stop_outcome) = 31
  /\ reconstructed_frame_count (state_of calibrated_stop_outcome) = 0.
Proof.
  split; [vm_compute; reflexivity|].
  split; [vm_compute; reflexivity|].
  split; [vm_compute; reflexivity|].
  split; vm_compute; reflexivity.
Qed.

Lemma calibrated_started (live : bool) (n : nat) :
  started (calibrated live n).
Proof. exists (start_request live). right. left. reflexivity. Qed.

(** C1 as stated fails: after Stop returns in a started session the two
    counters differ. *)
Lemma counters_differ_after_stop :
  ~ (forall calls req sched s s' r out,
       started calls -> run calls init_state = Some s ->
       stopReconstructionCallback req fresh_response sched s
       = Some (Returned r out s') ->
       reconstructed_frame_count s' = processed_frame_count s').
Proof.
  intros H.
  destruct deferred_session_counters as (Hrun & Hstop & _ & Hp & Hr).
  pose proof (H _ _ _ _ _ _ _ (calibrated_started false 31) Hrun Hstop)
    as H1.
  rewrite Hp in H1. rewrite Hr in H1. discriminate.
Qed.

(** The queue half of C1 needs its proviso: a camera callback that is past
    its guard when Stop is called appends its frame after the wait loop has
    ended, and Stop returns with that frame in the queue. *)
Lemma frame_in_flight_outlives_the_barrier :
  exists r out s',
    stopReconstructionCallback stop_request fresh_response
      frame_32_after_barrier calibrated_warm_state
    = Some (Returned r out s') /\
    List.length (sensor_data s') = 1%nat /\ frame_count s' = 32.
Proof.
  do 3 eexists. split; [vm_compute; reflexivity|].
  split; vm_compute; reflexivity.
Qed.

(** So does the buffer half: a tick that has popped the last frame when the
    wait loop ends appends it to the deferred buffer after the drain, where
    it stays, admitted and never integrated. *)
Lemma tick_in_flight_misses_the_drain :
  exists s' vol,
    step (Stop stop_request last_tick_after_return) calibrated_warm_state
    = Some s' /\
    List.length (tsdf_integration_data s') = 1%nat /\
    processed_frame_count s' = 31 /\
    tsdf_volume s' = Some vol /\ List.length (integrated vol) = 30%nat.
Proof.
  do 2 eexists. split; [vm_compute; reflexivity|].
  split; [vm_compute; reflexivity|]. split; [vm_compute; reflexivity|].
  split; vm_compute; reflexivity.
Qed.

Lemma stop_leaves_nothing_pending_witness :
  started (calibrated false 31) /\
  camera_thread calibrated_barrier = None /\
  timer_thread calibrated_barrier = None /\
  sensor_data (state_of calibrated_stop_outcome) = [] /\
  tsdf_integration_data (state_of calibrated_stop_outcome) = [] /\
  reconstructed_frame_count (state_of calibrated_stop_outcome) = 0.
Proof.
  assert (Hc : camera_thread calibrated_barrier = None)
    by (vm_compute; reflexivity).
  assert (Ht : timer_thread calibrated_barrier = None)
    by (vm_compute; reflexivity).
  split; [apply calibrated_started|]. split; [exact Hc|]. split; [exact Ht|].
  destruct (stop_leaves_nothing_pending
              (calibrated false 31) stop_request (ticking 31)
              calibrated_warm_state (state_of calibrated_stop_outcome)
              calibrated_barrier
              (response_of calibrated_stop_outcome)
              (outputs_of calibrated_stop_outcome)
              (calibrated_started false 31))
    as (Hq & Hb & Hr & _); try assumption.
  - vm_compute. reflexivity.
  - vm_compute. reflexivity.
  - vm_compute. reflexivity.
  - split; [exact Hq|]. split; [exact Hb | exact Hr].
Defined.

Lemma keyframe_gate_witness :
  30 < frame_count warm_state /\
  sensor_data warm_state = oldest warm_state :: queued_behind warm_state /\
  admitted warm_state (reconstructCallback warm_state) (oldest warm_state).
Proof.
  assert (Hw : 30 < frame_count warm_state) by (vm_compute; reflexivity).
  assert (Hq : sensor_data warm_state
               = oldest warm_state :: queued_behind warm_state)
    by (vm_compute; reflexivity).
  split; [exact Hw|]. split; [exact Hq|].
  pose proof (keyframe_gate warm_state (oldest warm_state)
                (queued_behind warm_state) Hw Hq) as H.
  cbv zeta in H. destruct H as [[_ Hadm] _].
  apply Hadm. left. vm_compute. reflexivity.
Defined.

(** C5 as stated fails: with exactly 30 frames seen and a non-empty queue
    the tick pops nothing. *)
Lemma thirty_frames_not_enough :
  ~ (forall s : State,
       30 <= frame_count s -> sensor_data s <> [] ->
       exists f, sensor_data s = f :: sensor_data (reconstructCallback s)).
Proof.
  intros H. destruct (H cold_state) as [f Hf].
  - vm_compute. discriminate.
  - vm_compute. discriminate.
  - apply (f_equal (@List.length _)) in Hf. vm_compute in Hf. discriminate.
Qed.

Lemma warm_up_guard_witness :
  frame_count cold_state = 30 /\
  reconstructCallback cold_state = cold_state /\
  frame_count warm_state = 31 /\
  exists f,
    sensor_data warm_state = f :: sensor_data (reconstructCallback warm_state).
Proof.
  split; [vm_compute; reflexivity|].
  split.
  - apply (proj1 (warm_up_guard cold_state)). left. vm_compute. discriminate.
  - split; [vm_compute; reflexivity|].
    apply (proj2 (warm_up_guard warm_state)).
    + vm_compute. reflexivity.
    + vm_compute. discriminate.
Defined.

Lemma deferred_mode_integration_witness :
  List.length (tsdf_integration_data buffered_state) = 31%nat /\
  exists calls,
    List.length calls = 31%nat /\
    tsdf_volume (state_of (stop_export stop_request fresh_response
                             buffered_state))
    = Some (add_calls (ScalableTSDFVolume 0.01 0.04 []) calls).
Proof.
  split; [vm_compute; reflexivity|].
  destruct (proj1 (proj2 (proj2 deferred_mode_integration))
              stop_request fresh_response buffered_state
              (ScalableTSDFVolume 0.01 0.04 [])
              (response_of stop_outcome) (outputs_of stop_outcome)
              (state_of stop_outcome))
    as (calls & mesh & Hcalls & Hvol & _).
  - vm_compute. reflexivity.
  - vm_compute. reflexivity.
  - vm_compute. reflexivity.
  - exists calls. split.
    + apply Forall2_length in Hcalls. rewrite <- Hcalls.
      vm_compute. reflexivity.
    + rewrite <- Hvol. vm_compute. reflexivity.
Defined.

(** C8 as stated fails: with a NaN in the filter direction the product is
    NaN, which is neither below nor [>=] the cosine, and the triangle
    stays. *)
Lemma nan_product_keeps_triangle :
  ~ (forall mesh direction angle mesh' t,
       filterNormals mesh direction angle = Ok mesh' ->
       In t (triangles mesh) ->
       (In t (triangles mesh') <->
        geb (matmul_row (triangle_normal (vertices mesh) t) direction)
            (np_cos angle) = true)).
Proof.
  intros H.
  destruct (H one_triangle nan_direction 0%float one_triangle
              (0, 1, 2)%nat) as [Hkept _].
  - vm_compute. reflexivity.
  - left. reflexivity.
  - assert (Hin : In (0, 1, 2)%nat (triangles one_triangle))
      by (left; reflexivity).
    apply Hkept in Hin. vm_compute in Hin. discriminate.
Qed.

Lemma normal_filters_compose_witness :
  filter_keeps one_triangle (0, 0, -1)%float 0%float (0, 1, 2)%nat
  = geb (matmul_row (triangle_normal (vertices one_triangle) (0, 1, 2)%nat)
           (0, 0, -1)%float)
        (np_cos 0%float).
Proof.
  apply (proj1 (proj2 (normal_filters_compose one_triangle
                         (mkNormalFilter (0, 0, -1)%float 0%float)
                         (mkNormalFilter (0, 0, 1)%float 90%float)))).
  - vm_compute. reflexivity.
  - vm_compute. reflexivity.
Defined.

Lemma small_clusters_removed_witness :
  cluster_connected_triangles two_cluster_mesh
  = (repeat 0%nat 5 ++ repeat 1%nat 50, [5; 50], [0%float; 0%float]) /\
  remove_small_clusters two_cluster_mesh 10
  = Ok (remove_unreferenced_vertices
          (mkMesh (vertices two_cluster_mesh) (strip 7 50))) /\
  remove_unreferenced_vertices
    (mkMesh (vertices two_cluster_mesh) (strip 7 50))
  = mkMesh (skipn 7 (strip_vertices 59)) (strip 0 50).
Proof.
  assert (Hc : cluster_connected_triangles two_cluster_mesh
               = (repeat 0%nat 5 ++ repeat 1%nat 50, [5; 50],
                  [0%float; 0%float]))
    by (vm_compute; reflexivity).
  split; [exact Hc|]. split; [|vm_compute; reflexivity].
  destruct (small_clusters_removed two_cluster_mesh 10 _ _ _ Hc)
    as (Hremoved & _ & _ & Hkept).
  - vm_compute. reflexivity.
  - repeat constructor.
  - rewrite Hremoved, (Hkept eq_refl eq_refl eq_refl). reflexivity.
Defined.

(** C10 as stated fails: with exactly 30 frames seen, the frame of a camera
    callback that was past its guard when Stop set [record] to false is the
    31st; it opens the warm-up guard, the ticks empty the queue, and Stop
    returns. *)
Lemma frame_in_flight_ends_the_wait :
  ~ (forall req res sched s,
       sensor_data s <> [] -> frame_count s <= 30 ->
       stopReconstructionCallback req res sched s = None).
Proof.
  intros H.
  assert (E : stopReconstructionCallback stop_request fresh_response
                frame_31_in_flight calibrated_cold_state = None).
  { apply H; vm_compute; discriminate. }
  vm_compute in E. discriminate.
Qed.

Lemma stop_waits_forever_witness :
  sensor_data cold_state <> [] /\
  frame_count cold_state + frames_in_flight (ticking 1000) <= 30 /\
  stopReconstructionCallback stop_request fresh_response (ticking 1000)
    cold_state = None.
Proof.
  assert (Hq : sensor_data cold_state <> []) by (vm_compute; discriminate).
  assert (Hf : frame_count cold_state + frames_in_flight (ticking 1000)
               <= 30) by (vm_compute; discriminate).
  split; [exact Hq|]. split; [exact Hf|].
  apply (proj2 (stop_waits_forever stop_request fresh_response
                  (ticking 1000) cold_state Hq Hf)).
Defined.

Lemma prev_pose_tracks_accepted_witness :
  30 < frame_count warm_state /\
  (prev_pose_tran (reconstructCallback warm_state),
   prev_pose_rot (reconstructCallback warm_state))
  = ((1, 0, 0)%float, (1, 0, 0, 0)%float).
Proof.
  assert (Hw : 30 < frame_count warm_state) by (vm_compute; reflexivity).
  assert (Hq : sensor_data warm_state
               = oldest warm_state :: queued_behind warm_state)
    by (vm_compute; reflexivity).
  split; [exact Hw|].
  pose proof (proj1 (proj2 prev_pose_tracks_accepted) warm_state
                (oldest warm_state) (queued_behind warm_state) Hw Hq) as H.
  cbv zeta in H. rewrite H. vm_compute. reflexivity.
Defined.

(** C7 as stated fails in its last part: beside Stop, the camera callback of
    frame 31, past its guard when Stop set [record] to false, counts its
    frame while the session is no longer recording. *)
Lemma frame_counted_after_record_false :
  ~ (forall o t,
       frame_count (fields (overlap o t)) <> frame_count (fields t) ->
       record (fields t) = true /\ paused (fields t) = false).
Proof.
  intros H.
  destruct (H CameraEnds
              (stop_begins frame_31_in_flight calibrated_cold_state))
    as [Hr _].
  - vm_compute. discriminate.
  - vm_compute in Hr. discriminate.
Qed.

Lemma paused_frames_dropped_witness :
  paused (set_paused true warm_state) = true /\
  background (frame_at 32) (set_paused true warm_state)
  = set_paused true warm_state /\
  sensor_data (reconstructCallback (set_paused true warm_state))
  = queued_behind warm_state /\
  sensor_data
    (run_background
       (repeat BgTick
          (List.length (sensor_data (set_paused true warm_state))))
       (set_paused true warm_state)) = [].
Proof.
  assert (Hw : 30 < frame_count (set_paused true warm_state))
    by (vm_compute; reflexivity).
  assert (Hq : sensor_data (set_paused true warm_state)
               = oldest warm_state :: queued_behind warm_state)
    by (vm_compute; reflexivity).
  destruct paused_frames_dropped as (Hdrop & _ & _ & Hpop & Hdrain & _).
  split; [reflexivity|]. split; [apply Hdrop; left; reflexivity|].
  split.
  - exact (proj1 (Hpop _ _ _ Hw Hq)).
  - exact (proj1 (Hdrain _ Hw)).
Defined.

(** * Further properties of the node *)

(** ** Consuming the queue *)

Section Consuming.

Context {C : Collaborators}.

(** The fields no tick writes. *)
Lemma reconstructCallback_keeps (s : State) :
  let s' := reconstructCallback s in
  frame_count s' = frame_count s /\
  translation_distance s' = translation_distance s /\
  rotational_distance s' = rotational_distance s /\
  live_integration s' = live_integration s /\
  record s' = record s /\ paused s' = paused s /\
  intrinsics s' = intrinsics s /\
  depth_scale s' = depth_scale s /\ depth_trunc s' = depth_trunc s /\
  crop_mesh s' = crop_mesh s /\ crop_box s' = crop_box s /\
  relative_frame s' = relative_frame s /\
  reconstructed_frame_count s' = reconstructed_frame_count s /\
  tracking_frame s' = tracking_frame s /\
  convert_rgb_to_intensity s' = convert_rgb_to_intensity s.
Proof.
  cbv zeta. unfold reconstructCallback.
  destruct ((frame_count s <=? 30) || _); [repeat split|].
  destruct (sensor_data s) as [|[[depth_img rgb_img] tf] rest];
    [repeat split|].
  destruct (transformStampedToVectors tf) as [rgb_t rgb_r]. simpl.
  destruct (geb _ _ || geb _ _); [|repeat split].
  destruct (live_integration s) eqn:Hl;
    [destruct (tsdf_volume s) eqn:Hv|]; simpl;
    try (rewrite ?Hl; repeat split; fail).
  destruct (integrate_frame _ _ _ _ _); simpl; rewrite ?Hl; repeat split.
Qed.

(** An admitted frame in deferred mode: one entry more in the buffer, one
    frame more processed, the volume untouched. *)
Lemma reconstructCallback_accept_deferred (s : State) (f : SensorDatum)
    (rest : list SensorDatum) :
  live_integration s = false ->
  30 < frame_count s -> sensor_data s = f :: rest ->
  geb (tran_dist s f) (translation_distance s)
  || geb (rot_dist s f) (rotational_distance s) = true ->
  let s' := reconstructCallback s in
  tsdf_integration_data s' = tsdf_integration_data s ++ [buffer_entry f] /\
  processed_frame_count s' = processed_frame_count s + 1 /\
  tsdf_volume s' = tsdf_volume s.
Proof.
  intros Hl Hw Hq Hg. unfold reconstructCallback.
  rewrite (warm_guard s f rest Hw Hq), Hq.
  destruct f as [[depth_img rgb_img] tf].
  unfold tran_dist, rot_dist, buffer_entry, frame_matrix, frame_pose in *.
  destruct (transformStampedToVectors tf) as [rgb_t rgb_r].
  simpl in *. rewrite Hg, Hl. simpl. repeat split.
Qed.

Lemma last_pose_cons (prev : Vec3 * Vec4) (f : SensorDatum)
    (kept : list SensorDatum) :
  last_pose prev (f :: kept) = last_pose (frame_pose f) kept.
Proof.
  unfold last_pose. simpl. destruct (rev kept); reflexivity.
Qed.

Lemma queue_drains_aux (queue : list SensorDatum) :
  forall s, sensor_data s = queue -> 30 < frame_count s ->
  let kept :=
    accepted_keyframes (translation_distance s) (rotational_distance s)
      (prev_pose_tran s) (prev_pose_rot s) queue in
  let s' := run_background (repeat BgTick (List.length queue)) s in
  sensor_data s' = [] /\
  depth_images s' = depth_images s ++ map depth_of kept /\
  color_images s' = color_images s ++ map color_of kept /\
  rgb_poses s' = rgb_poses s ++ map frame_matrix kept /\
  (prev_pose_tran s', prev_pose_rot s')
  = last_pose (prev_pose_tran s, prev_pose_rot s) kept /\
  (live_integration s = false ->
   tsdf_integration_data s'
   = tsdf_integration_data s ++ map buffer_entry kept /\
   processed_frame_count s'
   = processed_frame_count s + Z.of_nat (List.length kept) /\
   tsdf_volume s' = tsdf_volume s).
Proof.
  induction queue as [|f rest IH]; intros s Hq Hw.
  - simpl. rewrite !app_nil_r, Z.add_0_r. repeat split; assumption.
  - cbn [List.length repeat run_background fold_left background].
    fold (run_background (repeat BgTick (List.length rest))
            (reconstructCallback s)).
    pose proof (reconstructCallback_keeps s)
      as (Hfc & Ht & Hr & Hl & _).
    cbn [accepted_keyframes].
    destruct (frame_pose f) as [rgb_t rgb_r] eqn:Hpose.
    assert (Hgate :
      geb (linalg_norm (vsub rgb_t (prev_pose_tran s)))
          (translation_distance s)
      || geb (absolute_distance (prev_pose_rot s) rgb_r)
             (rotational_distance s)
      = geb (tran_dist s f) (translation_distance s)
        || geb (rot_dist s f) (rotational_distance s))
      by (unfold tran_dist, rot_dist; now rewrite Hpose).
    rewrite Hgate.
    destruct (geb (tran_dist s f) (translation_distance s)
              || geb (rot_dist s f) (rotational_distance s)) eqn:Hg.
    + destruct (reconstructCallback_accept s f rest Hw Hq Hg)
        as (Hq1 & Hpt & Hpr & Hadm).
      rewrite Hpose in Hpt, Hpr. simpl in Hpt, Hpr.
      specialize (IH (reconstructCallback s) Hq1 ltac:(lia)).
      cbv zeta in IH. rewrite Ht, Hr, Hpt, Hpr, Hl in IH.
      destruct IH as (E1 & E2 & E3 & E4 & E5 & E6).
      destruct f as [[depth_img rgb_img] tf].
      destruct Hadm as (A1 & A2 & A3).
      rewrite A1 in E2. rewrite A2 in E3. rewrite A3 in E4.
      rewrite <- !app_assoc in E2, E3, E4.
      split; [exact E1|]. split; [exact E2|]. split; [exact E3|].
      split; [exact E4|]. split.
      * rewrite last_pose_cons, Hpose. exact E5.
      * intros Hlive.
        destruct (reconstructCallback_accept_deferred s _ rest Hlive Hw Hq Hg)
          as (B1 & B2 & B3).
        destruct (E6 Hlive) as (F1 & F2 & F3).
        rewrite B1 in F1. rewrite B2 in F2. rewrite B3 in F3.
        rewrite <- app_assoc in F1.
        split; [exact F1|]. split; [|exact F3].
        rewrite F2. cbn [List.length]. lia.
    + pose proof (reconstructCallback_reject s f rest Hw Hq Hg) as Hrej.
      specialize (IH (reconstructCallback s)).
      rewrite Hrej in IH |- *. simpl in IH.
      apply IH; [reflexivity | exact Hw].
Qed.

(** X1: once more than 30 frames have been seen, as many ticks as there are
    queued frames empty the queue, and the frames kept are exactly the ones
    a front-to-back pass accepts when each frame is measured against the
    last accepted one: they join the three keyframe lists in arrival order,
    the previous pose ends at the last of them, and in deferred mode they
    are what the deferred buffer and the processed counter gain while the
    volume stays as it was. *)
Theorem queue_drains_to_keyframes (s : State) :
  30 < frame_count s ->
  let kept :=
    accepted_keyframes (translation_distance s) (rotational_distance s)
      (prev_pose_tran s) (prev_pose_rot s) (sensor_data s) in
  let s' :=
    run_background (repeat BgTick (List.length (sensor_data s))) s in
  sensor_data s' = [] /\
  depth_images s' = depth_images s ++ map depth_of kept /\
  color_images s' = color_images s ++ map color_of kept /\
  rgb_poses s' = rgb_poses s ++ map frame_matrix kept /\
  (prev_pose_tran s', prev_pose_rot s')
  = last_pose (prev_pose_tran s, prev_pose_rot s) kept /\
  (live_integration s = false ->
   tsdf_integration_data s'
   = tsdf_integration_data s ++ map buffer_entry kept /\
   processed_frame_count s'
   = processed_frame_count s + Z.of_nat (List.length kept) /\
   tsdf_volume s' = tsdf_volume s).
Proof.
  intros Hw. now apply queue_drains_aux.
Qed.

End Consuming.

(** ** Counters and keyframe lists *)

Section Counting.

Context {C : Collaborators}.

Lemma reconstructCallback_counted (s : State) :
  counted s -> counted (reconstructCallback s).
Proof.
  intros Hc. pose proof Hc as (H0 & Hq & Hd & Hcl & Hp & Hdef).
  unfold reconstructCallback.
  destruct ((frame_count s <=? 30) || _); [exact Hc|].
  destruct (sensor_data s) as [|[[depth_img rgb_img] tf] rest] eqn:Hs;
    [exact Hc|].
  destruct (transformStampedToVectors tf) as [rgb_t rgb_r]. simpl in *.
  destruct (geb _ _ || geb _ _).
  - destruct (live_integration s) eqn:Hl;
      [destruct (tsdf_volume s) as [vol|] eqn:Hv|]; simpl.
    + destruct (integrate_frame _ _ _ _ _); unfold counted; simpl;
        rewrite ?Hl, !length_app; simpl;
        (repeat split; try lia; try discriminate).
    + unfold counted; simpl. rewrite ?Hl, !length_app. simpl.
      repeat split; try lia; try discriminate.
    + unfold counted; simpl. rewrite ?Hl, !length_app. simpl.
      specialize (Hdef eq_refl). repeat split; try lia.
  - unfold counted; simpl. repeat split; try lia. exact Hdef.
Qed.

(** What the rest of a tick adds: [k] keyframes and [p] processed frames,
    with [p <= k <= 1], and [p = k] in deferred mode. *)
Lemma after_popleft_counts (f : SensorDatum) (s : State) :
  let s' := reconstructCallback_after_popleft f s in
  exists k p : nat,
    (p <= k <= 1)%nat /\
    List.length (depth_images s') = (List.length (depth_images s) + k)%nat /\
    List.length (color_images s') = (List.length (color_images s) + k)%nat /\
    List.length (rgb_poses s') = (List.length (rgb_poses s) + k)%nat /\
    processed_frame_count s' = processed_frame_count s + Z.of_nat p /\
    (live_integration s = false -> p = k).
Proof.
  cbv zeta. unfold reconstructCallback_after_popleft.
  destruct f as [[depth_img rgb_img] tf].
  destruct (transformStampedToVectors tf) as [rgb_t rgb_r]. simpl.
  destruct (geb _ _ || geb _ _).
  - destruct (live_integration s) eqn:Hl;
      [destruct (tsdf_volume s) as [vol|] eqn:Hv|]; simpl.
    + destruct (integrate_frame _ _ _ _ _); simpl;
        [exists 1%nat, 1%nat | exists 1%nat, 0%nat];
        rewrite ?length_app; simpl;
        repeat split; try lia; discriminate.
    + exists 1%nat, 1%nat. rewrite ?length_app. simpl.
      repeat split; try lia.
    + exists 1%nat, 1%nat. rewrite ?length_app. simpl.
      repeat split; try lia.
  - exists 0%nat, 0%nat. repeat split; try lia.
Qed.

Lemma overlap_counted (o : Overlap) (t : Threads) :
  counted_beside t -> counted_beside (overlap o t).
Proof.
  intros H. pose proof H as (H0 & Hq & Hd & Hc & Hp & Hdef).
  cbv zeta in *.
  destruct o as [d c | | | | ci]; simpl.
  - destruct (camera_thread t); [exact H|].
    destruct (paused _ || negb _); exact H.
  - destruct (camera_thread t) as [[d c]|]; [|exact H].
    destruct (after_guard_cases d c (fields t)) as [E | (f & E)];
      unfold counted_beside; simpl; rewrite E; simpl.
    + repeat split; auto.
    + rewrite length_app. simpl. repeat split; auto; lia.
  - destruct (timer_thread t) eqn:Ht; [exact H|].
    destruct ((frame_count _ <=? 30) || _); [exact H|].
    destruct (sensor_data (fields t)) as [|f rest] eqn:Hs; [exact H|].
    unfold counted_beside. simpl in *. repeat split; auto; lia.
  - destruct (timer_thread t) as [f|] eqn:Ht; [|exact H].
    destruct (after_popleft_counts f (fields t))
      as (k & p & Hkp & E1 & E2 & E3 & E4 & E5).
    pose proof (after_popleft_keeps f (fields t))
      as (K1 & K2 & _ & _ & _ & K3 & _).
    unfold counted_beside. simpl. rewrite E1, E2, E3, E4, K1, K2, K3.
    repeat split; try lia.
    intros Hl. specialize (Hdef Hl). specialize (E5 Hl). lia.
  - destruct (camera_thread t); exact H.
Qed.

Lemma step_counted (c : Call) (s s' : State) :
  counted s -> step c s = Some s' -> counted s'.
Proof.
  revert c s s'. apply (step_invariant_threads counted counted_beside).
  - intros req res s _. unfold counted. simpl. repeat split; lia.
  - intros res s r out s' HP H.
    unfold pauseReconstructionCallback in H.
    destruct (record s); simpl in H; [discriminate|].
    now injection H as _ _ <-.
  - intros res s HP. unfold resumeReconstructionCallback.
    now destruct (paused s).
  - intros [d c | | ci] s HP; simpl.
    + destruct (cameraCallback_cases d c s) as [-> | (_ & _ & f & ->)];
        [exact HP|].
      destruct HP as (H0 & Hq & Hrest). unfold counted. simpl.
      rewrite length_app. simpl. repeat split; try lia; apply Hrest.
    + now apply reconstructCallback_counted.
    + exact HP.
  - intros s (H0 & Hq & Hrest). unfold counted_beside. simpl.
    repeat split; try apply Hrest; lia.
  - apply overlap_counted.
  - intros t H. exact H.
  - intros req res t r out s' H E.
    apply stop_export_returns in E.
    destruct E as [(_ & -> & _) | [(vol & _ & _ & -> & _)
      | (vol & calls & _ & _ & _ & _ & -> & _)]];
      exact H.
  - intros t (H0 & Hq & Hrest) _ Ht. rewrite Ht in Hq.
    unfold counted. repeat split; try apply Hrest; lia.
Qed.

Lemma run_counted (calls : list Call) (s : State) :
  run calls init_state = Some s -> counted s.
Proof.
  apply (run_invariant counted).
  - apply step_counted.
  - unfold counted. simpl. repeat split; lia.
Qed.

(** X2: in every state the node reaches, the frames admitted plus the
    frames still waiting in the queue never exceed the frames seen, and the
    processed counter is never negative. *)
Theorem admitted_and_queued_within_seen (calls : list Call) (s : State) :
  run calls init_state = Some s ->
  0 <= processed_frame_count s /\
  processed_frame_count s + Z.of_nat (List.length (sensor_data s))
  <= frame_count s.
Proof.
  intros H. destruct (run_counted calls s H) as (H0 & Hq & _). now split.
Qed.

End Counting.

(** ** The archive *)

Lemma archive_frames_aligned (path_output path_depth path_color path_pose :
    string) (s : State) (indices : list nat) :
  List.length (depth_images s) = List.length (rgb_poses s) ->
  List.length (color_images s) = List.length (rgb_poses s) ->
  Forall (fun i => (i < List.length (rgb_poses s))%nat) indices ->
  path_depth = join path_output "depth" ->
  path_color = join path_output "color" ->
  path_pose = join path_output "pose" ->
  archive_frames path_output path_depth path_color path_pose s indices
  = Ok (flat_map (keyframe_files path_output s) indices).
Proof.
  intros Hd Hc Hin -> -> ->. induction Hin as [|i indices Hi _ IH]; simpl.
  - reflexivity.
  - destruct (nth_error (depth_images s) i) as [d|] eqn:Ed;
      [|apply nth_error_None in Ed; lia].
    destruct (nth_error (color_images s) i) as [c|] eqn:Ec;
      [|apply nth_error_None in Ec; lia].
    destruct (nth_error (rgb_poses s) i) as [p|] eqn:Ep;
      [|apply nth_error_None in Ep; lia].
    rewrite IH. simpl.
    now rewrite (nth_error_nth _ _ _ Ed), (nth_error_nth _ _ _ Ec),
      (nth_error_nth _ _ _ Ep).
Qed.

(** X3: in every state the node reaches the three keyframe lists have the
    same length, which is at least the processed counter and equal to it in
    deferred mode; so [archiveData] never runs off a list: after the four
    folder operations it writes, for each keyframe in order, its depth
    image, colour image, pose and the intrinsics file, and nothing when no
    keyframe was accepted. *)
Theorem archive_covers_every_keyframe (calls : list Call) (s : State)
    (path_output : string) :
  run calls init_state = Some s ->
  List.length (depth_images s) = List.length (rgb_poses s) /\
  List.length (color_images s) = List.length (rgb_poses s) /\
  processed_frame_count s <= Z.of_nat (List.length (rgb_poses s)) /\
  (live_integration s = false ->
   processed_frame_count s = Z.of_nat (List.length (rgb_poses s))) /\
  archiveData path_output s
  = Ok (MakeFolderKeepContents path_output
        :: MakeCleanFolder (join path_output "depth")
        :: MakeCleanFolder (join path_output "color")
        :: MakeCleanFolder (join path_output "pose")
        :: flat_map (keyframe_files path_output s)
             (seq 0 (List.length (rgb_poses s)))).
Proof.
  intros H. destruct (run_counted calls s H) as (_ & _ & Hd & Hc & Hp & Hl).
  repeat (split; [assumption|]).
  unfold archiveData.
  rewrite (archive_frames_aligned path_output _ _ _ s _ Hd Hc);
    try reflexivity.
  - simpl. now rewrite Hc.
  - rewrite Hc. apply Forall_forall. intros i Hi. apply in_seq in Hi. lia.
Qed.

Lemma list_ascii_of_append (a b : string) :
  list_ascii_of_string (a ++ b)%string
  = list_ascii_of_string a ++ list_ascii_of_string b.
Proof. induction a as [|c a IH]; simpl; [reflexivity | now rewrite IH]. Qed.

Lemma list_ascii_of_string_inj (a b : string) :
  list_ascii_of_string a = list_ascii_of_string b -> a = b.
Proof.
  intros E. rewrite <- (string_of_list_ascii_of_string a),
    <- (string_of_list_ascii_of_string b). now rewrite E.
Qed.

Lemma string_app_inv_head (a b c : string) :
  (a ++ b = a ++ c)%string -> b = c.
Proof.
  intros E. apply list_ascii_of_string_inj.
  apply (f_equal list_ascii_of_string) in E.
  rewrite !list_ascii_of_append in E. now apply app_inv_head in E.
Qed.

Lemma string_app_inv_tail (a b c : string) :
  (a ++ c = b ++ c)%string -> a = b.
Proof.
  intros E. apply list_ascii_of_string_inj.
  apply (f_equal list_ascii_of_string) in E.
  rewrite !list_ascii_of_append in E. now apply app_inv_tail in E.
Qed.

Lemma decimal_length_pad (digits : string) (k : nat) :
  NilEmpty.uint_of_string
    (string_of_list_ascii (repeat "0"%char k) ++ digits)%string
  = option_map (fun d => Nat.iter k Decimal.D0 d)
      (NilEmpty.uint_of_string digits).
Proof.
  induction k as [|k IH]; simpl.
  - now destruct (NilEmpty.uint_of_string digits).
  - rewrite IH. now destruct (NilEmpty.uint_of_string digits).
Qed.

Lemma of_uint_leading_zeros (k : nat) (d : Decimal.uint) :
  Nat.of_uint (Nat.iter k Decimal.D0 d) = Nat.of_uint d.
Proof.
  induction k as [|k IH]; simpl; [reflexivity|].
  unfold Nat.of_uint in *. simpl. exact IH.
Qed.

(** X4: the six-digit frame number of an archive file name reads back as
    the frame's index, so two keyframes never share a file name in a
    folder. *)
Theorem frame_number_round_trip (n m : nat) :
  parse_index (format_06d n) = Some n /\
  (format_06d n = format_06d m -> n = m) /\
  (forall dir ext,
     frame_file dir n ext = frame_file dir m ext -> n = m).
Proof.
  assert (Hparse : forall k, parse_index (format_06d k) = Some k).
  { intros k. unfold parse_index, format_06d, decimal.
    rewrite decimal_length_pad, NilEmpty.usu. simpl.
    now rewrite of_uint_leading_zeros, Unsigned.of_to. }
  assert (Hinj : format_06d n = format_06d m -> n = m).
  { intros E. pose proof (Hparse n) as Hn. rewrite E, Hparse in Hn.
    now injection Hn. }
  split; [apply Hparse|]. split; [exact Hinj|].
  intros dir ext E. unfold frame_file in E. apply Hinj.
  apply string_app_inv_head in E. apply string_app_inv_head in E.
  now apply string_app_inv_tail in E.
Qed.

(** ** Services before the first Start *)

Section BeforeStart.

Context {C : Collaborators}.

Lemma set_record_same (s : State) :
  record s = false -> set_record false s = s.
Proof. destruct s. simpl. now intros ->. Qed.

Lemma stop_wait_empty (sleeps : list (list Overlap)) (t : Threads) :
  integration_done (fields t) = true -> sensor_data (fields t) = [] ->
  stop_wait sleeps t = Some t.
Proof.
  intros Hd Hq. destruct sleeps; simpl; unfold drain_barrier;
    now rewrite Hd, Hq.
Qed.

Lemma untouched_fields (s : State) :
  untouched s ->
  tsdf_volume s = None /\ record s = false /\ paused s = false /\
  sensor_data s = [] /\ integration_done s = true /\ frame_count s = 0.
Proof. intros ->. repeat split. Qed.

(** On a node that was never started no callback gets past its guard, so
    none runs beside Stop. *)
Lemma untouched_stop_begins (sched : Schedule) (s : State) :
  untouched s -> stop_begins sched s = idle s.
Proof.
  intros H. destruct (untouched_fields s H) as (_ & Hr & _ & _ & _ & Hf).
  unfold stop_begins.
  assert (E1 : match camera_running sched with
               | Some (d, c) => overlap (CameraBegins d c) (idle s)
               | None => idle s
               end = idle s).
  { destruct (camera_running sched) as [[d c]|]; [|reflexivity].
    simpl. rewrite Hr. simpl. now rewrite orb_true_r. }
  rewrite E1.
  assert (E2 : (if tick_running sched then overlap TickBegins (idle s)
                else idle s) = idle s).
  { destruct (tick_running sched); [|reflexivity].
    simpl. now rewrite Hf. }
  rewrite E2. unfold with_fields, idle. simpl.
  now rewrite (set_record_same s Hr).
Qed.

Lemma untouched_stop_run (req : StopRequest) (sched : Schedule)
    (s : State) :
  untouched s ->
  stop_run req fresh_response sched s
  = Some (Returned
            (mkResponse false "Start reconstruction hasn't been called yet")
            [] s, idle s).
Proof.
  intros H. destruct (untouched_fields s H) as (Hv & Hr & _ & Hq & Hd & _).
  unfold stop_run, stop_barrier.
  rewrite (untouched_stop_begins sched s H).
  rewrite (stop_wait_empty _ (idle s) Hd Hq).
  rewrite (idle_before_export sched (idle s) eq_refl eq_refl).
  simpl. unfold stop_export. now rewrite Hv.
Qed.

Lemma untouched_stop (req : StopRequest) (sched : Schedule) (s : State) :
  untouched s ->
  stopReconstructionCallback req fresh_response sched s
  = Some (Returned
            (mkResponse false "Start reconstruction hasn't been called yet")
            [] s).
Proof.
  intros H. unfold stopReconstructionCallback.
  now rewrite (untouched_stop_run req sched s H).
Qed.

Lemma untouched_background (b : Background) (s : State) :
  untouched s -> untouched (background b s).
Proof.
  intros H. destruct (untouched_fields s H) as (_ & Hr & _ & Hq & _ & _).
  destruct b as [d c | | ci]; simpl.
  - now rewrite cameraCallback_dropped by now right.
  - now rewrite reconstructCallback_idle by now right.
  - unfold untouched in *. rewrite H. reflexivity.
Qed.

Lemma untouched_run (calls : list Call) :
  forall s0 s, untouched s0 -> ~ started calls ->
  run calls s0 = Some s -> untouched s.
Proof.
  induction calls as [|c calls IH]; intros s0 s H0 Hns Hrun; simpl in Hrun.
  - now injection Hrun as <-.
  - destruct (step c s0) as [s1|] eqn:Hstep; [|discriminate].
    apply (IH s1 s); [|intros [req Hin]; apply Hns; exists req; now right
                     |exact Hrun].
    destruct (untouched_fields s0 H0) as (_ & Hr & Hp & _).
    destruct c as [req | | | req sched | b]; cbn [step serve] in Hstep.
    + exfalso. apply Hns. exists req. now left.
    + unfold pauseReconstructionCallback in Hstep. rewrite Hr in Hstep.
      simpl in Hstep. now injection Hstep as <-.
    + unfold resumeReconstructionCallback in Hstep. rewrite Hp in Hstep.
      simpl in Hstep. now injection Hstep as <-.
    + rewrite (untouched_stop_run req sched s0 H0) in Hstep.
      injection Hstep as <-. exact H0.
    + injection Hstep as <-. now apply untouched_background.
Qed.

(** X5: as long as Start has never been called, the node stays as
    [__init__] left it except for the camera intrinsics: Stop returns at
    once, whatever runs meanwhile, with [success = false] and the message
    that Start has not been called, and writes nothing; Pause and Resume
    answer [success = false]; arriving frames are dropped and ticks do
    nothing. *)
Theorem nothing_happens_before_start (calls : list Call) (s : State) :
  run calls init_state = Some s -> ~ started calls ->
  s = set_intrinsics (intrinsics s) init_state /\
  (forall req sched,
     stopReconstructionCallback req fresh_response sched s
     = Some (Returned
               (mkResponse false
                  "Start reconstruction hasn't been called yet") [] s)) /\
  pauseReconstructionCallback fresh_response s
  = Returned
      (mkResponse false
         "Cannot pause reconstruction that was never started. Doing nothing")
      [] s /\
  resumeReconstructionCallback fresh_response s
  = Returned
      (mkResponse false
         "Cannot resume reconstruction that was not initially paused. Doing nothing")
      [] s /\
  (forall d c, cameraCallback d c s = s) /\
  reconstructCallback s = s.
Proof.
  intros Hrun Hns.
  assert (H : untouched s)
    by (apply (untouched_run calls init_state s); auto; reflexivity).
  destruct (untouched_fields s H) as (_ & Hr & Hp & Hq & _ & _).
  split; [exact H|]. split; [intros; now apply untouched_stop|].
  split; [unfold pauseReconstructionCallback; now rewrite Hr|].
  split; [unfold resumeReconstructionCallback; now rewrite Hp|].
  split; [intros; apply cameraCallback_dropped; now right|].
  apply reconstructCallback_idle. now right.
Qed.

End BeforeStart.

(** ** When Stop's wait ends, and what Stop writes *)

Section Stopping.

Context {C : Collaborators}.







(** When the wait loop ends, [record] is false and the queue is empty. *)
Lemma barrier_quiet (sched : Schedule) (s : State) (t : Threads) :
  stop_barrier sched s = Some t ->
  record (fields t) = false /\ sensor_data (fields t) = [].
Proof.
  intros Hb. unfold stop_barrier in Hb.
  assert (Ho : forall o t0, record (fields t0) = false ->
                            record (fields (overlap o t0)) = false).
  { apply (overlap_fields (fun s => record s = false)).
    - intros d c s0 H.
      destruct (after_guard_cases d c s0) as [-> | (f & ->)]; exact H.
    - intros s0 H. exact H.
    - intros f s0 H.
      pose proof (after_popleft_keeps f s0) as (_ & _ & E & _). congruence.
    - intros ci s0 H. exact H. }
  destruct (stop_wait_invariant (fun t => record (fields t) = false) Ho
              (during_sleeps sched) (stop_begins sched s) t eq_refl Hb)
    as [Hr Hbar].
  split; [exact Hr|].
  unfold drain_barrier in Hbar. apply andb_true_iff in Hbar.
  destruct Hbar as [_ Hbar]. apply Nat.eqb_eq in Hbar.
  now apply length_zero_iff_nil.
Qed.


(** X7: a second Stop with the same request, right after one that
    returned, returns the same response, writes the same files and leaves
    the node's fields as the first Stop left them: the deferred buffer is
    integrated once only. *)
Theorem stop_export_again (req : StopRequest) (res r : Response)
    (out : list Output) (s s' : State) :
  stop_export req res s = Returned r out s' ->
  stop_export req res s' = Returned r out s'.
Proof.
  intros H. unfold stop_export in H.
  destruct (tsdf_volume s) as [vol|] eqn:Hv.
  - destruct (live_integration s) eqn:Hl; simpl in H.
    + rewrite Hv in H.
      destruct (post_process req s _) as [m|e] eqn:Hpp; [|discriminate].
      injection H as <- <- <-. unfold stop_export.
      rewrite Hv, Hl. simpl. rewrite Hv, Hpp. reflexivity.
    + destruct (drain_integration_data _ vol s) as [o|s1] eqn:Hd.
      * apply drain_leaves_by_exception in Hd.
        destruct Hd as (e & s2 & ->). discriminate.
      * apply drain_returns in Hd; [|assumption|reflexivity].
        destruct Hd as (calls & _ & _ & ->). simpl in H.
        destruct (post_process req _ _) as [m|e] eqn:Hpp; [|discriminate].
        injection H as <- <- <-. unfold stop_export. simpl.
        rewrite Hl. simpl. rewrite Hpp. reflexivity.
  - injection H as <- <- <-. unfold stop_export. now rewrite Hv.
Qed.

(** X8: the files of a successful Stop.  The filtered mesh goes to
    [mesh_filepath] and the point cloud of the whole volume, neither cropped
    nor filtered, to [integrated_point_cloud.ply] beside it.  With an
    archive directory the keyframe lists are archived in between and
    [integrated.ply] is written there: the mesh as extracted when a crop box
    is active, but the filtered mesh itself when there is none, because the
    filters then work on the extracted mesh in place. *)
Theorem stop_export_files (req : StopRequest) (res r : Response)
    (out : list Output) (s s' : State) :
  stop_export req res s = Returned r out s' -> success r = true ->
  exists vol cropped_mesh,
    tsdf_volume s' = Some vol /\
    post_process req s' (extract_triangle_mesh vol) = Ok cropped_mesh /\
    let cloud :=
      WritePointCloud
        (join (parent_by_split (mesh_filepath req))
           "integrated_point_cloud.ply") vol in
    out
    = if String.eqb (archive_directory req) ""
      then [WriteTriangleMesh (mesh_filepath req) cropped_mesh; cloud]
      else [WriteTriangleMesh (mesh_filepath req) cropped_mesh;
            ArchiveData (archive_directory req) (depth_images s')
              (color_images s') (rgb_poses s') (intrinsics s');
            WriteTriangleMesh (join (archive_directory req) "integrated.ply")
              (if crop_mesh s' then extract_triangle_mesh vol
               else cropped_mesh);
            cloud].
Proof.
  intros H Hs. unfold stop_export in H.
  destruct (tsdf_volume s) as [vol|] eqn:Hv.
  - destruct (live_integration s) eqn:Hl; simpl in H.
    + rewrite Hv in H.
      destruct (post_process req s _) as [m|e] eqn:Hpp; [|discriminate].
      injection H as <- <- <-. exists vol, m.
      split; [exact Hv|]. split; [exact Hpp|].
      now destruct (String.eqb (archive_directory req) "").
    + destruct (drain_integration_data _ vol s) as [o|s1] eqn:Hd.
      * apply drain_leaves_by_exception in Hd.
        destruct Hd as (e & s2 & ->). discriminate.
      * apply drain_returns in Hd; [|assumption|reflexivity].
        destruct Hd as (calls & _ & _ & ->). simpl in H.
        destruct (post_process req _ _) as [m|e] eqn:Hpp; [|discriminate].
        injection H as <- <- <-. exists (add_calls vol calls), m.
        split; [reflexivity|]. split; [exact Hpp|].
        now destruct (String.eqb (archive_directory req) "").
  - injection H as <- _ _. discriminate.
Qed.

(** X9: after a Stop that returned, with no camera callback or tick still
    running when its wait loop ended, arriving frames are dropped and ticks
    find nothing to do until the next Start: whatever the camera, timer and
    camera-info callbacks do, only the stored intrinsics can change. *)
Theorem quiet_after_stop (req : StopRequest) (res r : Response)
    (sched : Schedule) (out : list Output) (s s' : State) (t : Threads)
    (bs : list Background) :
  stop_barrier sched s = Some t ->
  camera_thread t = None -> timer_thread t = None ->
  stopReconstructionCallback req res sched s = Some (Returned r out s') ->
  record s' = false /\ sensor_data s' = [] /\
  run_background bs s'
  = set_intrinsics (intrinsics (run_background bs s')) s'.
Proof.
  intros Hb Hc Ht H.
  destruct (barrier_quiet sched s t Hb) as [Hr1 Hq1].
  destruct (stop_run_idle req res sched s t Hb Hc Ht) as [Hrun _].
  unfold stopReconstructionCallback in H. rewrite Hrun in H.
  apply Some_inj in H.
  assert (Hr' : record s' = false /\ sensor_data s' = []).
  { apply stop_export_returns in H.
    destruct H as [(_ & -> & _) | [(vol & _ & _ & -> & _)
      | (vol & calls & _ & _ & _ & _ & -> & _)]]; now split. }
  destruct Hr' as [Hr' Hq']. split; [exact Hr'|]. split; [exact Hq'|].
  clear -Hr' Hq'. unfold run_background.
  revert s' Hr' Hq'. induction bs as [|b bs IH]; intros s' Hr' Hq'; simpl.
  - destruct s'. reflexivity.
  - destruct b as [d c | | ci]; simpl.
    + rewrite cameraCallback_dropped by now right. now apply IH.
    + rewrite reconstructCallback_idle by now right. now apply IH.
    + rewrite (IH (cameraInfoCallback ci s')) by assumption.
      reflexivity.
Qed.


End Stopping.

(** ** Where the point cloud goes *)

Lemma before_last_slash_none (p : string) :
  has_slash p = false -> before_last_slash p = None.
Proof.
  induction p as [|c p IH]; simpl; [reflexivity|].
  intros H. apply orb_false_iff in H. destruct H as [Hc Hp].
  now rewrite (IH Hp), Hc.
Qed.

Lemma before_last_slash_app (dir name : string) :
  has_slash name = false ->
  before_last_slash (dir ++ "/" ++ name)%string = Some dir.
Proof.
  intros H.
  assert (Hbase : before_last_slash ("/" ++ name)%string = Some ""%string)
    by (simpl; now rewrite (before_last_slash_none name H)).
  remember ("/" ++ name)%string as tail eqn:E. clear E.
  induction dir as [|c dir IH]; simpl.
  - exact Hbase.
  - now rewrite IH.
Qed.

(** X10: the point cloud is written into the directory part of
    [mesh_filepath], the text before its last slash.  For a mesh path
    without a slash, and also for one directly under the root such as
    [/mesh.ply], that text is empty and the point cloud goes to the relative
    path [integrated_point_cloud.ply]. *)
Theorem point_cloud_beside_mesh (dir name : string) :
  has_slash name = false ->
  let cloud p := join (parent_by_split p) "integrated_point_cloud.ply" in
  parent_by_split (dir ++ "/" ++ name)%string = dir /\
  cloud (dir ++ "/" ++ name)%string
  = (if String.eqb dir "" then "integrated_point_cloud.ply"
     else if ends_with_slash dir then dir ++ "integrated_point_cloud.ply"
     else dir ++ "/" ++ "integrated_point_cloud.ply")%string /\
  cloud name = "integrated_point_cloud.ply"%string /\
  cloud ("/" ++ name)%string = "integrated_point_cloud.ply"%string.
Proof.
  intros H cloud. subst cloud. cbv beta.
  pose proof (before_last_slash_app "" name H) as Hroot.
  change (before_last_slash ("/" ++ name)%string = Some ""%string) in Hroot.
  unfold parent_by_split.
  rewrite (before_last_slash_app dir name H), Hroot,
    (before_last_slash_none name H).
  repeat split.
Qed.

(** ** Mesh filters in general *)

Lemma map_fst_combine_same_length {A B : Type} (l : list A) (l' : list B) :
  List.length l' = List.length l -> map fst (combine l l') = l.
Proof.
  revert l'. induction l as [|x l IH]; intros [|y l'] H; simpl in *;
    try reflexivity; try discriminate.
  injection H as H. now rewrite IH.
Qed.

Lemma filter_all {A : Type} (f : A -> bool) (l : list A) :
  (forall x, In x l -> f x = true) -> filter f l = l.
Proof.
  induction l as [|x l IH]; intros H; simpl; [reflexivity|].
  rewrite (H x (or_introl eq_refl)), IH; [reflexivity|].
  intros y Hy. apply H. now right.
Qed.

Lemma filter_none {A : Type} (f : A -> bool) (l : list A) :
  (forall x, In x l -> f x = false) -> filter f l = [].
Proof.
  induction l as [|x l IH]; intros H; simpl; [reflexivity|].
  rewrite (H x (or_introl eq_refl)). apply IH.
  intros y Hy. apply H. now right.
Qed.

Section MoreMeshFilters.

Context {C : Collaborators}.

Lemma apply_normal_filters_filter (filters : list NormalFilter) :
  forall mesh,
  apply_normal_filters filters mesh
  = Ok (mkMesh (vertices mesh)
          (filter (filters_keep mesh filters) (triangles mesh))).
Proof.
  induction filters as [|F filters IH]; intros mesh; simpl.
  - destruct mesh as [vs ts]. simpl. rewrite filter_all; [reflexivity|].
    intros t _. reflexivity.
  - rewrite filterNormals_filter. simpl. rewrite IH. simpl.
    rewrite filter_both. reflexivity.
Qed.

Lemma filters_keep_same_set (mesh : TriangleMesh)
    (filters filters' : list NormalFilter) (t : nat * nat * nat) :
  (forall F, In F filters <-> In F filters') ->
  filters_keep mesh filters t = filters_keep mesh filters' t.
Proof.
  intros Hset. unfold filters_keep.
  destruct (forallb _ filters) eqn:E.
  - symmetry. rewrite forallb_forall in *. intros F HF.
    apply E, Hset, HF.
  - destruct (forallb _ filters') eqn:E'; [|reflexivity].
    rewrite forallb_forall in E'.
    assert (forallb (fun F => filter_keeps mesh (normal_direction F)
                                (np_radians (angle F)) t) filters = true)
      as E2 by (apply forallb_forall; intros F HF; apply E', Hset, HF).
    congruence.
Qed.

(** X11: the loop over the normal filters never raises, leaves the vertices
    alone and keeps, in their order, exactly the triangles that every filter
    keeps; so the filtered mesh depends only on which filters the request
    holds, not on their order nor on how often one is repeated, and later
    filters never bring a triangle back. *)
Theorem normal_filters_as_a_set (mesh : TriangleMesh)
    (filters filters' : list NormalFilter) :
  apply_normal_filters filters mesh
  = Ok (mkMesh (vertices mesh)
          (filter (filters_keep mesh filters) (triangles mesh))) /\
  ((forall F, In F filters <-> In F filters') ->
   apply_normal_filters filters' mesh = apply_normal_filters filters mesh) /\
  (forall mesh1 mesh2,
     apply_normal_filters filters mesh = Ok mesh1 ->
     apply_normal_filters (filters ++ filters') mesh = Ok mesh2 ->
     incl (triangles mesh2) (triangles mesh1) /\
     incl (triangles mesh1) (triangles mesh)).
Proof.
  split; [apply apply_normal_filters_filter|]. split.
  - intros Hset. rewrite !apply_normal_filters_filter. do 2 f_equal.
    apply filter_ext. intros t. symmetry.
    now apply filters_keep_same_set.
  - intros mesh1 mesh2 H1 H2. rewrite apply_normal_filters_filter in H1, H2.
    injection H1 as <-. injection H2 as <-. simpl. split.
    + intros t Ht. apply filter_In in Ht. destruct Ht as [Hin Hk].
      apply filter_In. split; [exact Hin|].
      unfold filters_keep in *. rewrite forallb_app in Hk.
      now apply andb_true_iff in Hk.
    + intros t Ht. now apply filter_In in Ht.
Qed.

Lemma remove_small_clusters_kept (mesh : TriangleMesh) (min_num_faces : Z)
    (triangle_clusters : list nat) (cluster_n_triangles : list Z)
    (cluster_area : list float) :
  cluster_connected_triangles mesh
  = (triangle_clusters, cluster_n_triangles, cluster_area) ->
  List.length triangle_clusters = List.length (triangles mesh) ->
  Forall (fun l => (l < List.length cluster_n_triangles)%nat)
         triangle_clusters ->
  remove_small_clusters mesh min_num_faces
  = Ok (remove_unreferenced_vertices
          (mkMesh (vertices mesh)
             (map fst
                (filter (fun tl => negb (nth (snd tl) cluster_n_triangles 0
                                         <? min_num_faces))
                        (combine (triangles mesh) triangle_clusters))))).
Proof.
  intros Hc Hlen Hrange. unfold remove_small_clusters. rewrite Hc.
  rewrite (take_indices_in_range _ _ Hrange). simpl.
  unfold remove_triangles_by_mask.
  rewrite !length_map, Hlen, Nat.eqb_refl. simpl. rewrite map_map.
  now rewrite (remove_by_mask_combine
                 (fun l => nth l cluster_n_triangles 0 <? min_num_faces)
                 (triangles mesh) triangle_clusters Hlen).
Qed.

(** X12: the two ends of the connected-component step.  When no reported
    cluster is smaller than [min_num_faces] no triangle is removed and only the unreferenced vertices go; when every
    reported cluster is smaller, the mesh written is empty, without
    triangles and without vertices. *)
Theorem cluster_threshold_extremes (mesh : TriangleMesh) (min_num_faces : Z)
    (triangle_clusters : list nat) (cluster_n_triangles : list Z)
    (cluster_area : list float) :
  cluster_connected_triangles mesh
  = (triangle_clusters, cluster_n_triangles, cluster_area) ->
  List.length triangle_clusters = List.length (triangles mesh) ->
  Forall (fun l => (l < List.length cluster_n_triangles)%nat)
         triangle_clusters ->
  (Forall (fun n => min_num_faces <= n) cluster_n_triangles ->
   remove_small_clusters mesh min_num_faces
   = Ok (remove_unreferenced_vertices mesh)) /\
  (Forall (fun n => n < min_num_faces) cluster_n_triangles ->
   remove_small_clusters mesh min_num_faces = Ok (mkMesh [] [])).
Proof.
  intros Hc Hlen Hrange.
  rewrite (remove_small_clusters_kept mesh min_num_faces _ _ _ Hc Hlen Hrange).
  rewrite Forall_forall in Hrange. split; intros Hsize;
    rewrite Forall_forall in Hsize.
  - rewrite filter_all.
    + rewrite (map_fst_combine_same_length _ _ Hlen). now destruct mesh.
    + intros [t l] Hin. simpl. apply in_combine_r in Hin.
      apply negb_true_iff, Z.ltb_ge, Hsize, nth_In, Hrange, Hin.
  - rewrite filter_none.
    + unfold remove_unreferenced_vertices. simpl. f_equal.
      rewrite filter_none; [reflexivity|]. now intros [i v] _.
    + intros [t l] Hin. simpl. apply in_combine_r in Hin.
      apply negb_false_iff, Z.ltb_lt, Hsize, nth_In, Hrange, Hin.
Qed.

Lemma remove_small_clusters_no_type_error (mesh : TriangleMesh)
    (min_num_faces : Z) :
  remove_small_clusters mesh min_num_faces <> Err TypeError.
Proof.
  unfold remove_small_clusters.
  destruct (cluster_connected_triangles mesh)
    as [[triangle_clusters cluster_n_triangles] cluster_area].
  assert (Hidx : forall a idx, take_indices a idx <> Err TypeError).
  { intros a idx. induction idx as [|i idx IH]; simpl; [discriminate|].
    destruct (nth_error a i); [|discriminate].
    destruct (take_indices a idx); simpl; [discriminate | exact IH]. }
  destruct (take_indices _ _) as [counts|e] eqn:E; simpl.
  - unfold remove_triangles_by_mask.
    destruct (_ =? _)%nat; simpl; discriminate.
  - intros [= ->]. now apply (Hidx cluster_n_triangles triangle_clusters).
Qed.

End MoreMeshFilters.

(** ** Live integration *)

Section Live.

Context {C : Collaborators}.

(** X13: a tick that admits a frame in live mode.  The frame joins the
    keyframe lists and no integration is left in flight, whatever happens
    next; when the pose has an inverse and the engine takes the call, the
    volume gains exactly that call, made with the inverse pose, and the
    processed counter grows by one; when either raises, the volume and the
    counter stay as they were, so the frame is archived but neither
    integrated nor counted. *)
Theorem live_tick_outcome (s : State) (f : SensorDatum)
    (rest : list SensorDatum) (vol : Volume) :
  live_integration s = true -> tsdf_volume s = Some vol ->
  30 < frame_count s -> sensor_data s = f :: rest ->
  geb (tran_dist s f) (translation_distance s)
  || geb (rot_dist s f) (rotational_distance s) = true ->
  let s' := reconstructCallback s in
  admitted s s' f /\ integration_done s' = true /\
  tsdf_integration_data s' = tsdf_integration_data s /\
  match linalg_inv (frame_matrix f) with
  | Ok extrinsic =>
      let call :=
        mkIntegrateCall
          (create_from_color_and_depth (color_of f) (depth_of f)
             (depth_scale s) (depth_trunc s) false)
          (intrinsics s) extrinsic in
      match integrate_raises vol call with
      | None =>
          tsdf_volume s' = Some (add_calls vol [call]) /\
          processed_frame_count s' = processed_frame_count s + 1
      | Some _ =>
          tsdf_volume s' = Some vol /\
          processed_frame_count s' = processed_frame_count s
      end
  | Err _ =>
      tsdf_volume s' = Some vol /\
      processed_frame_count s' = processed_frame_count s
  end.
Proof.
  intros Hl Hv Hw Hq Hg s'. subst s'.
  split; [apply (reconstructCallback_accept s f rest Hw Hq Hg)|].
  unfold reconstructCallback.
  rewrite (warm_guard s f rest Hw Hq), Hq.
  destruct f as [[depth_img rgb_img] tf].
  unfold tran_dist, rot_dist, frame_matrix, frame_pose, color_of, depth_of
    in *.
  destruct (transformStampedToVectors tf) as [rgb_t rgb_r].
  simpl in *. rewrite Hg, Hl, Hv. simpl.
  unfold integrate_frame, integrate. simpl.
  destruct (linalg_inv _) as [ext|e]; simpl;
    [destruct (integrate_raises vol _); simpl|]; rewrite ?Hv;
    repeat split.
Qed.

Lemma deferred_calls_app (s : State) (a b : list IntegrationDatum) :
  deferred_calls s (a ++ b)
  = (ca <- deferred_calls s a ;; cb <- deferred_calls s b ;; Ok (ca ++ cb)).
Proof.
  induction a as [|[[d c] p] a IH]; simpl.
  - now destruct (deferred_calls s b).
  - destruct (linalg_inv p); simpl; [|reflexivity].
    rewrite IH. destruct (deferred_calls s a); simpl; [|reflexivity].
    now destruct (deferred_calls s b).
Qed.

End Live.

(** ** Live and deferred sessions over the same frames *)

Section SideBySide.

Context {C : Collaborators}.

Ltac open_mirrors H :=
  unfold mirrors, common in H; simpl in H;
  destruct H as (HlL & HlD & HvD & HvL & Hcalls & HbL & Hdone & Hcommon);
  injection Hcommon; intros; subst.

Lemma takes_all_app (vol : Volume) (a b : list IntegrateCall) :
  takes_all vol (a ++ b) <-> takes_all vol a /\ takes_all (add_calls vol a) b.
Proof.
  revert vol. induction a as [|call a IH]; intros vol; simpl.
  - rewrite add_calls_nil. tauto.
  - rewrite IH, add_calls_cons. tauto.
Qed.

(** When the drain loop ends normally, every pose had an inverse and the
    engine took every call. *)
Lemma drain_takes_all (pending : list IntegrationDatum) :
  forall (vol : Volume) (s s' : State),
  drain_integration_data pending vol s = inr s' ->
  exists calls, deferred_calls s pending = Ok calls /\ takes_all vol calls.
Proof.
  induction pending as [|[[depth_img rgb_img] rgb_pose] rest IH];
    intros vol s s' Hd; simpl in Hd.
  - exists []. now split.
  - unfold integrate_frame, integrate in Hd. simpl in Hd.
    destruct (linalg_inv rgb_pose) as [ext|e] eqn:Hinv; simpl in Hd;
      [|discriminate].
    destruct (integrate_raises vol _) eqn:Hraise; [discriminate|].
    apply IH in Hd. destruct Hd as (calls & Hcalls & Htakes).
    eexists (_ :: calls). split.
    + simpl. rewrite Hinv. simpl.
      erewrite deferred_calls_ext in Hcalls; [rewrite Hcalls|..];
        reflexivity.
    + simpl. split; [exact Hraise | exact Htakes].
Qed.

(** No callback of the other threads takes an entry off the deferred buffer
    or changes the depth parameters, and only camera info changes the
    intrinsics. *)
Lemma background_buffer_grows (b : Background) (s : State) :
  (exists extra,
     tsdf_integration_data (background b s)
     = tsdf_integration_data s ++ extra) /\
  depth_scale (background b s) = depth_scale s /\
  depth_trunc (background b s) = depth_trunc s /\
  live_integration (background b s) = live_integration s /\
  (live_integration s = false ->
   tsdf_volume (background b s) = tsdf_volume s) /\
  ((forall ci, b <> BgCameraInfo ci) ->
   intrinsics (background b s) = intrinsics s).
Proof.
  destruct b as [d c | | ci]; simpl.
  - destruct (cameraCallback_cases d c s) as [-> | (_ & _ & f & ->)]; simpl;
      (split; [exists []; now rewrite app_nil_r | now repeat split]).
  - rewrite reconstructCallback_parts.
    destruct ((frame_count s <=? 30) || _);
      [split; [exists []; now rewrite app_nil_r | now repeat split]|].
    destruct (sensor_data s) as [|[[depth_img rgb_img] tf] rest];
      [split; [exists []; now rewrite app_nil_r | now repeat split]|].
    unfold reconstructCallback_after_popleft.
    destruct (transformStampedToVectors tf) as [rgb_t rgb_r]. simpl.
    destruct (geb _ _ || geb _ _);
      [|split; [exists []; now rewrite app_nil_r | now repeat split]].
    destruct (live_integration s) eqn:Hl;
      [destruct (tsdf_volume s) as [vol|] eqn:Hv|]; simpl.
    + destruct (integrate_frame _ _ _ _ _); simpl; rewrite ?Hl;
        (split; [exists []; now rewrite app_nil_r
                |repeat split; auto; discriminate]).
    + rewrite ?Hl, ?Hv. split; [eexists; reflexivity|].
      repeat split; auto.
    + rewrite ?Hl. split; [eexists; reflexivity|]. repeat split; auto.
  - split; [exists []; now rewrite app_nil_r|]. repeat split; auto.
    intros H. now destruct (H ci).
Qed.

Lemma run_background_buffer_grows (bs : list Background) :
  forall s intr,
  (forall ci, In (BgCameraInfo ci) bs ->
              intr = Some (getIntrinsicsFromMsg ci)) ->
  intrinsics s = intr ->
  (exists extra,
     tsdf_integration_data (run_background bs s)
     = tsdf_integration_data s ++ extra) /\
  depth_scale (run_background bs s) = depth_scale s /\
  depth_trunc (run_background bs s) = depth_trunc s /\
  live_integration (run_background bs s) = live_integration s /\
  (live_integration s = false ->
   tsdf_volume (run_background bs s) = tsdf_volume s) /\
  intrinsics (run_background bs s) = intr.
Proof.
  unfold run_background.
  induction bs as [|b bs IH]; intros s intr Hinfo Hi; simpl.
  - split; [exists []; now rewrite app_nil_r|]. repeat split; auto.
  - destruct (background_buffer_grows b s)
      as ((e1 & E1) & D1 & T1 & L1 & V1 & I1).
    assert (Hi1 : intrinsics (background b s) = intr).
    { destruct b as [d c | | ci];
        try (rewrite I1; [exact Hi | discriminate]).
      simpl. symmetry. apply Hinfo. now left. }
    destruct (IH (background b s) intr
                (fun ci Hin => Hinfo ci (or_intror Hin)) Hi1)
      as ((e2 & E2) & D2 & T2 & L2 & V2 & I2).
    split; [exists (e1 ++ e2); rewrite E2, E1; now rewrite app_assoc|].
    split; [congruence|]. split; [congruence|]. split; [congruence|].
    split; [|exact I2].
    intros Hl. rewrite V2 by congruence. now apply V1.
Qed.

(** If the deferred buffer as it will be at Stop drains without an
    exception, so does the buffer as it is now. *)
Lemma drain_of_prefix (s s' : State) (vol0 : Volume)
    (extra : list IntegrationDatum) (calls' : list IntegrateCall) :
  tsdf_integration_data s' = tsdf_integration_data s ++ extra ->
  depth_scale s' = depth_scale s -> depth_trunc s' = depth_trunc s ->
  intrinsics s' = intrinsics s ->
  deferred_calls s' (tsdf_integration_data s') = Ok calls' ->
  takes_all vol0 calls' ->
  exists calls rest,
    deferred_calls s (tsdf_integration_data s) = Ok calls /\
    calls' = calls ++ rest /\ takes_all vol0 calls.
Proof.
  intros Hb Hd Ht Hi Hcalls Htakes.
  rewrite Hb, deferred_calls_app in Hcalls.
  rewrite (deferred_calls_ext s' s _ Hd Ht Hi) in Hcalls.
  destruct (deferred_calls s (tsdf_integration_data s)) as [calls|e];
    simpl in Hcalls; [|discriminate].
  destruct (deferred_calls s' extra) as [rest|e]; simpl in Hcalls;
    [|discriminate].
  injection Hcalls as <-. exists calls, rest.
  split; [reflexivity|]. split; [reflexivity|].
  now apply takes_all_app in Htakes.
Qed.

Lemma mirrors_start (req : StartRequest) (s0 : State) :
  integration_done s0 = true ->
  mirrors
    (state_of (startReconstructionCallback (with_live true req)
                 fresh_response s0))
    (state_of (startReconstructionCallback (with_live false req)
                 fresh_response s0))
    (ScalableTSDFVolume (req_voxel_length req) (req_sdf_trunc req) []) [].
Proof.
  intros Hd. unfold mirrors, common. simpl. repeat split. exact Hd.
Qed.

Lemma mirrors_camera (d c : ImageMsg) (sL sD : State) (vol0 : Volume)
    (calls : list IntegrateCall) :
  mirrors sL sD vol0 calls ->
  mirrors (cameraCallback d c sL) (cameraCallback d c sD) vol0 calls.
Proof.
  intros H. pose proof H as H'.
  destruct sL, sD. open_mirrors H. unfold cameraCallback. simpl.
  destruct (_ || negb _); [exact H'|].
  destruct (imgmsg_to_cv2 d "16UC1"); [|exact H'].
  destruct (imgmsg_to_cv2 c (encoding c)); [|exact H'].
  destruct (lookup_transform _ _ _); [|exact H'].
  unfold mirrors, common. simpl. repeat split.
  erewrite deferred_calls_ext; [exact Hcalls|..]; reflexivity.
Qed.

(** A tick keeps the two sessions in step when the deferred buffer it
    leaves drains without an exception. *)
Lemma mirrors_tick (sL sD : State) (vol0 : Volume)
    (calls calls' : list IntegrateCall) :
  mirrors sL sD vol0 calls ->
  deferred_calls (reconstructCallback sD)
    (tsdf_integration_data (reconstructCallback sD)) = Ok calls' ->
  takes_all vol0 calls' ->
  mirrors (reconstructCallback sL) (reconstructCallback sD) vol0 calls'.
Proof.
  intros H Hc Htakes. pose proof H as H'.
  destruct sL, sD. open_mirrors H. revert Hc Htakes.
  unfold reconstructCallback. simpl.
  destruct ((_ <=? 30) || _).
  { simpl. intros Hc _. unfold mirrors in H'. simpl in H'.
    assert (calls' = calls) by congruence. subst calls'. exact H'. }
  match goal with
  | |- context [match ?q with [] => _ | _ :: _ => _ end] =>
      destruct q as [|[[depth_img rgb_img] tf] rest]
  end.
  { simpl. intros Hc _. unfold mirrors in H'. simpl in H'.
    assert (calls' = calls) by congruence. subst calls'. exact H'. }
  destruct (transformStampedToVectors tf) as [rgb_t rgb_r]. simpl.
  destruct (geb _ _ || geb _ _).
  - simpl. intros Hc Htakes.
    rewrite deferred_calls_app in Hc.
    erewrite deferred_calls_ext in Hc; [rewrite Hcalls in Hc|..];
      try reflexivity.
    simpl in Hc. unfold integrate_frame, integrate. simpl.
    destruct (linalg_inv (set_translation (transformation_matrix rgb_r)
                            rgb_t)) as [ext|e] eqn:Hext;
      simpl in Hc; [|discriminate].
    injection Hc as <-.
    apply takes_all_app in Htakes. destruct Htakes as [_ [Htake _]].
    simpl. rewrite Htake. simpl.
    unfold mirrors, common. simpl. repeat split.
    + unfold add_calls. simpl. now rewrite app_assoc.
    + rewrite deferred_calls_app.
      erewrite deferred_calls_ext; [rewrite Hcalls|..]; try reflexivity.
      simpl. rewrite Hext. reflexivity.
  - simpl. intros Hc _.
    erewrite deferred_calls_ext in Hc; [rewrite Hcalls in Hc|..];
      try reflexivity.
    injection Hc as <-. unfold mirrors, common. simpl. repeat split.
    erewrite deferred_calls_ext; [exact Hcalls|..]; reflexivity.
Qed.

Lemma mirrors_camera_info (ci : CameraInfo) (sL sD : State) (vol0 : Volume)
    (calls : list IntegrateCall) :
  intrinsics sD = Some (getIntrinsicsFromMsg ci) ->
  mirrors sL sD vol0 calls ->
  mirrors (cameraInfoCallback ci sL) (cameraInfoCallback ci sD) vol0 calls.
Proof.
  intros Hi H. destruct sL, sD. simpl in Hi. open_mirrors H.
  unfold cameraInfoCallback, mirrors, common. simpl. repeat split.
  erewrite deferred_calls_ext; [exact Hcalls|..]; reflexivity.
Qed.

Lemma mirrors_calls (sL sD : State) (vol0 : Volume)
    (calls calls' : list IntegrateCall) :
  mirrors sL sD vol0 calls ->
  deferred_calls sD (tsdf_integration_data sD) = Ok calls' ->
  calls' = calls.
Proof. intros (_ & _ & _ & _ & Hc & _) H. congruence. Qed.

(** The two sessions stay in step over the same callbacks when the buffer
    the deferred session ends with drains without an exception. *)
Lemma mirrors_background (bs : list Background) :
  forall sL sD vol0 calls intr callsF,
  (forall ci, In (BgCameraInfo ci) bs ->
              intr = Some (getIntrinsicsFromMsg ci)) ->
  intrinsics sD = intr ->
  mirrors sL sD vol0 calls ->
  deferred_calls (run_background bs sD)
    (tsdf_integration_data (run_background bs sD)) = Ok callsF ->
  takes_all vol0 callsF ->
  mirrors (run_background bs sL) (run_background bs sD) vol0 callsF.
Proof.
  induction bs as [|b bs IH];
    intros sL sD vol0 calls intr callsF Hinfo Hi H HF Htakes.
  - simpl in *. now rewrite (mirrors_calls sL sD vol0 calls callsF H HF).
  - assert (Hinfo' : forall ci, In (BgCameraInfo ci) bs ->
                                intr = Some (getIntrinsicsFromMsg ci))
      by (intros ci Hin; apply Hinfo; now right).
    change (run_background (b :: bs) sL)
      with (run_background bs (background b sL)).
    change (run_background (b :: bs) sD)
      with (run_background bs (background b sD)) in *.
    assert (Hi1 : intrinsics (background b sD) = intr).
    { destruct (background_buffer_grows b sD) as (_ & _ & _ & _ & _ & I1).
      destruct b as [d c | | ci];
        try (rewrite I1; [exact Hi | discriminate]).
      simpl. symmetry. apply Hinfo. now left. }
    destruct (run_background_buffer_grows bs (background b sD) intr
                Hinfo' Hi1) as ((extra & E) & D & T & _ & _ & I).
    destruct (drain_of_prefix (background b sD)
                (run_background bs (background b sD)) vol0 extra callsF
                E D T ltac:(congruence) HF Htakes)
      as (calls1 & rest & Hc1 & _ & Ht1).
    apply (IH _ _ vol0 calls1 intr callsF Hinfo' Hi1); try assumption.
    destruct b as [d c | | ci]; simpl in *.
    + pose proof (mirrors_camera d c sL sD vol0 calls H) as H1.
      now rewrite (mirrors_calls _ _ vol0 calls calls1 H1 Hc1).
    + now apply (mirrors_tick sL sD vol0 calls calls1).
    + assert (Hci : intr = Some (getIntrinsicsFromMsg ci))
        by (apply Hinfo; now left).
      pose proof (mirrors_camera_info ci sL sD vol0 calls
                    ltac:(congruence) H) as H1.
      now rewrite (mirrors_calls _ _ vol0 calls calls1 H1 Hc1).
Qed.

Lemma post_process_common (req : StopRequest) (s1 s2 : State)
    (mesh : TriangleMesh) :
  crop_mesh s1 = crop_mesh s2 -> crop_box s1 = crop_box s2 ->
  post_process req s1 mesh = post_process req s2 mesh.
Proof. intros H1 H2. unfold post_process. now rewrite H1, H2. Qed.

(** X14: a live and a deferred session started with the same request from
    the same state and fed the same frames, ticks and (unchanged) camera
    intrinsics end alike whenever the deferred session's Stop returns, that
    is, whenever every buffered pose has an inverse, the engine takes every
    buffered frame and the mesh filtering succeeds: the live session's Stop
    then returns the same response and writes the same files, and both
    sessions are left with the same volume, holding the same integrate
    calls in the same order, and the same counters and keyframe lists. *)
Theorem live_and_deferred_agree (req : StartRequest) (s0 : State)
    (bs : list Background) (stop : StopRequest) (res r : Response)
    (out : list Output) (sD' : State) :
  integration_done s0 = true ->
  (forall ci, In (BgCameraInfo ci) bs ->
              intrinsics s0 = Some (getIntrinsicsFromMsg ci)) ->
  stop_export stop res (session false req s0 bs) = Returned r out sD' ->
  exists sL',
    stop_export stop res (session true req s0 bs) = Returned r out sL' /\
    tsdf_volume sL' = tsdf_volume sD' /\
    tsdf_volume sD' <> None /\
    common sL' = common sD' /\
    tsdf_integration_data sD' = [].
Proof.
  intros Hd Hinfo HD. unfold session in *.
  set (sL0 := state_of (startReconstructionCallback (with_live true req)
                          fresh_response s0)) in *.
  set (sD0 := state_of (startReconstructionCallback (with_live false req)
                          fresh_response s0)) in *.
  set (vol0 := ScalableTSDFVolume (req_voxel_length req)
                 (req_sdf_trunc req) []).
  destruct (run_background_buffer_grows bs sD0 (intrinsics s0) Hinfo
              eq_refl) as (_ & _ & _ & HlD & HvD & _).
  specialize (HvD eq_refl).
  change (live_integration sD0) with false in HlD.
  change (tsdf_volume sD0) with (Some vol0) in HvD.
  remember (run_background bs sD0) as sD eqn:ED.
  assert (Hdrain : exists callsF,
            deferred_calls sD (tsdf_integration_data sD) = Ok callsF /\
            takes_all vol0 callsF).
  { unfold stop_export in HD. rewrite HvD, HlD in HD. simpl in HD.
    destruct (drain_integration_data _ vol0 sD) as [o|s1] eqn:Hdr.
    - apply drain_leaves_by_exception in Hdr.
      destruct Hdr as (e & s2 & ->). discriminate.
    - now apply drain_takes_all in Hdr. }
  destruct Hdrain as (calls & HcF & Htakes).
  rewrite ED in HcF.
  pose proof (mirrors_background bs sL0 sD0 vol0 [] (intrinsics s0) calls
                Hinfo eq_refl (mirrors_start req s0 Hd) HcF Htakes) as H.
  rewrite <- ED in H, HcF.
  remember (run_background bs sL0) as sL eqn:EL.
  clear EL ED Hinfo Hd HlD HvD.
  destruct H as (HlL & HlD & HvD & HvL & Hcalls & HbL & Hdone & Hcommon).
  apply stop_export_returns in HD as HD'.
  destruct HD' as [(Hn & _) | [(v & _ & Hl & _) | (v & cs & Hv & _ & Hcs
                                                 & _ & HsD' & Hsucc)]];
    try congruence.
  assert (v = vol0) by congruence. subst v.
  assert (cs = calls) by congruence. subst cs.
  assert (Hcm : crop_mesh sL = crop_mesh sD)
    by (apply (f_equal crop_mesh) in Hcommon; exact Hcommon).
  assert (Hcb : crop_box sL = crop_box sD)
    by (apply (f_equal crop_box) in Hcommon; exact Hcommon).
  unfold stop_export in HD. rewrite HvD, HlD in HD. simpl in HD.
  destruct (drain_integration_data _ vol0 sD) as [o|s1] eqn:Hdr.
  { apply drain_leaves_by_exception in Hdr.
    destruct Hdr as (e & s2 & ->). discriminate. }
  apply drain_returns in Hdr; [|assumption|reflexivity].
  destruct Hdr as (calls' & Hcalls' & _ & Hs1).
  assert (calls' = calls) by congruence. subst calls'.
  rewrite Hs1 in HD. simpl in HD.
  unfold stop_export. rewrite HvL, HlL. simpl. rewrite HvL.
  rewrite (post_process_common stop sL
             (set_tsdf_volume (Some (add_calls vol0 calls))
                (set_tsdf_integration_data [] sD))
             (extract_triangle_mesh (add_calls vol0 calls)) Hcm Hcb).
  destruct (post_process stop _ _) as [mesh|e]; [|discriminate].
  simpl in HD. injection HD as <- <- <-.
  eexists. split.
  - rewrite Hcm.
    apply (f_equal depth_images) in Hcommon as E1.
    apply (f_equal color_images) in Hcommon as E2.
    apply (f_equal rgb_poses) in Hcommon as E3.
    apply (f_equal intrinsics) in Hcommon as E4.
    simpl in E1, E2, E3, E4. rewrite E1, E2, E3, E4. reflexivity.
  - simpl. rewrite HvL. repeat split; try discriminate.
    destruct sL, sD. simpl in *. exact Hcommon.
Qed.

End SideBySide.

(** ** The point-cloud message *)

Section CloudProperties.

Context {L : CloudLibraries}.

Lemma pack_colors_length (colors : list Vec3) :
  forall packed, pack_colors colors = Built packed ->
  List.length packed = List.length colors.
Proof.
  induction colors as [|c colors IH]; intros packed H; simpl in H.
  - now injection H as <-.
  - destruct (tuple_to_int_rgb c) as [n|]; simpl in H; [|discriminate].
    destruct (int_to_float_rbg n) as [x|]; simpl in H; [|discriminate].
    destruct (pack_colors colors) as [xs|]; simpl in H; [|discriminate].
    injection H as <-. simpl. now rewrite (IH xs).
Qed.

Lemma hstack_rows (data columns result : list (list float)) :
  hstack data columns = Built result ->
  List.length columns = List.length data /\
  List.length result = List.length data.
Proof.
  unfold hstack.
  destruct (List.length data =? List.length columns)%nat eqn:E;
    [|discriminate].
  apply Nat.eqb_eq in E. intros [= <-].
  rewrite length_map, length_combine. lia.
Qed.

(** X15: the message [to_cloud_msg] builds.  It has the seven fields x, y,
    z, rgb, normal_x, normal_y, normal_z in this order, each a single
    FLOAT32 four bytes after the one before, a point step of 28 bytes, one
    row of as many points as the cloud has, and a row step of 28 bytes per
    point; and it is built only for a cloud that is not empty and has one
    colour and one normal per point.  A cloud without colours, so also an
    empty one, raises [ValueError] instead. *)
Theorem to_cloud_msg_layout (frame : string) (pointcloud : PointCloud) :
  (forall msg,
     to_cloud_msg frame pointcloud = Built msg ->
     let n := List.length (cloud_points pointcloud) in
     (0 < n)%nat /\
     List.length (cloud_colors pointcloud) = n /\
     List.length (cloud_normals pointcloud) = n /\
     pc_frame_id msg = frame /\ pc_height msg = 1 /\
     pc_width msg = Z.of_nat n /\
     pc_fields msg
     = map (fun i_name =>
              mkPointField (snd i_name) (4 * Z.of_nat (fst i_name)) FLOAT32 1)
           (combine (seq 0 7)
              ["x"; "y"; "z"; "rgb"; "normal_x"; "normal_y"; "normal_z"]
              %string) /\
     pc_point_step msg = 28 /\
     pc_row_step msg = 28 * Z.of_nat n /\
     pc_is_bigendian msg = false /\ pc_is_dense msg = false) /\
  (cloud_colors pointcloud = [] ->
   to_cloud_msg frame pointcloud = Failed ValueError).
Proof.
  split.
  - intros msg H n. subst n. unfold to_cloud_msg in H.
    destruct (pack_colors (cloud_colors pointcloud)) as [colors|] eqn:Hp;
      simpl in H; [|discriminate].
    apply pack_colors_length in Hp.
    destruct colors as [|x colors]; simpl in H; [discriminate|].
    destruct (hstack (map row3 (cloud_points pointcloud)) _)
      as [data|] eqn:H1; simpl in H; [|discriminate].
    apply hstack_rows in H1. destruct H1 as [Hc Hd].
    destruct (hstack data _) as [data'|] eqn:H2; simpl in H; [|discriminate].
    apply hstack_rows in H2. destruct H2 as [Hn Hd'].
    simpl in Hc, Hp. rewrite !length_map in *. injection H as <-. simpl.
    rewrite ?length_map.
    repeat split; try lia.
    now rewrite Hd', Hd.
  - intros H. unfold to_cloud_msg. rewrite H. reflexivity.
Qed.

(** The ints the colour packing yields for colour components that scale to
    bytes: the three bytes side by side, accepted by [struct.pack]. *)
Lemma int_to_float_rbg_bytes (r g b : Z) :
  0 <= r <= 255 -> 0 <= g <= 255 -> 0 <= b <= 255 ->
  int_to_float_rbg (65536 * r + 256 * g + b)
  = Built (float_of_bits (65536 * r + 256 * g + b)).
Proof.
  intros Hr Hg Hb. unfold int_to_float_rbg.
  replace ((0 <=? 65536 * r + 256 * g + b)
           && (65536 * r + 256 * g + b <? 2 ^ 32)) with true; [reflexivity|].
  symmetry. apply andb_true_iff. split; [apply Z.leb_le | apply Z.ltb_lt];
    change (2 ^ 32) with 4294967296; lia.
Qed.

Section Diagnostic.

Context {C : Collaborators}.

(** X16: the diagnostic point cloud.  A tick reaches [to_cloud_msg] exactly
    when the session is live with a volume and still recording and the tick
    integrates a frame that brings the processed counter to a multiple of
    50; the cloud is then extracted from the volume as that tick leaves it
    and named after the relative frame.  In deferred mode, after Stop, and
    on a tick whose integration raises, nothing is published. *)
Theorem diagnostic_cloud_every_50 (s : State) :
  (forall r,
     reconstructCallback_cloud s = Some r ->
     live_integration s = true /\ record s = true /\
     processed_frame_count (reconstructCallback s)
     = processed_frame_count s + 1 /\
     processed_frame_count (reconstructCallback s) mod 50 = 0 /\
     exists vol',
       tsdf_volume (reconstructCallback s) = Some vol' /\
       r = to_cloud_msg (relative_frame s) (extract_point_cloud vol')) /\
  (live_integration s = true -> record s = true -> tsdf_volume s <> None ->
   processed_frame_count (reconstructCallback s)
   = processed_frame_count s + 1 ->
   (processed_frame_count s + 1) mod 50 = 0 ->
   reconstructCallback_cloud s <> None).
Proof.
  unfold reconstructCallback_cloud, reconstructCallback.
  destruct ((frame_count s <=? 30) || _).
  { split; [discriminate | intros; lia]. }
  destruct (sensor_data s) as [|[[depth_img rgb_img] tf] rest].
  { split; [discriminate | intros; lia]. }
  destruct (transformStampedToVectors tf) as [rgb_t rgb_r]. simpl.
  destruct (geb _ _ || geb _ _); simpl.
  2:{ split; [discriminate | intros; lia]. }
  destruct (live_integration s) eqn:Hl.
  2:{ split; [discriminate | intros; discriminate]. }
  destruct (tsdf_volume s) as [vol|] eqn:Hv.
  2:{ split; [discriminate | intros; congruence]. }
  unfold integrate_frame. simpl.
  destruct (linalg_inv _) as [ext|e]; simpl.
  2:{ split; [discriminate | intros; lia]. }
  destruct (integrate _ _ _ _) as [vol'|e]; simpl.
  2:{ split; [discriminate | intros; lia]. }
  destruct ((processed_frame_count s + 1) mod 50 =? 0) eqn:Hm; simpl.
  - apply Z.eqb_eq in Hm. destruct (record s) eqn:Hr.
    + split; [|discriminate]. intros r [= <-].
      repeat split; try assumption. exists vol'. now split.
    + split; [discriminate | intros; discriminate].
  - apply Z.eqb_neq in Hm. split; [discriminate | intros; congruence].
Qed.

End Diagnostic.

End CloudProperties.

(** ** Session parameters *)

Section Parameters.

Context {C : Collaborators}.

Lemma reconstructCallback_parameters (s : State) :
  parameters (reconstructCallback s) = parameters s.
Proof.
  pose proof (reconstructCallback_keeps s)
    as (_ & H1 & H2 & H3 & _ & _ & _ & H4 & H5 & H6 & H7 & H8 & _ & H9 & H10).
  unfold parameters. congruence.
Qed.

Lemma background_parameters (b : Background) (s : State) :
  parameters (background b s) = parameters s.
Proof.
  destruct b as [d c | | ci]; simpl.
  - destruct (cameraCallback_cases d c s) as [-> | (_ & _ & f & ->)];
      reflexivity.
  - apply reconstructCallback_parameters.
  - reflexivity.
Qed.

Lemma after_popleft_parameters (f : SensorDatum) (s : State) :
  parameters (reconstructCallback_after_popleft f s) = parameters s.
Proof.
  unfold reconstructCallback_after_popleft.
  destruct f as [[depth_img rgb_img] tf].
  destruct (transformStampedToVectors tf) as [rgb_t rgb_r]. simpl.
  destruct (geb _ _ || geb _ _); [|reflexivity].
  destruct (live_integration s) eqn:Hl;
    [destruct (tsdf_volume s) eqn:Hv|]; simpl;
    try (unfold parameters; simpl; rewrite ?Hl; reflexivity).
  destruct (integrate_frame _ _ _ _ _); unfold parameters; simpl;
    rewrite ?Hl; reflexivity.
Qed.

Lemma overlap_parameters (o : Overlap) (t : Threads) :
  parameters (fields (overlap o t)) = parameters (fields t).
Proof.
  apply (overlap_fields
           (fun s => parameters s = parameters (fields t)));
    [| | | |reflexivity].
  - intros d c s H.
    destruct (after_guard_cases d c s) as [-> | (f & ->)]; exact H.
  - intros s H. exact H.
  - intros f s H. now rewrite after_popleft_parameters.
  - intros ci s H. exact H.
Qed.

Lemma export_parameters (req : StopRequest) (res r : Response)
    (out : list Output) (s s' : State) :
  stop_export req res s = Returned r out s' -> parameters s' = parameters s.
Proof.
  intros H. apply stop_export_returns in H.
  destruct H as [(_ & -> & _) | [(vol & _ & _ & -> & _)
    | (vol & calls & _ & _ & _ & _ & -> & _)]];
    reflexivity.
Qed.

Lemma step_parameters (c : Call) (s s' : State) :
  (forall req, c <> Start req) ->
  step c s = Some s' -> parameters s' = parameters s.
Proof.
  intros Hc H. destruct c as [req | | | req sched | b]; cbn [step serve] in H.
  - now destruct (Hc req).
  - unfold pauseReconstructionCallback in H.
    destruct (record s); simpl in H; [discriminate|].
    now injection H as <-.
  - unfold resumeReconstructionCallback in H.
    destruct (paused s); simpl in H; now injection H as <-.
  - destruct (stop_run req fresh_response sched s)
      as [[[r out s1 | e s1] t]|] eqn:E; try discriminate.
    apply Some_inj in H. subst s'.
    set (Q := fun t0 : Threads => parameters (fields t0) = parameters s).
    assert (Ho : forall o t0, Q t0 -> Q (overlap o t0)).
    { intros o t0 H0. unfold Q in *. now rewrite overlap_parameters. }
    destruct (stop_run_invariant Q Ho) with
      (req := req) (res := fresh_response) (sched := sched) (s := s)
      (r := r) (out := out) (s' := s1) (t := t) as [HQ _];
      try exact E; try reflexivity.
    + intros t0 H0. exact H0.
    + intros rq rs t0 r0 out0 s0 H0 E0. unfold Q in *. simpl.
      now rewrite (export_parameters _ _ _ _ _ _ E0).
    + apply (settle_invariant Q (fun s0 => parameters s0 = parameters s) Ho);
        [|exact HQ].
      intros t0 H0 _ _. exact H0.
  - apply Some_inj in H. subst s'. apply background_parameters.
Qed.

(** X17: between one Start and the next, no call changes the session
    parameters Start installed: the frames, both gate thresholds, the depth
    scale and truncation, the live flag and the crop setting.  So Stop crops
    with the box of the last Start exactly when that Start gave one, never
    with a box left over from an earlier session, and it never fails for
    want of a crop box. *)
Theorem session_parameters_fixed (req : StartRequest) (s0 : State)
    (calls : list Call) (s : State) :
  ~ started calls ->
  run calls (state_of (startReconstructionCallback req fresh_response s0))
  = Some s ->
  parameters s
  = parameters (state_of (startReconstructionCallback req fresh_response s0))
  /\
  translation_distance s = req_translation_distance req /\
  rotational_distance s = req_rotational_distance req /\
  live_integration s = req_live req /\
  (crop_mesh s = true ->
   crop_box s
   = Some (mkCropBox (req_min_box_values req) (req_max_box_values req))) /\
  (forall stop mesh, post_process stop s mesh <> Err TypeError).
Proof.
  intros Hns Hrun.
  assert (Hp : parameters s
               = parameters (state_of (startReconstructionCallback req
                                         fresh_response s0))).
  { revert Hns Hrun.
    generalize (state_of (startReconstructionCallback req fresh_response s0)).
    induction calls as [|c calls IH]; intros s1 Hns Hrun; simpl in Hrun.
    - now injection Hrun as <-.
    - destruct (step c s1) as [s2|] eqn:Hs; [|discriminate].
      rewrite (IH s2); [|intros [rq Hin]; apply Hns; exists rq; now right
                       |exact Hrun].
      apply (step_parameters c s1 s2); [|exact Hs].
      intros rq ->. apply Hns. exists rq. now left. }
  split; [exact Hp|].
  unfold parameters in Hp. simpl in Hp.
  injection Hp as _ _ Ht Hr _ _ _ Hcm Hcb Hl.
  split; [exact Ht|]. split; [exact Hr|]. split; [exact Hl|].
  assert (Hbox : crop_mesh s = true ->
                 crop_box s = Some (mkCropBox (req_min_box_values req)
                                      (req_max_box_values req))).
  { intros Hc. rewrite Hcb. rewrite Hcm in Hc.
    destruct (req_min_box_values req) as [[x0 y0] z0].
    destruct (req_max_box_values req) as [[x1 y1] z1].
    destruct ((x0 =? x1)%float && (y0 =? y1)%float && (z0 =? z1)%float);
      [discriminate | reflexivity]. }
  split; [exact Hbox|].
  intros stop mesh. unfold post_process.
  destruct (crop_mesh s) eqn:Hc.
  - rewrite (Hbox eq_refl). simpl.
    rewrite apply_normal_filters_filter. simpl.
    apply remove_small_clusters_no_type_error.
  - simpl. rewrite apply_normal_filters_filter. simpl.
    apply remove_small_clusters_no_type_error.
Qed.

End Parameters.

(** ** Arriving frames *)

Section Arriving.

Context {C : Collaborators}.

Lemma cameraCallback_received (d c : ImageMsg) (s : State) :
  record s = true -> paused s = false ->
  let s' := cameraCallback d c s in
  record s' = true /\ paused s' = false /\
  relative_frame s' = relative_frame s /\
  tracking_frame s' = tracking_frame s /\
  match received s (d, c) with
  | Some f =>
      sensor_data s' = sensor_data s ++ [f] /\
      frame_count s' = frame_count s + 1
  | None => s' = s
  end.
Proof.
  intros Hr Hp. unfold cameraCallback, received. rewrite Hr, Hp. simpl.
  destruct (imgmsg_to_cv2 d "16UC1"); [|now repeat split].
  destruct (imgmsg_to_cv2 c (encoding c)); [|now repeat split].
  destruct (lookup_transform _ _ _); now repeat split.
Qed.

Lemma received_same_frames (s1 s2 : State) (pair : ImageMsg * ImageMsg) :
  relative_frame s1 = relative_frame s2 ->
  tracking_frame s1 = tracking_frame s2 ->
  received s1 pair = received s2 pair.
Proof.
  intros H1 H2. unfold received. destruct pair. now rewrite H1, H2.
Qed.

(** X18: while the session records and is not paused, the image pairs that
    arrive join the back of the queue in their order of arrival, each with
    the images converted and the pose looked up at its colour image's stamp;
    a pair whose conversion or pose lookup fails is left out, and the
    frames-seen counter counts exactly the pairs that were queued. *)
Theorem arrivals_queue_in_order (pairs : list (ImageMsg * ImageMsg))
    (s : State) :
  record s = true -> paused s = false ->
  let queued := keep_some (map (received s) pairs) in
  let s' := run_background (arrivals pairs) s in
  sensor_data s' = sensor_data s ++ queued /\
  frame_count s' = frame_count s + Z.of_nat (List.length queued).
Proof.
  unfold run_background. revert s.
  induction pairs as [|[d c] pairs IH]; intros s Hr Hp.
  - simpl. rewrite app_nil_r. split; [reflexivity | lia].
  - change (arrivals ((d, c) :: pairs)) with (BgCamera d c :: arrivals pairs).
    change (map (received s) ((d, c) :: pairs))
      with (received s (d, c) :: map (received s) pairs).
    change (keep_some (received s (d, c) :: map (received s) pairs))
      with (match received s (d, c) with Some a => [a] | None => [] end
            ++ keep_some (map (received s) pairs)).
    cbn [fold_left].
    change (background (BgCamera d c) s) with (cameraCallback d c s).
    destruct (cameraCallback_received d c s Hr Hp)
      as (Hr1 & Hp1 & Hrel & Htr & Hrec).
    destruct (IH (cameraCallback d c s) Hr1 Hp1) as [Hq Hf].
    rewrite (map_ext (received (cameraCallback d c s)) (received s)) in Hq, Hf
      by (intros pair; now apply received_same_frames).
    destruct (received s (d, c)) as [f|].
    + destruct Hrec as [Hq1 Hf1]. rewrite Hq1 in Hq. rewrite Hf1 in Hf.
      rewrite <- app_assoc in Hq. split; [exact Hq|].
      rewrite Hf, length_app. cbn [List.length]. lia.
    + rewrite Hrec in Hq, Hf |- *. now split.
Qed.

End Arriving.

(** ** The properties on the concrete sessions *)

Lemma queue_drains_to_keyframes_witness :
  30 < frame_count warm_state /\
  sensor_data
    (run_background (repeat BgTick (List.length (sensor_data warm_state)))
       warm_state) = [].
Proof.
  assert (Hw : 30 < frame_count warm_state) by (vm_compute; reflexivity).
  split; [exact Hw|].
  pose proof (queue_drains_to_keyframes warm_state Hw) as H.
  cbv zeta in H. destruct H as (Hq & _). exact Hq.
Defined.

Lemma admitted_and_queued_within_seen_witness :
  run (Start (start_request false) :: frames 31) init_state
  = Some warm_state /\
  processed_frame_count warm_state
  + Z.of_nat (List.length (sensor_data warm_state))
  <= frame_count warm_state.
Proof.
  assert (Hrun : run (Start (start_request false) :: frames 31) init_state
                 = Some warm_state) by (vm_compute; reflexivity).
  split; [exact Hrun|].
  exact (proj2 (admitted_and_queued_within_seen _ _ Hrun)).
Defined.

Lemma archive_covers_every_keyframe_witness :
  run drained_session init_state = Some (state_after drained_session) /\
  List.length (rgb_poses (state_after drained_session)) = 31%nat /\
  archiveData "/tmp/scan/archive" (state_after drained_session)
  = Ok (MakeFolderKeepContents "/tmp/scan/archive"
        :: MakeCleanFolder (join "/tmp/scan/archive" "depth")
        :: MakeCleanFolder (join "/tmp/scan/archive" "color")
        :: MakeCleanFolder (join "/tmp/scan/archive" "pose")
        :: flat_map
             (keyframe_files "/tmp/scan/archive"
                (state_after drained_session))
             (seq 0 (List.length (rgb_poses (state_after drained_session))))).
Proof.
  assert (Hrun : run drained_session init_state
                 = Some (state_after drained_session))
    by (vm_compute; reflexivity).
  split; [exact Hrun|]. split; [vm_compute; reflexivity|].
  destruct (archive_covers_every_keyframe _ _ "/tmp/scan/archive" Hrun)
    as (_ & _ & _ & _ & Harchive).
  exact Harchive.
Defined.

Lemma nothing_happens_before_start_witness :
  ~ started idle_calls /\
  run idle_calls init_state = Some init_state /\
  reconstructCallback init_state = init_state.
Proof.
  assert (Hn : ~ started idle_calls).
  { intros [req Hin]. unfold idle_calls in Hin. simpl in Hin.
    destruct Hin as [H|[H|[H|[H|[]]]]]; discriminate. }
  assert (Hrun : run idle_calls init_state = Some init_state)
    by (vm_compute; reflexivity).
  split; [exact Hn|]. split; [exact Hrun|].
  destruct (nothing_happens_before_start _ _ Hrun Hn)
    as (_ & _ & _ & _ & _ & Htick).
  exact Htick.
Defined.


Lemma stop_export_again_witness :
  stop_export stop_request fresh_response buffered_state
  = Returned (response_of stop_outcome) (outputs_of stop_outcome)
      (state_of stop_outcome) /\
  stop_export stop_request fresh_response (state_of stop_outcome)
  = Returned (response_of stop_outcome) (outputs_of stop_outcome)
      (state_of stop_outcome).
Proof.
  assert (H : stop_export stop_request fresh_response buffered_state
              = Returned (response_of stop_outcome) (outputs_of stop_outcome)
                  (state_of stop_outcome)) by (vm_compute; reflexivity).
  split; [exact H|].
  exact (stop_export_again _ _ _ _ _ _ H).
Defined.

Lemma stop_export_files_witness :
  success (response_of archive_outcome) = true /\
  List.length (outputs_of archive_outcome) = 4%nat.
Proof.
  assert (H : stop_export archive_request fresh_response buffered_state
              = Returned (response_of archive_outcome)
                  (outputs_of archive_outcome) (state_of archive_outcome))
    by (vm_compute; reflexivity).
  assert (Hs : success (response_of archive_outcome) = true)
    by (vm_compute; reflexivity).
  split; [exact Hs|].
  destruct (stop_export_files _ _ _ _ _ _ H Hs)
    as (vol & cropped_mesh & _ & _ & Hout).
  cbv zeta in Hout. rewrite Hout. reflexivity.
Defined.

Lemma quiet_after_stop_witness :
  stop_barrier (ticking 31) calibrated_warm_state = Some calibrated_barrier /\
  camera_thread calibrated_barrier = None /\
  timer_thread calibrated_barrier = None /\
  record (state_of calibrated_stop_outcome) = false /\
  run_background [frame_at 40; BgTick] (state_of calibrated_stop_outcome)
  = set_intrinsics
      (intrinsics
         (run_background [frame_at 40; BgTick]
            (state_of calibrated_stop_outcome)))
      (state_of calibrated_stop_outcome).
Proof.
  assert (Hb : stop_barrier (ticking 31) calibrated_warm_state
               = Some calibrated_barrier) by (vm_compute; reflexivity).
  assert (Hc : camera_thread calibrated_barrier = None)
    by (vm_compute; reflexivity).
  assert (Ht : timer_thread calibrated_barrier = None)
    by (vm_compute; reflexivity).
  assert (H : stopReconstructionCallback stop_request fresh_response
                (ticking 31) calibrated_warm_state
              = Some (Returned (response_of calibrated_stop_outcome)
                        (outputs_of calibrated_stop_outcome)
                        (state_of calibrated_stop_outcome)))
    by (vm_compute; reflexivity).
  split; [exact Hb|]. split; [exact Hc|]. split; [exact Ht|].
  destruct (quiet_after_stop _ _ _ _ _ _ _ _ [frame_at 40; BgTick]
              Hb Hc Ht H) as (Hr & _ & Hq).
  split; [exact Hr | exact Hq].
Defined.

Lemma point_cloud_beside_mesh_witness :
  has_slash "mesh.ply" = false /\
  parent_by_split "/tmp/scan/mesh.ply" = "/tmp/scan"%string.
Proof.
  split; [reflexivity|].
  exact (proj1 (point_cloud_beside_mesh "/tmp/scan" "mesh.ply" eq_refl)).
Defined.

Lemma cluster_threshold_extremes_witness :
  cluster_connected_triangles two_cluster_mesh
  = (repeat 0%nat 5 ++ repeat 1%nat 50, [5; 50], [0%float; 0%float]) /\
  remove_small_clusters two_cluster_mesh 5
  = Ok (remove_unreferenced_vertices two_cluster_mesh) /\
  remove_small_clusters two_cluster_mesh 51 = Ok (mkMesh [] []).
Proof.
  assert (Hc : cluster_connected_triangles two_cluster_mesh
               = (repeat 0%nat 5 ++ repeat 1%nat 50, [5; 50],
                  [0%float; 0%float]))
    by (vm_compute; reflexivity).
  split; [exact Hc|]. split.
  - refine (proj1 (cluster_threshold_extremes two_cluster_mesh 5 _ _ _ Hc
                     _ _) _).
    + vm_compute. reflexivity.
    + repeat constructor.
    + repeat (apply Forall_cons; [lia|]). apply Forall_nil.
  - refine (proj2 (cluster_threshold_extremes two_cluster_mesh 51 _ _ _ Hc
                     _ _) _).
    + vm_compute. reflexivity.
    + repeat constructor.
    + repeat (apply Forall_cons; [lia|]). apply Forall_nil.
Defined.

Lemma live_tick_outcome_witness :
  live_integration live_warm_state = true /\
  30 < frame_count live_warm_state /\
  integration_done (reconstructCallback live_warm_state) = true /\
  tsdf_integration_data (reconstructCallback live_warm_state) = [].
Proof.
  assert (Hl : live_integration live_warm_state = true)
    by (vm_compute; reflexivity).
  assert (Hv : tsdf_volume live_warm_state
               = Some (ScalableTSDFVolume 0.01 0.04 []))
    by (vm_compute; reflexivity).
  assert (Hw : 30 < frame_count live_warm_state)
    by (vm_compute; reflexivity).
  assert (Hq : sensor_data live_warm_state
               = oldest live_warm_state :: queued_behind live_warm_state)
    by (vm_compute; reflexivity).
  assert (Hg : geb (tran_dist live_warm_state (oldest live_warm_state))
                 (translation_distance live_warm_state)
               || geb (rot_dist live_warm_state (oldest live_warm_state))
                    (rotational_distance live_warm_state) = true)
    by (vm_compute; reflexivity).
  split; [exact Hl|]. split; [exact Hw|].
  pose proof (live_tick_outcome _ _ _ _ Hl Hv Hw Hq Hg) as H.
  cbv zeta in H. destruct H as (_ & Hd & Hb & _).
  split; [exact Hd|]. rewrite Hb. vm_compute. reflexivity.
Defined.

Lemma live_and_deferred_agree_witness :
  integration_done calibrated_node = true /\
  stop_export stop_request fresh_response
    (session false (start_request false) calibrated_node
       info_frames_then_ticks)
  = Returned (response_of deferred_outcome) (outputs_of deferred_outcome)
      (state_of deferred_outcome) /\
  exists sL',
    stop_export stop_request fresh_response
      (session true (start_request false) calibrated_node
         info_frames_then_ticks)
    = Returned (response_of deferred_outcome) (outputs_of deferred_outcome)
        sL' /\
    tsdf_volume sL' = tsdf_volume (state_of deferred_outcome).
Proof.
  assert (Hd : integration_done calibrated_node = true)
    by (vm_compute; reflexivity).
  assert (Hc : forall ci, In (BgCameraInfo ci) info_frames_then_ticks ->
                          intrinsics calibrated_node
                          = Some (getIntrinsicsFromMsg ci)).
  { intros ci [Hin|Hin].
    - injection Hin as <-. vm_compute. reflexivity.
    - exfalso. unfold frames_then_ticks in Hin.
      apply in_app_or in Hin. destruct Hin as [Hin|Hin].
      + apply in_map_iff in Hin. destruct Hin as (t & E & _). discriminate.
      + apply repeat_spec in Hin. discriminate. }
  assert (HD : stop_export stop_request fresh_response
                 (session false (start_request false) calibrated_node
                    info_frames_then_ticks)
               = Returned (response_of deferred_outcome)
                   (outputs_of deferred_outcome) (state_of deferred_outcome))
    by (vm_compute; reflexivity).
  split; [exact Hd|]. split; [exact HD|].
  destruct (live_and_deferred_agree (start_request false) calibrated_node
              info_frames_then_ticks stop_request fresh_response _ _ _
              Hd Hc HD) as (sL' & HL & Hv & _).
  exists sL'. split; [exact HL | exact Hv].
Defined.

Lemma to_cloud_msg_layout_witness :
  to_cloud_msg "world" two_points
  = Built (built_or_blank (to_cloud_msg "world" two_points)) /\
  pc_point_step (built_or_blank (to_cloud_msg "world" two_points)) = 28 /\
  pc_width (built_or_blank (to_cloud_msg "world" two_points)) = 2.
Proof.
  assert (H : to_cloud_msg "world" two_points
              = Built (built_or_blank (to_cloud_msg "world" two_points)))
    by (vm_compute; reflexivity).
  split; [exact H|].
  pose proof (proj1 (to_cloud_msg_layout "world" two_points) _ H) as L.
  cbv zeta in L.
  destruct L as (_ & _ & _ & _ & _ & Hw & _ & Hstep & _).
  split; [exact Hstep | exact Hw].
Defined.

Lemma diagnostic_cloud_every_50_witness :
  live_integration live_state_49 = true /\
  processed_frame_count live_state_49 = 49 /\
  reconstructCallback_cloud live_state_49 <> None.
Proof.
  split; [vm_compute; reflexivity|]. split; [vm_compute; reflexivity|].
  apply (proj2 (diagnostic_cloud_every_50 live_state_49)).
  - vm_compute. reflexivity.
  - vm_compute. reflexivity.
  - vm_compute. discriminate.
  - vm_compute. reflexivity.
  - vm_compute. reflexivity.
Defined.

Lemma session_parameters_fixed_witness :
  ~ started (frames 31) /\
  run (frames 31)
    (state_of
       (startReconstructionCallback (start_request false) fresh_response
          init_state))
  = Some warm_state /\
  translation_distance warm_state = 0.05%float.
Proof.
  assert (Hn : ~ started (frames 31)).
  { intros [req Hin]. unfold frames in Hin. apply in_map_iff in Hin.
    destruct Hin as (t & E & _). discriminate. }
  assert (Hrun : run (frames 31)
                   (state_of
                      (startReconstructionCallback (start_request false)
                         fresh_response init_state))
                 = Some warm_state) by (vm_compute; reflexivity).
  split; [exact Hn|]. split; [exact Hrun|].
  destruct (session_parameters_fixed _ _ _ _ Hn Hrun) as (_ & Ht & _).
  exact Ht.
Defined.

Lemma arrivals_queue_in_order_witness :
  record warm_state = true /\ paused warm_state = false /\
  frame_count (run_background (arrivals [frame_32]) warm_state) = 32.
Proof.
  assert (Hr : record warm_state = true) by (vm_compute; reflexivity).
  assert (Hp : paused warm_state = false) by (vm_compute; reflexivity).
  split; [exact Hr|]. split; [exact Hp|].
  pose proof (arrivals_queue_in_order [frame_32] warm_state Hr Hp) as H.
  cbv zeta in H. destruct H as (_ & Hf). rewrite Hf.
  vm_compute. reflexivity.
Defined.
